(** * test-at-scale: the task-lifecycle pipeline and the discovery dispatcher

    A shallow embedding of [pkg/core] (the pipeline: [Start],
    [runOldVersion], [runNewVersion], [runDiscoveryForEachSubModule]), of
    [pkg/testdiscoveryservice] ([Discover], [DiscoverV2], [updateResult])
    and of [pkg/gitmanager] ([Clone] and the functions it calls).

    Go code that talks to collaborators is written in a small free monad
    [prog]: a program is a tree whose nodes are the calls the Go code makes
    and whose branches are the values those calls may return.  A program is
    run against a [World] (the collaborators), either alone ([run]) or as
    the main goroutine of a pool of goroutines ([step]).  The process of
    [Start] runs the statements of [Start] and its deferred function in the
    main goroutine, beside the goroutines it launches ([Start_step]). *)

From stdpp Require Import base option list list_numbers gmap strings fin_maps.

From Stdlib Require Import ZArith Lia Ascii.

Open Scope string_scope.

Open Scope list_scope.

Open Scope Z_scope.

(** ** Values declared outside the embedded files

    Constants of the packages [global], [errs] and [core] and two functions
    of Go's library that the embedded code uses; they are taken as
    parameters. *)
Record Globals := {
  GenericErrRemark : string;        (* errs.GenericErrRemark.Error() *)
  ErrGitDiffNotFoundMsg : string;   (* errs.ErrGitDiffNotFound.Error() *)
  FileRemoved : Z;                  (* core.FileRemoved *)
  RepoDir : string;                 (* global.RepoDir *)
  OauthSecretPath : string;
  RepoSecretPath : string;
  CodeCoverageDir : string;
  BlockTestFileLocation : string;
  InstallRunnerCmds : list string;
  NeuronHost : string;
  FrameworkRunnerMap : gmap string string;
  path_Join : string → string → string;             (* path.Join *)
  filepath_Join : list string → string;             (* filepath.Join *)
}.

(** ** Package errs and Go's error values *)
Module errs.

(** An error value: the two sentinels the pipeline tests for, the
    [*errs.StatusFailed] struct, an error made from a message
    ([errs.New], [errors.New]) and an error wrapping another one
    ([fmt.Errorf] with [%w]). *)
Inductive error :=
| Canceled                                   (* context.Canceled *)
| ErrGitDiffNotFound
| StatusFailed (Remark : string)
| New (msg : string)
| Wrap (msg : string) (inner : error).

Global Instance error_eq_dec : EqDecision error.
Proof. solve_decision. Defined.

(** Modelled from the spec: the [Error] method of [*errs.StatusFailed] is
    declared outside the embedded files; the spec calls the remark "the
    failure's own message", so the method returns the [Remark] field. *)
Definition Error (G : Globals) (e : error) : string :=
  match e with
  | Canceled => "context canceled"
  | ErrGitDiffNotFound => ErrGitDiffNotFoundMsg G
  | StatusFailed r => r
  | New m => m
  | Wrap m _ => m
  end.

(** [errors.Is]: [target] is found along the chain of wrapped errors. *)
Fixpoint Is (e target : error) : bool :=
  bool_decide (e = target) ||
  match e with
  | Wrap _ inner => Is inner target
  | _ => false
  end.

(** The type assertion of [err] to a pointer to [errs.StatusFailed]: on
    the dynamic type of the value itself, without unwrapping. *)
Definition isStatusFailed (e : error) : bool :=
  match e with StatusFailed _ => true | _ => false end.

End errs.

Export errs(error).

(** ** Data model (package core) *)

Inductive Status := Running | Passed | Failed | Error | Aborted.

Inductive TaskType := DiscoveryTask | ExecutionTask | FlakyTask.

Inductive EventType := EventPush | EventPullRequest.

Inductive CommandType := PreRun | PostRun | InstallRunners | InstallNodeVer.

Global Instance Status_eq_dec : EqDecision Status.
Proof. solve_decision. Defined.

Global Instance EventType_eq_dec : EqDecision EventType.
Proof. solve_decision. Defined.

(** A Go map that is written to may be nil: [None] is the nil map. *)
Abbreviation gomap := (option (gmap string string)).

Record Cache := { Key : string; Paths : list string }.

Record Merge := {                       (* core.Merge, schema v1 *)
  Patterns : list string;
  EnvMap : gomap;
}.

Record TASConfig := {                   (* schema v1 *)
  SmartRun : bool;
  Framework : string;
  ConfigFile : string;
  NodeVersion : string;
  Premerge : Merge;
  Postmerge : Merge;
  Prerun : option (list string);
  Postrun : option (list string);
  Parallelism : Z;
  SplitMode : string;
  ContainerImage : string;
  Tier : string;
  TasCache : Cache;
}.

Record SubModule := {
  sm_Name : string;
  sm_Path : string;
  sm_Patterns : list string;
  sm_Framework : string;
  sm_ConfigFile : string;
  sm_EnvMap : gmap string string;       (* only ranged over: nil is empty *)
  sm_Prerun : option (list string);
  sm_Parallelism : Z;
}.

(** Which of the two merge-level sections of a v2 config. *)
Inductive MergeKind := PreMergeK | PostMergeK.

Record MergeV2 := {
  SubModules : list SubModule;
  v2_EnvMap : gomap;                    (* the value the loader produced *)
}.

Record TASConfigV2 := {
  v2_SmartRun : bool;
  PreMerge : MergeV2;
  PostMerge : MergeV2;
  v2_SplitMode : string;
  v2_ContainerImage : string;
  v2_Tier : string;
  v2_Cache : Cache;
}.

Record Payload := {
  TaskID : string;
  BuildID : string;
  RepoSlug : string;
  RepoLink : string;
  OrgID : string;
  RepoID : string;
  GitProvider : string;
  BuildTargetCommit : string;
  BranchName : string;
  TasFileName : string;
  LicenseTier : string;
  payloadEventType : EventType;
  CollectCoverage : bool;
  payloadTaskType : option TaskType;    (* unset until Start fills it in *)
}.

Record TaskPayload := {
  tp_TaskID : string;
  tp_BuildID : string;
  tp_RepoSlug : string;
  tp_RepoLink : string;
  tp_OrgID : string;
  tp_RepoID : string;
  tp_GitProvider : string;
  tp_Type : TaskType;
  tp_Status : Status;
  tp_Remark : string;
  tp_StartTime : Z;
  tp_EndTime : Z;
}.

Record DiscoveryResult := {
  dr_Body : string;                     (* what the runner reported *)
  dr_Parallelism : Z;
  dr_SplitMode : string;
  dr_ContainerImage : string;
  dr_Tier : string;
  dr_SubModule : string;
}.

Record NucleusConfig := {
  PayloadAddress : string;
  CoverageMode : bool;
  DiscoverMode : bool;
  ExecuteMode : bool;
  FlakyMode : bool;
  Env : string;
}.

(** What [TestExecutionService.Run] hands back: the pipeline only looks at
    whether the pointer is nil and passes it on. *)
Record ExecutionResults := { er_Results : list (list string) }.

(** ** The smart-diff selector

    [Discover] and [DiscoverV2] build the runner's arguments with the same
    statements (testdiscovery.go 66-88 and 167-189); they are embedded once.
    [order] is the order in which Go's [range] visits [diff]. *)
Section Selector.
Context (G : Globals).

Definition discoverAll (diff : gmap string Z) (configFilePath : string)
    (smartRun : bool) : bool :=
  let tasYmlModified := bool_decide (is_Some (diff !! configFilePath)) in
  tasYmlModified || negb smartRun.

(** The [for k, v := range diff] loop: one [append] per visited entry. *)
Definition appendDiffs (args : list string) (order : list (string * Z))
    : list string :=
  foldl (λ args kv,
           if bool_decide (kv.2 ≠ FileRemoved G)
           then args ++ ["--diff"; kv.1] else args)
        args order.

Definition discoverArgs (diff : gmap string Z) (diffExists : bool)
    (order : list (string * Z)) (all : bool)
    (configFile : string) (target : list string) : list string :=
  let args := ["--command"; "discover"] in
  let args :=
    if negb all then
      if bool_decide (size diff = 0%nat) && diffExists
      then args ++ ["--diff"]
      else appendDiffs args order
    else args in
  let args :=
    if bool_decide (configFile ≠ EmptyString)
    then args ++ ["--config"; configFile] else args in
  foldl (λ args pattern, args ++ ["--pattern"; pattern]) args target.

(** The three segments of the argument list, for stating what was built. *)
Definition configArgs (configFile : string) : list string :=
  if bool_decide (configFile ≠ EmptyString) then ["--config"; configFile] else [].

Definition patternArgs (target : list string) : list string :=
  flat_map (λ pattern, ["--pattern"; pattern]) target.

Definition diffPairs (paths : list string) : list string :=
  flat_map (λ k, ["--diff"; k]) paths.

(** The entries of [diff] that were not removed. *)
Definition notRemoved (entries : list (string * Z)) : list (string * Z) :=
  filter (λ kv, kv.2 ≠ FileRemoved G) entries.

End Selector.

(** ** Calls

    Everything the embedded Go code does besides computing on its own
    values: a method of a collaborator, a function of Go's library with an
    effect, or an access to memory that goroutines or the deferred function
    of [Start] share. *)

Record Oauth := { AccessToken : string; OauthType : string }.

(** The variables a goroutine launched by [runNewVersion] captures. *)
Record goroutine := {
  g_payload : Payload;
  g_subModule : SubModule;
  g_tasConfig : TASConfigV2;
  g_secretMap : gmap string string;
  g_diff : gmap string Z;
  g_diffExists : bool;
}.

Inductive call : Type :=
(* collaborators of the pipeline *)
| FetchPayload (address : string)
| ValidatePayload (payload : Payload)
| MergeAndUpload (payload : Payload)
| GetOauthSecret (path : string)
| GetRepoSecret (path : string)
| Clone (payload : Payload) (oauth : Oauth)
| ExtractWorkspace
| CreateIfNotExists (dir : string)
| GetVersion (file : string)
| LoadAndValidateV1 (file : string) (ev : EventType) (tier : string)
| LoadAndValidateV2 (file : string) (ev : EventType) (tier : string)
| GetBlocklistYMLV1 (cfg : TASConfig)
| GetBlocklistYMLV2 (sub : SubModule)
| GetBlockTests (blYml : list string) (repoID branch : string)
| Download (key : string)
| Upload (key : string) (paths : list string)
| CacheWorkspace
| ExecuteUserCommands (t : CommandType) (payload : Payload)
    (commands : list string) (secretMap : gmap string string) (dir : string)
| ExecuteInternalCommands (t : CommandType) (commands : list string)
    (dir : string)
| GetChangedFiles (payload : Payload) (oauth : Oauth)
| TestExecutionRun (cfg : TASConfig) (payload : Payload)
    (coverageDir : string) (secretMap : gmap string string)
| SendResults (er : option ExecutionResults)
| UpdateStatus (tp : TaskPayload)

(* collaborators of the discovery service *)
| GetConfigFileName (file : string)
| GetEnvVariables (envMap : gomap) (secretData : gmap string string)
| CmdRun (binary : string) (args : list string) (dir : string)
    (env : list string)                       (* cmd.Run() *)
| ChanRecv                                    (* <-tds.tdResChan *)
| JsonMarshal (r : DiscoveryResult)
| MakeAPIRequest (method endpoint body : string)

(* Go's runtime and library *)
| RangeDiff (diff : gmap string Z)            (* the order of a range loop *)
| TimeNow
| Setenv (k v : string)
| Getenv (k : string)
| OsExit (code : Z)
| Fatalf (msg : string)
| Errorf (msg : string)

(* memory shared through pointers *)
| NewTaskPayload (tp : TaskPayload)           (* taskPayload := &TaskPayload... *)
| GetTaskPayload
| SetStatus (s : Status)
| SetRemark (r : string)
| SetEndTime (t : Z)
| EnvMapStore (which : MergeKind) (k v : string)   (* envMap[k] = v *)
| EnvMapLoad (which : MergeKind)

(* sync.WaitGroup and the go statement *)
| WgAdd (n : Z)
| WgDone
| WgWait
| Go (g : goroutine).

(** What a call hands back.  A pair is Go's [(value, err)]. *)
Definition reply (c : call) : Type :=
  match c with
  | FetchPayload _ => Payload * option error
  | GetOauthSecret _ => Oauth * option error
  | GetRepoSecret _ => gmap string string * option error
  | GetVersion _ => Z * option error
  | LoadAndValidateV1 _ _ _ => TASConfig * option error
  | LoadAndValidateV2 _ _ _ => TASConfigV2 * option error
  | GetBlocklistYMLV1 _ | GetBlocklistYMLV2 _ => list string
  | GetChangedFiles _ _ => gmap string Z * option error
  | TestExecutionRun _ _ _ _ => option ExecutionResults * option error
  | SendResults _ => Status * option error
  | GetConfigFileName _ => string * option error
  | GetEnvVariables _ _ => list string * option error
  | ChanRecv => DiscoveryResult
  | JsonMarshal _ => string * option error
  | RangeDiff diff => { order : list (string * Z) | order ≡ₚ map_to_list diff }
  | TimeNow => Z
  | Getenv _ => string
  | OsExit _ | Fatalf _ => Empty_set
  | GetTaskPayload => TaskPayload
  | EnvMapLoad _ => gomap
  | Setenv _ _ | Errorf _ | NewTaskPayload _ | SetStatus _ | SetRemark _
  | SetEndTime _ | EnvMapStore _ _ _ | WgAdd _ | WgDone | WgWait | Go _ => unit
  | ValidatePayload _ | MergeAndUpload _
  | Clone _ _ | ExtractWorkspace | CreateIfNotExists _ | GetBlockTests _ _ _
  | Download _ | Upload _ _ | CacheWorkspace
  | ExecuteUserCommands _ _ _ _ _ | ExecuteInternalCommands _ _ _
  | UpdateStatus _ | CmdRun _ _ _ _ | MakeAPIRequest _ _ _ => option error
  end.

(** ** Programs *)

Inductive prog (A : Type) : Type :=
| Ret (a : A)
| Do (c : call) (k : reply c → prog A).
Arguments Ret {A} a.
Arguments Do {A} c k.

Fixpoint bind {A B} (p : prog A) (f : A → prog B) : prog B :=
  match p with
  | Ret a => f a
  | Do c k => Do c (λ r, bind (k r) f)
  end.

Definition call_ (c : call) : prog (reply c) := Do c Ret.

Notation "x <- p ;; k" := (bind p (λ x, k))
  (at level 20, p at level 99, k at level 200, only parsing).

Notation "' x <- p ;; k" := (bind p (λ x, k))
  (at level 20, x pattern, p at level 99, k at level 200, only parsing).

(** A call that does not return ([os.Exit], [Logger.Fatalf]). *)
Definition noreturn {A} (c : call) : reply c = Empty_set → prog A :=
  λ H, Do c (λ r, match eq_rect _ (λ T, T) r _ H return prog A with end).

(** A [for] loop over a slice whose body may leave the function: [Some r]
    returns [r], [None] goes on to the next element. *)
Fixpoint forEach {X R} (xs : list X) (body : X → prog (option R))
    : prog (option R) :=
  match xs with
  | [] => Ret None
  | x :: xs => r <- body x ;;
               match r with Some r => Ret (Some r) | None => forEach xs body end
  end.

(** A [for] loop whose body always falls through. *)
Fixpoint forRange {X} (xs : list X) (body : X → prog unit) : prog unit :=
  match xs with
  | [] => Ret tt
  | x :: xs => _ <- body x ;; forRange xs body
  end.

(** ** The world and the state of a process *)

(** What a collaborator does with a call: it returns, it panics, or it
    never returns (a receive on a channel nothing is sent to). *)
Inductive answer (A : Type) :=
| Answers (r : A)
| PanicsWith (msg : string)
| Hangs.
Arguments Answers {A} r.
Arguments PanicsWith {A} msg.
Arguments Hangs {A}.

(** One call made by goroutine [ev_tid] (0 is the main goroutine), with
    what it returned ([None]: it panicked or ended the process). *)
Record event := Event {
  ev_tid : nat;
  ev_call : call;
  ev_reply : option (reply ev_call);
}.

(** The collaborators: they see the calls made so far. *)
Definition World := list event → ∀ c : call, answer (reply c).

Record state := {
  trace : list event;                   (* calls made so far, oldest first *)
  wg : Z;                               (* the WaitGroup's counter *)
  preEnv : gomap;                       (* tasConfig.PreMerge.EnvMap *)
  postEnv : gomap;                      (* tasConfig.PostMerge.EnvMap *)
  osenv : gmap string string;           (* the process environment *)
  taskPayload : option TaskPayload;     (* what the pointer points to *)
  spawned : list goroutine;             (* goroutines launched so far *)
}.

Definition init : state :=
  {| trace := []; wg := 0; preEnv := None; postEnv := None; osenv := ∅;
     taskPayload := None; spawned := [] |}.

Definition envOf (s : state) (which : MergeKind) : gomap :=
  match which with PreMergeK => preEnv s | PostMergeK => postEnv s end.

Definition setEnvOf (which : MergeKind) (m : gomap) (s : state) : state :=
  match which with
  | PreMergeK =>
      {| trace := trace s; wg := wg s; preEnv := m; postEnv := postEnv s;
         osenv := osenv s; taskPayload := taskPayload s; spawned := spawned s |}
  | PostMergeK =>
      {| trace := trace s; wg := wg s; preEnv := preEnv s; postEnv := m;
         osenv := osenv s; taskPayload := taskPayload s; spawned := spawned s |}
  end.

Definition setWg (n : Z) (s : state) : state :=
  {| trace := trace s; wg := n; preEnv := preEnv s; postEnv := postEnv s;
     osenv := osenv s; taskPayload := taskPayload s; spawned := spawned s |}.

Definition setOsenv (e : gmap string string) (s : state) : state :=
  {| trace := trace s; wg := wg s; preEnv := preEnv s; postEnv := postEnv s;
     osenv := e; taskPayload := taskPayload s; spawned := spawned s |}.

Definition setTaskPayload (tp : option TaskPayload) (s : state) : state :=
  {| trace := trace s; wg := wg s; preEnv := preEnv s; postEnv := postEnv s;
     osenv := osenv s; taskPayload := tp; spawned := spawned s |}.

Definition addSpawned (g : goroutine) (s : state) : state :=
  {| trace := trace s; wg := wg s; preEnv := preEnv s; postEnv := postEnv s;
     osenv := osenv s; taskPayload := taskPayload s;
     spawned := spawned s ++ [g] |}.

Definition record (e : event) (s : state) : state :=
  {| trace := trace s ++ [e]; wg := wg s; preEnv := preEnv s;
     postEnv := postEnv s; osenv := osenv s; taskPayload := taskPayload s;
     spawned := spawned s |}.

Definition withStatus (st : Status) (tp : TaskPayload) : TaskPayload :=
  {| tp_TaskID := tp_TaskID tp; tp_BuildID := tp_BuildID tp;
     tp_RepoSlug := tp_RepoSlug tp; tp_RepoLink := tp_RepoLink tp;
     tp_OrgID := tp_OrgID tp; tp_RepoID := tp_RepoID tp;
     tp_GitProvider := tp_GitProvider tp; tp_Type := tp_Type tp;
     tp_Status := st; tp_Remark := tp_Remark tp;
     tp_StartTime := tp_StartTime tp; tp_EndTime := tp_EndTime tp |}.

Definition withRemark (r : string) (tp : TaskPayload) : TaskPayload :=
  {| tp_TaskID := tp_TaskID tp; tp_BuildID := tp_BuildID tp;
     tp_RepoSlug := tp_RepoSlug tp; tp_RepoLink := tp_RepoLink tp;
     tp_OrgID := tp_OrgID tp; tp_RepoID := tp_RepoID tp;
     tp_GitProvider := tp_GitProvider tp; tp_Type := tp_Type tp;
     tp_Status := tp_Status tp; tp_Remark := r;
     tp_StartTime := tp_StartTime tp; tp_EndTime := tp_EndTime tp |}.

Definition withEndTime (t : Z) (tp : TaskPayload) : TaskPayload :=
  {| tp_TaskID := tp_TaskID tp; tp_BuildID := tp_BuildID tp;
     tp_RepoSlug := tp_RepoSlug tp; tp_RepoLink := tp_RepoLink tp;
     tp_OrgID := tp_OrgID tp; tp_RepoID := tp_RepoID tp;
     tp_GitProvider := tp_GitProvider tp; tp_Type := tp_Type tp;
     tp_Status := tp_Status tp; tp_Remark := tp_Remark tp;
     tp_StartTime := tp_StartTime tp; tp_EndTime := t |}.

(** ** One call *)

Inductive result (c : call) :=
| Returns (r : reply c) (s : state)
| Panics (msg : string) (s : state)
| Exits (code : Z) (s : state)        (* the process ends *)
| Blocks.                             (* the goroutine cannot go on yet *)
Arguments Returns {c} r s.
Arguments Panics {c} msg s.
Arguments Exits {c} code s.
Arguments Blocks {c}.

(** A call the world answers. *)
Definition ask (W : World) (tid : nat) (s : state) (c : call) : result c :=
  match W (trace s) c with
  | Answers r => Returns r (record (Event tid c (Some r)) s)
  | PanicsWith msg => Panics msg (record (Event tid c None) s)
  | Hangs => Blocks
  end.

(** A call on the process's own memory, which returns [r] and leaves the
    state [s]. *)
Definition local (tid : nat) (c : call) (r : reply c) (s : state) : result c :=
  Returns r (record (Event tid c (Some r)) s).

Definition nilDeref : string :=
  "invalid memory address or nil pointer dereference".

Definition exec (W : World) (tid : nat) (s : state) (c : call) : result c :=
  match c return result c with
  | OsExit code => Exits code (record (Event tid (OsExit code) None) s)
  | Fatalf msg => Exits 1 (record (Event tid (Fatalf msg) None) s)
  | Setenv k v => local tid (Setenv k v) tt (setOsenv (<[k := v]> (osenv s)) s)
  | Getenv k => local tid (Getenv k) (default EmptyString (osenv s !! k)) s
  | Errorf msg => local tid (Errorf msg) tt s
  | NewTaskPayload tp =>
      local tid (NewTaskPayload tp) tt (setTaskPayload (Some tp) s)
  | GetTaskPayload =>
      match taskPayload s with
      | Some tp => local tid GetTaskPayload tp s
      | None => Panics nilDeref (record (Event tid GetTaskPayload None) s)
      end
  | SetStatus st =>
      match taskPayload s with
      | Some tp => local tid (SetStatus st) tt
                     (setTaskPayload (Some (withStatus st tp)) s)
      | None => Panics nilDeref (record (Event tid (SetStatus st) None) s)
      end
  | SetRemark r =>
      match taskPayload s with
      | Some tp => local tid (SetRemark r) tt
                     (setTaskPayload (Some (withRemark r tp)) s)
      | None => Panics nilDeref (record (Event tid (SetRemark r) None) s)
      end
  | SetEndTime t =>
      match taskPayload s with
      | Some tp => local tid (SetEndTime t) tt
                     (setTaskPayload (Some (withEndTime t tp)) s)
      | None => Panics nilDeref (record (Event tid (SetEndTime t) None) s)
      end
  | EnvMapStore which k v =>
      match envOf s which with
      | Some m => local tid (EnvMapStore which k v) tt
                    (setEnvOf which (Some (<[k := v]> m)) s)
      | None => Panics "assignment to entry in nil map"
                  (record (Event tid (EnvMapStore which k v) None) s)
      end
  | EnvMapLoad which => local tid (EnvMapLoad which) (envOf s which) s
  | WgAdd n =>
      if bool_decide (wg s + n < 0)
      then Panics "sync: negative WaitGroup counter"
             (record (Event tid (WgAdd n) None) s)
      else local tid (WgAdd n) tt (setWg (wg s + n) s)
  | WgDone =>
      if bool_decide (wg s - 1 < 0)
      then Panics "sync: negative WaitGroup counter"
             (record (Event tid WgDone None) s)
      else local tid WgDone tt (setWg (wg s - 1) s)
  | WgWait => if bool_decide (wg s = 0) then local tid WgWait tt s else Blocks
  | Go g => local tid (Go g) tt (addSpawned g s)
  | LoadAndValidateV2 f ev tier =>
      (* the config the loader builds holds the two merge-level maps *)
      match W (trace s) (LoadAndValidateV2 f ev tier) with
      | Answers r =>
          Returns r (record (Event tid (LoadAndValidateV2 f ev tier) (Some r))
                       (setEnvOf PreMergeK (v2_EnvMap (PreMerge r.1))
                          (setEnvOf PostMergeK (v2_EnvMap (PostMerge r.1)) s)))
      | PanicsWith msg =>
          Panics msg (record (Event tid (LoadAndValidateV2 f ev tier) None) s)
      | Hangs => Blocks
      end
  | c => ask W tid s c
  end.

(** ** Running one goroutine on its own *)

Inductive outcome (A : Type) :=
| Returned (a : A)
| Panicked (msg : string)
| Exited (code : Z)
| Blocked.
Arguments Returned {A} a.
Arguments Panicked {A} msg.
Arguments Exited {A} code.
Arguments Blocked {A}.

Fixpoint run {A} (W : World) (tid : nat) (p : prog A) (s : state)
    : outcome A * state :=
  match p with
  | Ret a => (Returned a, s)
  | Do c k =>
      match exec W tid s c with
      | Returns r s' => run W tid (k r) s'
      | Panics msg s' => (Panicked msg, s')
      | Exits code s' => (Exited code, s')
      | Blocks => (Blocked, s)
      end
  end.

(** ** Package testdiscoveryservice

    Calls to the logger are left out of the embedding (they return nothing
    and change nothing), except the one a goroutine of [runNewVersion] makes
    when its submodule fails. *)
Section Programs.
Context (G : Globals).

Definition updateResult (testDiscoveryResult : DiscoveryResult)
    : prog (option error) :=
  '(reqBody, err) <- call_ (JsonMarshal testDiscoveryResult) ;;
  if err is Some e then Ret (Some e) else
  err <- call_ (MakeAPIRequest "POST" (NeuronHost G +:+ "/test-list") reqBody) ;;
  if err is Some e then Ret (Some e) else
  Ret None.

(** [RangeDiff] draws the order in which [for k, v := range diff] visits
    the map, which Go leaves open; [discoverArgs] uses it only on the path
    that runs the loop.  The order is drawn on every path, so that the
    arguments are one expression. *)
Definition Discover (tasConfig : TASConfig) (payload : Payload)
    (secretData : gmap string string) (diff : gmap string Z)
    (diffExists : bool) : prog (option error) :=
  let '(target, envMap) :=
    if bool_decide (payloadEventType payload = EventPullRequest)
    then (Patterns (Premerge tasConfig), EnvMap (Premerge tasConfig))
    else (Patterns (Postmerge tasConfig), EnvMap (Postmerge tasConfig)) in
  '(configFilePath, err) <- call_ (GetConfigFileName (TasFileName payload)) ;;
  if err is Some e then Ret (Some e) else
  let all := discoverAll diff configFilePath (SmartRun tasConfig) in
  order <- call_ (RangeDiff diff) ;;
  let args := discoverArgs G diff diffExists (`order) all
                (ConfigFile tasConfig) target in
  '(envVars, err) <- call_ (GetEnvVariables envMap secretData) ;;
  if err is Some e then Ret (Some e) else
  err <- call_ (CmdRun (default EmptyString
                          (FrameworkRunnerMap G !! Framework tasConfig))
                       args (RepoDir G) envVars) ;;
  if err is Some e then Ret (Some e) else
  testDiscoveryResult <- call_ ChanRecv ;;
  let testDiscoveryResult :=
    {| dr_Body := dr_Body testDiscoveryResult;
       dr_Parallelism := Parallelism tasConfig;
       dr_SplitMode := SplitMode tasConfig;
       dr_ContainerImage := ContainerImage tasConfig;
       dr_Tier := Tier tasConfig;
       dr_SubModule := dr_SubModule testDiscoveryResult |} in
  err <- updateResult testDiscoveryResult ;;
  if err is Some e then Ret (Some e) else
  Ret None.

(** The merge-level map [DiscoverV2] binds [envMap] to: a Go map is a
    reference, so [envMap] is the map inside [tasConfig] itself. *)
Definition envMapOf (payload : Payload) : MergeKind :=
  if bool_decide (payloadEventType payload = EventPullRequest)
  then PreMergeK else PostMergeK.

(** The first loop stores into the shared map; its entries have distinct
    keys, so the order of the stores does not change the map they leave.
    [EnvMapLoad] reads the shared map at the point where the code hands
    [envMap] to [GetEnvVariables]. *)
Definition DiscoverV2 (subModule : SubModule) (payload : Payload)
    (secretData : gmap string string) (tasConfig : TASConfigV2)
    (diff : gmap string Z) (diffExists : bool) : prog (option error) :=
  let envMap := envMapOf payload in
  _ <- forRange (map_to_list (sm_EnvMap subModule))
         (λ kv, call_ (EnvMapStore envMap kv.1 kv.2)) ;;
  let target := sm_Patterns subModule in
  '(configFilePath, err) <- call_ (GetConfigFileName (TasFileName payload)) ;;
  if err is Some e then Ret (Some e) else
  let all := discoverAll diff configFilePath (v2_SmartRun tasConfig) in
  order <- call_ (RangeDiff diff) ;;
  let args := discoverArgs G diff diffExists (`order) all
                (sm_ConfigFile subModule) target in
  envMapNow <- call_ (EnvMapLoad envMap) ;;
  '(envVars, err) <- call_ (GetEnvVariables envMapNow secretData) ;;
  if err is Some e then Ret (Some e) else
  err <- call_ (CmdRun (default EmptyString
                          (FrameworkRunnerMap G !! sm_Framework subModule))
                       args (path_Join G (RepoDir G) (sm_Path subModule))
                       envVars) ;;
  if err is Some e then Ret (Some e) else
  testDiscoveryResult <- call_ ChanRecv ;;
  let testDiscoveryResult :=
    {| dr_Body := dr_Body testDiscoveryResult;
       dr_Parallelism := sm_Parallelism subModule;
       dr_SplitMode := v2_SplitMode tasConfig;
       dr_ContainerImage := v2_ContainerImage tasConfig;
       dr_Tier := v2_Tier tasConfig;
       dr_SubModule := sm_Name subModule |} in
  err <- updateResult testDiscoveryResult ;;
  if err is Some e then Ret (Some e) else
  Ret None.

(** ** Package core: the pipeline *)

Definition generic : error := errs.New (GenericErrRemark G).

Definition cacheKeyOf (payload : Payload) (key : string) : string :=
  OrgID payload +:+ "/" +:+ RepoID payload +:+ "/" +:+ key.

Definition installNodeVersion (nodeVersion : string) : prog (option error) :=
  let commands := ["source /home/nucleus/.nvm/nvm.sh";
                   "nvm install " +:+ nodeVersion] in
  err <- call_ (ExecuteInternalCommands InstallNodeVer commands EmptyString) ;;
  if err is Some _ then Ret (Some generic) else
  origPath <- call_ (Getenv "PATH") ;;
  _ <- call_ (Setenv "PATH" ("/home/nucleus/.nvm/versions/node/v"
                             +:+ nodeVersion +:+ "/bin:" +:+ origPath)) ;;
  Ret None.

Definition runOldVersion (cfg : NucleusConfig) (payload : Payload)
    (oauth : Oauth) (coverageDir : string)
    (secretMap : gmap string string) : prog (option error) :=
  '(tasConfig, err) <- call_ (LoadAndValidateV1 (TasFileName payload)
                               (payloadEventType payload)
                               (LicenseTier payload)) ;;
  if err is Some e then Ret (Some (errs.StatusFailed (errs.Error G e))) else
  let cacheKey := cacheKeyOf payload (Key (TasCache tasConfig)) in
  left <- (if bool_decide (NodeVersion tasConfig ≠ EmptyString)
           then installNodeVersion (NodeVersion tasConfig)
           else Ret None) ;;
  if left is Some nodeErr then Ret (Some nodeErr) else
  left <- (if DiscoverMode cfg then
    blYml <- call_ (GetBlocklistYMLV1 tasConfig) ;;
    err <- call_ (GetBlockTests blYml (RepoID payload) (BranchName payload)) ;;
    if err is Some _ then Ret (Some generic) else
    err <- call_ (Download cacheKey) ;;
    if err is Some _ then Ret (Some generic) else
    left <- (if Prerun tasConfig is Some prerun then
      err <- call_ (ExecuteUserCommands PreRun payload prerun secretMap
                      (RepoDir G)) ;;
      if err is Some _
      then Ret (Some (errs.StatusFailed "Failed in running pre-run steps"))
      else Ret None
    else Ret None) ;;
    if left is Some e then Ret (Some e) else
    err <- call_ (ExecuteInternalCommands InstallRunners (InstallRunnerCmds G)
                    (RepoDir G)) ;;
    if err is Some _ then Ret (Some generic) else
    err <- call_ CacheWorkspace ;;
    if err is Some _ then Ret (Some generic) else
    let diffExists := true in
    '(diff, err) <- call_ (GetChangedFiles payload oauth) ;;
    let caught :=
      match err with
      | Some e =>
          if errs.Is e errs.ErrGitDiffNotFound then inr false
          else inl (errs.New "Error occurred in fetching diff from GitHub")
      | None => inr diffExists
      end in
    match caught with
    | inl e => Ret (Some e)
    | inr diffExists =>
        err <- Discover tasConfig payload secretMap diff diffExists ;;
        if err is Some _
        then Ret (Some (errs.StatusFailed "Failed in discovering tests"))
        else
        _ <- call_ (SetStatus Passed) ;;
        err <- call_ (Upload cacheKey (Paths (TasCache tasConfig))) ;;
        if err is Some _ then Ret (Some generic) else
        Ret None
    end
  else Ret None) ;;
  if left is Some e then Ret (Some e) else
  left <- (if ExecuteMode cfg || FlakyMode cfg then
    '(executionResults, err) <- call_ (TestExecutionRun tasConfig payload
                                         coverageDir secretMap) ;;
    if bool_decide (is_Some err ∧ executionResults = None)
    then Ret (Some (errs.StatusFailed "Failed in executing tests."))
    else
    '(respTaskStatus, err) <- call_ (SendResults executionResults) ;;
    if err is Some _ then Ret (Some generic) else
    _ <- call_ (SetStatus respTaskStatus) ;;
    if Postrun tasConfig is Some postrun then
      err <- call_ (ExecuteUserCommands PostRun payload postrun secretMap
                      (RepoDir G)) ;;
      if err is Some _
      then Ret (Some (errs.StatusFailed "Failed in running post-run steps."))
      else Ret None
    else Ret None
  else Ret None) ;;
  if left is Some e then Ret (Some e) else
  Ret None.

Definition runDiscoveryForEachSubModule (payload : Payload)
    (subModule : SubModule) (tasConfig : TASConfigV2)
    (secretMap : gmap string string) (diff : gmap string Z)
    (diffExists : bool) : prog (option error) :=
  blYML <- call_ (GetBlocklistYMLV2 subModule) ;;
  err <- call_ (GetBlockTests blYML (RepoID payload) (BranchName payload)) ;;
  if err is Some _ then Ret (Some generic) else
  let modulePath := path_Join G (RepoDir G) (sm_Path subModule) in
  left <- (if sm_Prerun subModule is Some prerun then
    err <- call_ (ExecuteUserCommands PreRun payload prerun secretMap
                    modulePath) ;;
    if err is Some _
    then Ret (Some (errs.StatusFailed "Failed in running pre-run steps"))
    else Ret None
  else Ret None) ;;
  if left is Some e then Ret (Some e) else
  err <- call_ (ExecuteInternalCommands InstallRunners (InstallRunnerCmds G)
                  modulePath) ;;
  if err is Some _ then Ret (Some generic) else
  err <- DiscoverV2 subModule payload secretMap tasConfig diff diffExists ;;
  if err is Some _
  then Ret (Some (errs.StatusFailed "Failed in discovering tests"))
  else
  _ <- call_ WgDone ;;
  Ret None.

(** The function literal of the two [go] statements of [runNewVersion]. *)
Definition goFunc (g : goroutine) : prog unit :=
  dicoveryErr <- runDiscoveryForEachSubModule (g_payload g) (g_subModule g)
                   (g_tasConfig g) (g_secretMap g) (g_diff g)
                   (g_diffExists g) ;;
  if dicoveryErr is Some e then
    _ <- call_ (Errorf ("error while running discovery for sub module "
                        +:+ sm_Name (g_subModule g) +:+ ", error "
                        +:+ errs.Error G e)) ;;
    call_ WgDone
  else Ret tt.

Definition runNewVersion (cfg : NucleusConfig) (payload : Payload)
    (oauth : Oauth) (coverageDir : string)
    (secretMap : gmap string string) : prog (option error) :=
  '(tasConfig, err) <- call_ (LoadAndValidateV2 (TasFileName payload)
                               (payloadEventType payload)
                               (LicenseTier payload)) ;;
  if err is Some e then Ret (Some (errs.StatusFailed (errs.Error G e))) else
  if DiscoverMode cfg then
    let cacheKey := cacheKeyOf payload (Key (v2_Cache tasConfig)) in
    err <- call_ (Download cacheKey) ;;
    if err is Some _ then Ret (Some generic) else
    let diffExists := true in
    '(diff, err) <- call_ (GetChangedFiles payload oauth) ;;
    let caught :=
      match err with
      | Some e =>
          if errs.Is e errs.ErrGitDiffNotFound then inr false
          else inl (errs.New "Error occurred in fetching diff from GitHub")
      | None => inr diffExists
      end in
    match caught with
    | inl e => Ret (Some e)
    | inr diffExists =>
        let launch subModule :=
          {| g_payload := payload; g_subModule := subModule;
             g_tasConfig := tasConfig; g_secretMap := secretMap;
             g_diff := diff; g_diffExists := diffExists |} in
        _ <- (if bool_decide (payloadEventType payload = EventPush) then
                forRange (SubModules (PostMerge tasConfig)) (λ subModule,
                  _ <- call_ (WgAdd 1) ;;
                  call_ (Go (launch subModule)))
              else
                _ <- forRange (SubModules (PreMerge tasConfig)) (λ subModule,
                       _ <- call_ (WgAdd 1) ;;
                       call_ (Go (launch subModule))) ;;
                call_ WgWait) ;;
        err <- call_ CacheWorkspace ;;
        if err is Some _ then Ret (Some generic) else
        err <- call_ (Upload cacheKey (Paths (v2_Cache tasConfig))) ;;
        if err is Some _ then Ret (Some generic) else
        err <- call_ (Upload cacheKey (Paths (v2_Cache tasConfig))) ;;
        if err is Some _ then Ret (Some generic) else
        Ret None
    end
  else Ret None.

(** *** Start

    [Start] is embedded in three parts: the statements before the [defer]
    statement, the statements after it, and the deferred function.  The
    process of [Start], further down, puts them together the way Go runs a
    function with a deferred call, beside the goroutines the function
    launches. *)

Definition withTaskType (ty : TaskType) (payload : Payload) : Payload :=
  {| TaskID := TaskID payload; BuildID := BuildID payload;
     RepoSlug := RepoSlug payload; RepoLink := RepoLink payload;
     OrgID := OrgID payload; RepoID := RepoID payload;
     GitProvider := GitProvider payload;
     BuildTargetCommit := BuildTargetCommit payload;
     BranchName := BranchName payload; TasFileName := TasFileName payload;
     LicenseTier := LicenseTier payload;
     payloadEventType := payloadEventType payload;
     CollectCoverage := CollectCoverage payload;
     payloadTaskType := Some ty |}.

(** Lines 42-97: up to the [defer] statement. *)
Definition Start_prologue (cfg : NucleusConfig) : prog Payload :=
  startTime <- call_ TimeNow ;;
  '(payload, err) <- call_ (FetchPayload (PayloadAddress cfg)) ;;
  if err is Some _
  then noreturn (Fatalf "error while fetching payload") eq_refl else
  err <- call_ (ValidatePayload payload) ;;
  if err is Some _
  then noreturn (Fatalf "error while validating payload") eq_refl else
  if CoverageMode cfg then
    err <- call_ (MergeAndUpload payload) ;;
    if err is Some _
    then noreturn (Fatalf "error while merge and upload coverage files")
           eq_refl
    else noreturn (OsExit 0) eq_refl
  else
  let type :=
    if DiscoverMode cfg then DiscoveryTask
    else if FlakyMode cfg then FlakyTask
    else ExecutionTask in
  _ <- call_ (NewTaskPayload
                {| tp_TaskID := TaskID payload; tp_BuildID := BuildID payload;
                   tp_RepoSlug := RepoSlug payload;
                   tp_RepoLink := RepoLink payload;
                   tp_OrgID := OrgID payload; tp_RepoID := RepoID payload;
                   tp_GitProvider := GitProvider payload;
                   tp_Type := type; tp_Status := Running;
                   tp_Remark := EmptyString;
                   tp_StartTime := startTime; tp_EndTime := 0 |}) ;;
  let payload := withTaskType type payload in
  taskPayload <- call_ GetTaskPayload ;;
  err <- call_ (UpdateStatus taskPayload) ;;
  if err is Some _
  then noreturn (Fatalf "failed to update task status") eq_refl else
  Ret payload.

(** Lines 124-190: what runs under the deferred function. *)
Definition Start_body (cfg : NucleusConfig) (payload : Payload)
    : prog (option error) :=
  '(oauth, err) <- call_ (GetOauthSecret (OauthSecretPath G)) ;;
  if err is Some e then Ret (Some e) else
  '(secretMap, err) <- call_ (GetRepoSecret (RepoSecretPath G)) ;;
  if err is Some _ then Ret (Some generic) else
  left <- (if DiscoverMode cfg then
    err <- call_ (Clone payload oauth) ;;
    if err is Some _
    then Ret (Some (errs.StatusFailed
                      ("Unable to clone repo: " +:+ RepoLink payload)))
    else Ret None
  else
    err <- call_ ExtractWorkspace ;;
    if err is Some _ then Ret (Some generic) else Ret None) ;;
  if left is Some e then Ret (Some e) else
  let coverageDir :=
    filepath_Join G [CodeCoverageDir G; OrgID payload; RepoID payload;
                     BuildTargetCommit payload] in
  left <- (if CollectCoverage payload then
    err <- call_ (CreateIfNotExists coverageDir) ;;
    if err is Some _ then Ret (Some generic) else Ret None
  else Ret None) ;;
  if left is Some e then Ret (Some e) else
  '(version, err) <- call_ (GetVersion (TasFileName payload)) ;;
  if err is Some e then Ret (Some (errs.StatusFailed (errs.Error G e))) else
  _ <- call_ (Setenv "TASK_ID" (TaskID payload)) ;;
  _ <- call_ (Setenv "ORG_ID" (OrgID payload)) ;;
  _ <- call_ (Setenv "BUILD_ID" (BuildID payload)) ;;
  _ <- call_ (Setenv "COMMIT_ID" (BuildTargetCommit payload)) ;;
  _ <- call_ (Setenv "REPO_ID" (RepoID payload)) ;;
  _ <- call_ (Setenv "CODE_COVERAGE_DIR" coverageDir) ;;
  _ <- call_ (Setenv "BRANCH_NAME" (BranchName payload)) ;;
  _ <- call_ (Setenv "ENV" (Env cfg)) ;;
  _ <- call_ (Setenv "ENDPOINT_POST_TEST_LIST"
                "http://localhost:9876/test-list") ;;
  _ <- call_ (Setenv "ENDPOINT_POST_TEST_RESULTS"
                "http://localhost:9876/results") ;;
  _ <- call_ (Setenv "REPO_ROOT" (RepoDir G)) ;;
  _ <- call_ (Setenv "BLOCK_TESTS_FILE" (BlockTestFileLocation G)) ;;
  if bool_decide (version >= 2) then
    runNewVersion cfg payload oauth coverageDir secretMap
  else
  _ <- call_ (Setenv "MODULE_PATH" EmptyString) ;;
  runOldVersion cfg payload oauth coverageDir secretMap.

(** Lines 100-122: the deferred function.  [p] is what [recover()]
    returns ([None] is nil) and [err] the named result of [Start] when
    the deferred function starts. *)
Definition Start_deferred (p : option string) (err : option error)
    : prog (option error) :=
  now <- call_ TimeNow ;;
  _ <- call_ (SetEndTime now) ;;
  _ <- (if p is Some _ then
          _ <- call_ (Errorf "panic stack trace") ;;
          _ <- call_ (SetStatus Error) ;;
          call_ (SetRemark (GenericErrRemark G))
        else if err is Some e then
          if errs.Is e errs.Canceled then
            _ <- call_ (SetStatus Aborted) ;;
            call_ (SetRemark "Task aborted")
          else
            _ <- (if errs.isStatusFailed e
                  then call_ (SetStatus Failed)
                  else call_ (SetStatus Error)) ;;
            call_ (SetRemark (errs.Error G e))
        else Ret tt) ;;
  taskPayload <- call_ GetTaskPayload ;;
  err <- call_ (UpdateStatus taskPayload) ;;
  if err is Some _
  then noreturn (Fatalf "failed to update task status") eq_refl else
  Ret err.

End Programs.

(** [findTaskPayloadStatus], lines 193-203.  [er_Results] holds, for each
    result, the [Status] of the entries of its [TestPayload], the one
    field the function reads. *)
Fixpoint anyFailed (testPayload : list string) : bool :=
  match testPayload with
  | [] => false
  | testResult :: testPayload =>
      if bool_decide (testResult = "failed") then true
      else anyFailed testPayload
  end.

Fixpoint statusOfResults (results : list (list string)) : Status :=
  match results with
  | [] => Passed
  | result :: results =>
      if anyFailed result then Failed else statusOfResults results
  end.

Definition findTaskPayloadStatus (executionResults : ExecutionResults)
    : Status :=
  statusOfResults (er_Results executionResults).

(** ** Package gitmanager and [sendStats]

    The code that clones the repository and the code that sends the
    reports talk to the network and the file system themselves.  They are
    programs over these operations; a program may also end in a run-time
    panic of its own (an index or a slice out of range). *)
Module sys.

(** Constants and functions declared outside the embedded files; they are
    taken as parameters. *)
Record Lib := {
  Bitbucket : string;                               (* core.Bitbucket *)
  GitLab : string;                                  (* core.GitLab *)
  Basic : string;                                   (* core.Basic *)
  ErrAPIStatus : error;                             (* errs.ErrAPIStatus *)
  strings_Replace : string → string → string → string;
                                     (* strings.Replace(s, old, new, -1) *)
  filepath_Dir : string → string;                   (* filepath.Dir *)
  urlT : Type;                                      (* *url.URL *)
  url_Parse : string → urlT * option error;         (* url.Parse *)
  url_String : urlT → string → string → string;
                (* u.User = url.UserPassword(name, password); u.String() *)
  base64_Decode : string → string * option error;
                                (* base64.StdEncoding.DecodeString *)
}.

Record Request := {
  req_Method : string;
  req_URL : string;
  req_Body : string;
  req_Header : list (string * string);
}.

Record Response := { StatusCode : Z }.

Inductive op : Type :=
| GetCloneURL (gitProvider repoLink repoName commitID forkSlug
    repoSlug : string)                              (* urlmanager *)
| NewRequest (method url body : string)
| HttpDo (req : Request)                            (* httpClient.Do(req) *)
| BodyClose                                         (* resp.Body.Close() *)
| OsCreate (path : string)
| IoCopy (path : string)                     (* io.Copy(out, resp.Body) *)
| FileClose (path : string)                         (* out.Close() *)
| Unarchive (path dir : string)
| OsRename (oldpath newpath : string)
| InitGitCommands (commands : list string) (dir : string)
    (* execManager.ExecuteInternalCommands(ctx, core.InitGit, ...) *)
| JsonMarshal (payload : ExecutionResults).

Definition ret (o : op) : Type :=
  match o with
  | GetCloneURL _ _ _ _ _ _ => string * option error
  | HttpDo _ => Response * option error
  | JsonMarshal _ => string * option error
  | BodyClose | FileClose _ => unit
  | NewRequest _ _ _ | OsCreate _ | IoCopy _ | Unarchive _ _ | OsRename _ _
  | InitGitCommands _ _ => option error
  end.

(** A run-time panic of Go: [a[i]] with [i] out of range, and [s[:hi]]
    with [hi] beyond the length. *)
Inductive panic :=
| IndexOutOfRange (i : Z) (len : nat)
| SliceOutOfRange (hi len : nat).

Inductive prog (A : Type) : Type :=
| Ret (a : A)
| Panic (p : panic)
| Do (o : op) (k : ret o → prog A).
Arguments Ret {A} a.
Arguments Panic {A} p.
Arguments Do {A} o k.

Fixpoint bind {A B} (p : prog A) (f : A → prog B) : prog B :=
  match p with
  | Ret a => f a
  | Panic q => Panic q
  | Do o k => Do o (λ r, bind (k r) f)
  end.

Global Instance prog_ret : MRet prog := @Ret.
Global Instance prog_bind : MBind prog := λ A B f p, bind p f.

Definition call (o : op) : prog (ret o) := Do o Ret.

(** [defer d] at the head of [p]: [d] runs when [p] returns and when it
    panics. *)
Fixpoint deferring {A} (d : prog unit) (p : prog A) : prog A :=
  match p with
  | Ret a => bind d (λ _, Ret a)
  | Panic q => bind d (λ _, Panic q)
  | Do o k => Do o (λ r, deferring d (k r))
  end.

(** [l[i]]. *)
Definition index (l : list string) (i : Z) : prog string :=
  if bool_decide (0 ≤ i < Z.of_nat (length l))
  then Ret (default EmptyString (l !! Z.to_nat i))
  else Panic (IndexOutOfRange i (length l)).

(** [s[:hi]], on the bytes of [s]. *)
Definition sliceTo (s : string) (hi : nat) : prog string :=
  if bool_decide (hi ≤ String.length s)%nat
  then Ret (String.substring 0 hi s)
  else Panic (SliceOutOfRange hi (String.length s)).

(** [strings.Split(s, sep)] for a separator of one byte. *)
Fixpoint Split (s : string) (sep : Ascii.ascii) : list string :=
  match s with
  | EmptyString => [EmptyString]
  | String c s =>
      if bool_decide (c = sep) then EmptyString :: Split s sep
      else match Split s sep with
           | x :: xs => String c x :: xs
           | [] => [String c EmptyString]
           end
  end.

(** [filepath.Ext]: the loop goes down from the last byte, stops at a
    path separator and returns the suffix that starts at the first dot it
    meets. *)
Fixpoint extFrom (rev : list Ascii.ascii) (suffix : string) : string :=
  match rev with
  | [] => EmptyString
  | c :: rev =>
      if bool_decide (c = "/"%char) then EmptyString
      else if bool_decide (c = "."%char) then String c suffix
      else extFrom rev (String c suffix)
  end.

Definition Ext (path : string) : string :=
  extFrom (reverse (String.list_ascii_of_string path)) EmptyString.

(** What a program did: the operations with what they handed back, and how
    it ended. *)
Inductive obs := Obs (o : op) (r : ret o).

Inductive ending (A : Type) :=
| Returns (a : A)
| Panics (p : panic).
Arguments Returns {A} a.
Arguments Panics {A} p.

Fixpoint ends {A} (p : prog A) (π : list obs) (e : ending A) : Prop :=
  match p with
  | Ret a => π = [] ∧ e = Returns a
  | Panic q => π = [] ∧ e = Panics q
  | Do o k => ∃ r π', π = Obs o r :: π' ∧ ends (k r) π' e
  end.

Section Code.
Context (G : Globals) (L : Lib).

(** *** gitmanager/setup.go *)

Definition getUnzippedFileName (gitProvider orgName repoName forkSlug
    commitID : string) : prog string :=
  if bool_decide (gitProvider ≠ Bitbucket L)
  then Ret (repoName +:+ "-" +:+ commitID) else
  if bool_decide (forkSlug ≠ EmptyString) then
    let forkItems := Split forkSlug "/" in
    forkOrg ← index forkItems 0;
    forkRepo ← index forkItems 1;
    short ← sliceTo commitID 12;
    Ret (forkOrg +:+ "-" +:+ forkRepo +:+ "-" +:+ short)
  else
  short ← sliceTo commitID 12;
  Ret (orgName +:+ "-" +:+ repoName +:+ "-" +:+ short).

Definition copyAndExtractFile (path : string) : prog (option error) :=
  err ← call (OsCreate path);
  if err is Some e then Ret (Some e) else
  err ← call (IoCopy path);
  if err is Some e then
    _ ← call (FileClose path);
    Ret (Some e)
  else
  _ ← call (FileClose path);
  if bool_decide (Ext path = ".zip") then
    err' ← call (Unarchive path (filepath_Dir L path));
    if err' is Some e then Ret (Some e) else Ret err
  else Ret err.

Definition downloadFile (archiveURL fileName : string) (oauth : Oauth)
    : prog (option error) :=
  err ← call (NewRequest "GET" archiveURL EmptyString);
  if err is Some e then Ret (Some e) else
  let header :=
    if bool_decide (AccessToken oauth ≠ EmptyString)
    then [("Authorization", OauthType oauth +:+ " " +:+ AccessToken oauth)]
    else [] in
  '(resp, err) ← call (HttpDo {| req_Method := "GET"; req_URL := archiveURL;
                                 req_Body := EmptyString;
                                 req_Header := header |});
  if err is Some e then Ret (Some e) else
  deferring (call BodyClose)
    (if bool_decide (StatusCode resp ≠ 200)
     then Ret (Some (ErrAPIStatus L)) else
     err ← copyAndExtractFile fileName;
     if err is Some e then Ret (Some e) else
     Ret None).

Definition initGit (payload : Payload) (forkSlug : string) (oauth : Oauth)
    : prog (option error) :=
  let branch := BranchName payload in
  let repoLink := RepoLink payload in
  let repoLink :=
    if bool_decide (GitProvider payload = Bitbucket L) &&
       bool_decide (forkSlug ≠ EmptyString)
    then strings_Replace L repoLink (RepoSlug payload) forkSlug
    else repoLink in
  let '(repoURL, perr) := url_Parse L repoLink in
  if perr is Some e then Ret (Some e) else
  user ← (if bool_decide (OauthType oauth = Basic L) then
    let '(decodedToken, err) := base64_Decode L (AccessToken oauth) in
    if err is Some e then Ret (inl e) else
    let creds := Split decodedToken ":" in
    name ← index creds 0;
    password ← index creds 1;
    Ret (inr (name, password))
  else
    Ret (inr (if bool_decide (GitProvider payload = GitLab L)
              then ("oauth2", AccessToken oauth)
              else ("x-token-auth", AccessToken oauth))));
  match user with
  | inl e => Ret (Some e)
  | inr (name, password) =>
      let urlWithToken := url_String L repoURL name password in
      let commands :=
        [ "git init";
          "git remote add origin " +:+ repoLink +:+ ".git";
          "git config --global url." +:+ urlWithToken +:+ ".InsteadOf "
            +:+ repoLink;
          "git fetch --depth=1 origin +" +:+ BuildTargetCommit payload
            +:+ ":refs/remotes/origin/" +:+ branch;
          "git config --global --remove-section url." +:+ urlWithToken;
          "git checkout --progress --force -B " +:+ branch
            +:+ " refs/remotes/origin/" +:+ branch ] in
      err ← call (InitGitCommands commands (RepoDir G));
      if err is Some e then Ret (Some e) else
      Ret None
  end.

(** [payload.ForkSlug] is a field of the payload as this package has it;
    it is passed beside the payload. *)
Definition Clone (payload : Payload) (forkSlug : string) (oauth : Oauth)
    : prog (option error) :=
  let repoLink := RepoLink payload in
  let repoItems := Split repoLink "/" in
  repoName ← index repoItems (Z.of_nat (length repoItems) - 1);
  orgName ← index repoItems (Z.of_nat (length repoItems) - 2);
  let commitID := BuildTargetCommit payload in
  '(archiveURL, err) ← call (GetCloneURL (GitProvider payload) repoLink
                               repoName commitID forkSlug (RepoSlug payload));
  if err is Some e then Ret (Some e) else
  err ← downloadFile archiveURL (commitID +:+ ".zip") oauth;
  if err is Some e then Ret (Some e) else
  filename ← getUnzippedFileName (GitProvider payload) orgName repoName
               forkSlug commitID;
  err ← call (OsRename filename (RepoDir G));
  if err is Some e then Ret (Some e) else
  err ← initGit payload forkSlug oauth;
  if err is Some e then Ret (Some e) else
  Ret None.

(** *** [sendStats] (package core, lines 205-233) *)

Definition sendStats (payload : ExecutionResults) : prog (option error) :=
  let endpointNeuronReport := NeuronHost G +:+ "/report" in
  '(reqBody, err) ← call (JsonMarshal payload);
  if err is Some e then Ret (Some e) else
  err ← call (NewRequest "POST" endpointNeuronReport reqBody);
  if err is Some e then Ret (Some e) else
  '(resp, err) ← call (HttpDo {| req_Method := "POST";
                                 req_URL := endpointNeuronReport;
                                 req_Body := reqBody; req_Header := [] |});
  if err is Some e then Ret (Some e) else
  deferring (call BodyClose)
    (if bool_decide (StatusCode resp ≠ 200)
     then Ret (Some (errs.New "non 200 status"))
     else Ret None).

End Code.

End sys.

(** ** Behaviours of a program and monitors

    A behaviour of a program is a sequence of calls with their replies that
    the program makes from its start, whatever the collaborators answer;
    the last call may be one that did not return.  A monitor is an
    automaton that reads a behaviour call by call. *)

Inductive obs := Obs (c : call) (r : option (reply c)).

Definition obs_call (o : obs) : call := let 'Obs c _ := o in c.

Definition tagged (tid : nat) (o : obs) : event :=
  let 'Obs c r := o in Event tid c r.

Definition untagged (e : event) : obs := Obs (ev_call e) (ev_reply e).

Fixpoint behaves {A} (p : prog A) (π : list obs) : Prop :=
  match p with
  | Ret _ => π = []
  | Do c k =>
      π = [] ∨ π = [Obs c None] ∨
      ∃ r π', π = Obs c (Some r) :: π' ∧ behaves (k r) π'
  end.

(** A behaviour at whose end the program returns [a]. *)
Fixpoint finishes {A} (p : prog A) (π : list obs) (a : A) : Prop :=
  match p with
  | Ret a' => π = [] ∧ a = a'
  | Do c k => ∃ r π', π = Obs c (Some r) :: π' ∧ finishes (k r) π' a
  end.

Record monitor (S : Type) := Monitor {
  allowed : S → call → Prop;
  next : S → ∀ c : call, reply c → S;
}.
Arguments Monitor {S} allowed next.
Arguments allowed {S} m s c.
Arguments next {S} m s c r.

(** Every call the program makes is allowed in the monitor's state at that
    point, and when the program returns [a] in state [s'], [Q s' a]. *)
Fixpoint wp {S A} (M : monitor S) (s : S) (p : prog A) (Q : S → A → Prop)
    : Prop :=
  match p with
  | Ret a => Q s a
  | Do c k => allowed M s c ∧ ∀ r, wp M (next M s c r) (k r) Q
  end.

Fixpoint accepts {S} (M : monitor S) (s : S) (π : list obs) : Prop :=
  match π with
  | [] => True
  | Obs c r :: π =>
      allowed M s c ∧
      match r with Some r => accepts M (next M s c r) π | None => π = [] end
  end.

Fixpoint after {S} (M : monitor S) (s : S) (π : list obs) : S :=
  match π with
  | [] => s
  | Obs c (Some r) :: π => after M (next M s c r) π
  | Obs c None :: _ => s
  end.

(** The calls [run] makes, with their replies. *)
Fixpoint observe {A} (W : World) (tid : nat) (p : prog A) (s : state)
    : list obs :=
  match p with
  | Ret _ => []
  | Do c k =>
      match exec W tid s c with
      | Returns r s' => Obs c (Some r) :: observe W tid (k r) s'
      | Panics _ _ | Exits _ _ => [Obs c None]
      | Blocks => []
      end
  end.



(** ** Goroutines

    A pool is the main goroutine (0), the goroutines it launched (1, 2, ...
    in the order of their [go] statements) and the memory they share.  A
    step runs one call of one goroutine.  A panic in a launched goroutine
    ends the process: nothing recovers it. *)

Inductive thread (A : Type) :=
| Live (p : prog A)
| Dead (msg : string).                        (* it panicked *)
Arguments Live {A} p.
Arguments Dead {A} msg.

Record pool := Pool {
  mainT : thread (option error);
  tasks : list (thread unit);
  mem : state;
  ended : option Z;                           (* the exit code, once ended *)
}.

Definition launchedBy (c : call) : list goroutine :=
  match c with Go g => [g] | _ => [] end.

Section Pool.
Context (G : Globals) (W : World).

(** One call of the goroutine [tid]: the thread it leaves, the memory,
    whether the process exits, and the goroutines it launches. *)
Definition advance {A} (tid : nat) (t : thread A) (s : state)
    : option (thread A * state * option Z * list goroutine) :=
  match t with
  | Live (Do c k) =>
      match exec W tid s c with
      | Returns r s' => Some (Live (k r), s', None, launchedBy c)
      | Panics msg s' => Some (Dead msg, s', None, [])
      | Exits code s' => Some (t, s', Some code, [])
      | Blocks => None
      end
  | _ => None
  end.

Definition step (tid : nat) (P : pool) : option pool :=
  if ended P is Some _ then None else
  match tid with
  | O =>
      '(t, s, e, gs) ← advance 0 (mainT P) (mem P);
      Some (Pool t (tasks P ++ ((λ g, Live (goFunc G g)) <$> gs)) s e)
  | S i =>
      t0 ← tasks P !! i;
      '(t, s, e, gs) ← advance (S i) t0 (mem P);
      Some (Pool (mainT P)
              (<[i := t]> (tasks P) ++ ((λ g, Live (goFunc G g)) <$> gs)) s
              (if t is Dead _ then Some 2 else e))
  end.

(** Running a schedule: the goroutine to step next, one after the other. *)
Fixpoint steps (sched : list nat) (P : pool) : option pool :=
  match sched with
  | [] => Some P
  | tid :: sched => P' ← step tid P; steps sched P'
  end.

Definition reachable (P0 P : pool) : Prop :=
  ∃ sched, steps sched P0 = Some P.

End Pool.

(** The pool [runNewVersion] starts in. *)
Definition coordinator (G : Globals) (cfg : NucleusConfig) (payload : Payload)
    (oauth : Oauth) (coverageDir : string) (secretMap : gmap string string)
    (s : state) : pool :=
  Pool (Live (runNewVersion G cfg payload oauth coverageDir secretMap)) [] s
       None.

(** ** The process of [Start]

    [Start] runs in the main goroutine: the statements before the [defer]
    statement, the statements after it, and the deferred function.  Go runs
    the deferred function when [Start] returns and when a statement after
    the [defer] panics in the main goroutine, and its [recover()] ends that
    panic.  The goroutines [runNewVersion] launches run beside the main
    goroutine as in a pool, also while the main goroutine waits for them in
    [wg.Wait()], and nothing recovers a panic of theirs: it ends the
    process. *)

Inductive stage :=
| BeforeDefer (p : prog Payload)            (* lines 42-97 *)
| UnderDefer (p : prog (option error))      (* lines 124-190 *)
| InDeferred (p : prog (option error))      (* lines 100-122 *)
| HasReturned (err : option error)          (* [Start] has returned [err] *)
| HasPanicked (msg : string).               (* a panic has left [Start] *)

Record process := Process {
  mainG : stage;                            (* where the main goroutine is *)
  goroutines : list (thread unit);
  memory : state;
  exitCode : option Z;                      (* once the process has ended *)
}.

Section Process.
Context (G : Globals) (W : World) (cfg : NucleusConfig).

(** One call of the main goroutine, whose program is [p]: the main
    goroutine goes on at [live], or at [dead] when the call panics. *)
Definition mainCall {A} (live : prog A → stage) (dead : string → stage)
    (p : prog A) (P : process) : option process :=
  '(t, s, e, gs) ← advance W 0 (Live p) (memory P);
  Some (Process (match t with Live p' => live p' | Dead msg => dead msg end)
          (goroutines P ++ ((λ g, Live (goFunc G g)) <$> gs)) s e).

Definition moveTo (st : stage) (P : process) : option process :=
  Some (Process st (goroutines P) (memory P) (exitCode P)).

(** One step of goroutine [tid].  The main goroutine (0) passes the [defer]
    statement, makes a call, starts the deferred function (because the
    statements under it returned, with [recover()] nil and [err] what they
    returned, or because a call of theirs panicked, with [recover()] the
    panic) or returns what the deferred function left in [err].  A panic of
    the main goroutine before the [defer] statement or inside the deferred
    function leaves [Start]. *)
Definition Start_step (tid : nat) (P : process) : option process :=
  if exitCode P is Some _ then None else
  match tid with
  | O =>
      match mainG P with
      | BeforeDefer (Ret payload) =>
          moveTo (UnderDefer (Start_body G cfg payload)) P
      | BeforeDefer p => mainCall BeforeDefer HasPanicked p P
      | UnderDefer (Ret err) =>
          moveTo (InDeferred (Start_deferred G None err)) P
      | UnderDefer p =>
          mainCall UnderDefer
            (λ msg, InDeferred (Start_deferred G (Some msg) None)) p P
      | InDeferred (Ret err) => moveTo (HasReturned err) P
      | InDeferred p => mainCall InDeferred HasPanicked p P
      | HasReturned _ | HasPanicked _ => None
      end
  | S i =>
      t0 ← goroutines P !! i;
      '(t, s, e, gs) ← advance W (S i) t0 (memory P);
      Some (Process (mainG P)
              (<[i := t]> (goroutines P) ++ ((λ g, Live (goFunc G g)) <$> gs))
              s (if t is Dead _ then Some 2 else e))
  end.

Fixpoint Start_steps (sched : list nat) (P : process) : option process :=
  match sched with
  | [] => Some P
  | tid :: sched => P' ← Start_step tid P; Start_steps sched P'
  end.

Definition Start_reaches (P0 P : process) : Prop :=
  ∃ sched, Start_steps sched P0 = Some P.

End Process.

(** The process when [Start] is called. *)
Definition Start (cfg : NucleusConfig) (s : state) : process :=
  Process (BeforeDefer (Start_prologue cfg)) [] s None.

(** ** What the properties speak of

    Observations on behaviours, traces and pools, and the monitors of the
    rendezvous, of the runner's arguments and of the WaitGroup. *)

(** [cmd.Run()] returned nil: the runner has exited, with status 0. *)
Definition runnerExitedOk (o : obs) : Prop :=
  match o with
  | Obs (CmdRun _ _ _ _) (Some None) => True
  | _ => False
  end.

Definition isRecv (o : obs) : bool :=
  match obs_call o with ChanRecv => true | _ => false end.

(** The monitor of the rendezvous: whether the runner has exited with
    status 0, and how many receives were made. *)
Definition rendezvous : monitor (bool * nat) :=
  Monitor
    (λ s c, match c with
            | ChanRecv => s.1 = true ∧ s.2 = 0%nat
            | _ => True
            end)
    (λ s c,
       match c return reply c → bool * nat with
       | CmdRun _ _ _ _ => λ r, (if r is None then true else s.1, s.2)
       | ChanRecv => λ _, (s.1, S s.2)
       | _ => λ _, s
       end).

Definition receives (π : list obs) : nat :=
  length (filter (λ o, isRecv o = true) π).


(** The loop [for k, v := range subModule.EnvMap { envMap[k] = v }]. *)
Definition storeAll (m : gmap string string) (l : list (string * string))
    : gmap string string :=
  foldl (λ m kv, <[kv.1 := kv.2]> m) m l.

(** The maps handed to [GetEnvVariables] in a piece of trace. *)
Definition envMapsPassed (evs : list event) : list gomap :=
  omap (λ e, match ev_call e with
             | GetEnvVariables envMap _ => Some envMap
             | _ => None
             end) evs.

(** The task payloads handed to [Task.UpdateStatus] in a piece of trace. *)
Definition reported (evs : list event) : list TaskPayload :=
  omap (λ e, match ev_call e with
             | UpdateStatus tp => Some tp
             | _ => None
             end) evs.

(** The status and the remark the deferred function leaves in the task
    payload [tp]: [p] is the recovered panic, [err] the error [Start] is
    returning.  [Start_deferred_reports] shows that [Start_deferred]
    computes this. *)
Definition finalStatus (G : Globals) (p : option string)
    (err : option error)
    (tp : TaskPayload) : Status * string :=
  match p, err with
  | Some _, _ => (Error, GenericErrRemark G)
  | None, Some e =>
      if errs.Is e errs.Canceled then (Aborted, "Task aborted")
      else (if errs.isStatusFailed e then Failed else Error, errs.Error G e)
  | None, None => (tp_Status tp, tp_Remark tp)
  end.

(** The [wg.Done()] calls that goroutine [tid] made and that returned. *)
Definition isDoneBy (tid : nat) (e : event) : bool :=
  bool_decide (ev_tid e = tid) &&
  match ev_call e with WgDone => true | _ => false end &&
  bool_decide (is_Some (ev_reply e)).

Definition donesBy (tid : nat) (tr : list event) : nat :=
  length (filter (λ e, isDoneBy tid e = true) tr).

(** What a launched goroutine may do: the monitor counts its [wg.Done()]
    calls and allows one; the goroutine does not touch the WaitGroup
    otherwise, launches nothing, does not write the task payload and does
    not end the process. *)
Definition taskMon : monitor nat :=
  Monitor
    (λ n c, match c with
            | WgDone => n = 0%nat
            | WgAdd _ | WgWait | Go _ | SetStatus _ | SetRemark _
            | SetEndTime _ | NewTaskPayload _ | OsExit _ | Fatalf _ => False
            | _ => True
            end)
    (λ n c _, match c with WgDone => S n | _ => n end).

(** What the main goroutine does with the WaitGroup: how many [Add]s wait
    for their [go] statement, whether [Wait] has returned, and whether a
    goroutine was launched.  With [barrier], [CacheWorkspace] and [Upload]
    are allowed after [Wait] only. *)
Record coord := Coord { pending : Z; waited : bool; launched : bool }.

Definition coordMon (barrier : bool) : monitor coord :=
  Monitor
    (λ ms c, match c with
             | WgAdd n => 0 ≤ n ∧ waited ms = false
             | Go _ => 1 ≤ pending ms
             | WgWait => pending ms = 0
             | CacheWorkspace | Upload _ _ =>
                 barrier = true → waited ms = true
             | WgDone | OsExit _ | Fatalf _ => False
             | _ => True
             end)
    (λ ms c _, match c with
               | WgAdd n => Coord (pending ms + n) (waited ms) (launched ms)
               | Go _ => Coord (pending ms - 1) (waited ms) true
               | WgWait => Coord (pending ms) true (launched ms)
               | _ => ms
               end).

(** The [Done]s the launched goroutines still owe, when goroutine [i+1]
    has made [ds !! i] of them. *)
Definition owed (ds : list nat) : Z :=
  Z.of_nat (length ds) - Z.of_nat (sum_list ds).

Section Invariant.
Context (G : Globals) (barrier : bool).

(** Once a goroutine was launched, [runNewVersion] returns nil or the
    generic error. *)
Definition returnsAfterLaunch (ms : coord) (r : option error) : Prop :=
  launched ms = true → r = None ∨ r = Some (generic G).

Definition mainOk (t : thread (option error)) (ms : coord) : Prop :=
  match t with
  | Live p => wp (coordMon barrier) ms p returnsAfterLaunch
  | Dead _ => True
  end.

Definition taskOk (t : thread unit) (d : nat) : Prop :=
  (d ≤ 1)%nat ∧
  match t with
  | Live p => wp taskMon d p (λ n _, n = 1%nat)
  | Dead _ => True
  end.

(** The invariant of the pool: [ms] is the monitor's state of the main
    goroutine and [ds !! i] the number of [Done]s of goroutine [i+1]. *)
Record wgInv (P : pool) (ms : coord) (ds : list nat) : Prop := {
  inv_main : mainOk (mainT P) ms;
  inv_tasks : Forall2 taskOk (tasks P) ds;
  inv_wg : wg (mem P) = pending ms + owed ds;
  inv_pending : 0 ≤ pending ms;
  inv_waited : waited ms = true → wg (mem P) = 0;
  inv_launched : tasks P ≠ [] → launched ms = true;
  inv_dones : ∀ i d, ds !! i = Some d → donesBy (S i) (trace (mem P)) = d;
  inv_tids :
    Forall (λ e, (ev_tid e ≤ length (tasks P))%nat) (trace (mem P));
}.

End Invariant.



Definition aboutToCacheWorkspace (P : pool) : bool :=
  match mainT P with Live (Do CacheWorkspace _) => true | _ => false end.

Definition isUpload (o : obs) : bool :=
  match obs_call o with Upload _ _ => true | _ => false end.

Definition uploadsIn (π : list obs) : nat :=
  length (filter (λ o, isUpload o = true) π).

(** The monitor counts the [Upload] calls. *)
Definition countUploads : monitor nat :=
  Monitor (λ _ _, True)
          (λ n c _, match c with Upload _ _ => S n | _ => n end).

Definition returnedNil (P : pool) : bool :=
  match mainT P with Live (Ret None) => true | _ => false end.

Definition notStarted (t : thread unit) : bool :=
  match t with Live (Do (GetBlocklistYMLV2 _) _) => true | _ => false end.

Definition statusAndRemark (tp : TaskPayload) : Status * string :=
  (tp_Status tp, tp_Remark tp).


(** A monitor that allows every call and keeps no state. *)
Definition anyCall : monitor unit := Monitor (λ _ _, True) (λ s _ _, s).

(** The errors the pipeline makes itself before it returns them. *)
Definition madeByPipeline (G : Globals) (e : error) : Prop :=
  e = generic G ∨ errs.isStatusFailed e = true ∨
  e = errs.New "Error occurred in fetching diff from GitHub".


Definition isMergeAndUploadOk (e : event) : bool :=
  match e with
  | Event _ (MergeAndUpload _) (Some None) => true
  | _ => false
  end.


(** The calls that write the task payload, report it or execute tests are
    not allowed. *)
Definition discoversOnly : monitor unit :=
  Monitor (λ _ c, match c with
                  | SetStatus _ | SetRemark _ | SetEndTime _
                  | NewTaskPayload _ | UpdateStatus _
                  | TestExecutionRun _ _ _ _ | SendResults _ => False
                  | _ => True
                  end)
          (λ s _ _, s).

Definition threadDiscoversOnly {A} (t : thread A) : Prop :=
  match t with
  | Live p => wp discoversOnly tt p (λ _ _, True)
  | Dead _ => True
  end.

(** What holds of a pool all along a v2 run that started in the state
    [s]. *)
Definition discoveringFrom (s : state) (P : pool) : Prop :=
  taskPayload (mem P) = taskPayload s ∧
  (∃ evs, trace (mem P) = trace s ++ evs ∧
          Forall (λ e, allowed discoversOnly tt (ev_call e)) evs) ∧
  threadDiscoversOnly (mainT P) ∧
  Forall threadDiscoversOnly (tasks P).


(** [Upload] is allowed once the status was set to [Passed], and once
    only: the state is whether the status was set, and the number of
    uploads. *)
Definition uploadsOncePassed : monitor (bool * nat) :=
  Monitor
    (λ s c, match c with
            | Upload _ _ => s.1 = true ∧ s.2 = 0%nat
            | _ => True
            end)
    (λ s c _, match c with
              | SetStatus Passed => (true, s.2)
              | Upload _ _ => (s.1, S s.2)
              | _ => s
              end).


(** The cache section of the config a call loaded. *)
Definition loadedCache (o : obs) : option Cache :=
  match o with
  | Obs (LoadAndValidateV1 _ _ _) (Some r) => Some (TasCache r.1)
  | Obs (LoadAndValidateV2 _ _ _) (Some r) => Some (v2_Cache r.1)
  | _ => None
  end.

(** A call to the cache store uses the key made of the payload and of
    [cache], and an upload the paths of [cache]. *)
Definition cachedUnder (payload : Payload) (cache : Cache) (c : call) : Prop :=
  match c with
  | Download key => key = cacheKeyOf payload (Key cache)
  | Upload key paths =>
      key = cacheKeyOf payload (Key cache) ∧ paths = Paths cache
  | _ => True
  end.

(** The monitor keeps the cache section of the config once it is loaded;
    the config is loaded once, and the cache store is called under it. *)
Definition cachesUnder (payload : Payload) : monitor (option Cache) :=
  Monitor
    (λ s c, match c with
            | LoadAndValidateV1 _ _ _ | LoadAndValidateV2 _ _ _ => s = None
            | Download _ | Upload _ _ =>
                ∃ cache, s = Some cache ∧ cachedUnder payload cache c
            | _ => True
            end)
    (λ s c r, match loadedCache (Obs c (Some r)) with
              | Some cache => Some cache
              | None => s
              end).


(** The submodules of the section of a v2 config that the event type of
    the payload selects. *)
Definition sectionOf (payload : Payload) (tasConfig : TASConfigV2)
    : list SubModule :=
  if bool_decide (payloadEventType payload = EventPush)
  then SubModules (PostMerge tasConfig)
  else SubModules (PreMerge tasConfig).

(** The monitor keeps the config that was loaded and the submodules for
    which a goroutine was launched, in the order of the [go] statements.
    A goroutine is launched with the payload, the loaded config and the
    secrets of the run; when the main goroutine waits or goes on to
    [CacheWorkspace], the launched submodules are the selected section. *)
Definition fansOut (payload : Payload) (secretMap : gmap string string)
    : monitor (option TASConfigV2 * list SubModule) :=
  Monitor
    (λ s c, match c with
            | Go g =>
                g_payload g = payload ∧ s.1 = Some (g_tasConfig g) ∧
                g_secretMap g = secretMap
            | WgWait | CacheWorkspace =>
                ∃ tasConfig, s.1 = Some tasConfig ∧
                             s.2 = sectionOf payload tasConfig
            | _ => True
            end)
    (λ s c,
       match c return reply c → _ with
       | LoadAndValidateV2 _ _ _ => λ r, (Some r.1, s.2)
       | Go g => λ _, (s.1, s.2 ++ [g_subModule g])
       | _ => λ _, s
       end).


(** What [TestExecutionService.Run] returned and what was handed to
    [SendResults], in a behaviour that returned. *)
Definition executed (π : list obs)
    : list (option ExecutionResults * option error) :=
  omap (λ o, match o with
             | Obs (TestExecutionRun _ _ _ _) (Some r) => Some r
             | _ => None
             end) π.

Definition sentResults (π : list obs) : list (option ExecutionResults) :=
  omap (λ o, match obs_call o with
             | SendResults er => Some er
             | _ => None
             end) π.

(** The monitor keeps what [TestExecutionService.Run] returned and what
    was sent.  Results are sent once, after the one execution, and they are
    the results it returned; they are not sent when the execution failed
    without results. *)
Definition sendsResults
    : monitor (list (option ExecutionResults * option error)
               * list (option ExecutionResults)) :=
  Monitor
    (λ s c, match c with
            | SendResults er =>
                ∃ err, s.1 = [(er, err)] ∧ ¬ (is_Some err ∧ er = None) ∧
                       s.2 = []
            | TestExecutionRun _ _ _ _ => s.1 = []
            | _ => True
            end)
    (λ s c,
       match c return reply c → _ with
       | TestExecutionRun _ _ _ _ => λ r, (s.1 ++ [r], s.2)
       | SendResults er => λ _, (s.1, s.2 ++ [er])
       | _ => λ _, s
       end).

Definition executionFailed : error :=
  errs.StatusFailed "Failed in executing tests.".

(** The directory a command runs in. *)
Definition runsIn (dir : string) : monitor unit :=
  Monitor
    (λ _ c, match c with
            | ExecuteUserCommands _ _ _ _ d
            | ExecuteInternalCommands InstallRunners _ d
            | CmdRun _ _ d _ => d = dir
            | _ => True
            end)
    (λ s _ _, s).


(** [Task.UpdateStatus] is not allowed. *)
Definition reportsNothing : monitor unit :=
  Monitor (λ _ c, match c with UpdateStatus _ => False | _ => True end)
          (λ s _ _, s).

(** The monitor keeps the result that was received and the body it was
    marshalled to.  What is marshalled is the received result after
    [decorate]; what is sent is a POST of the marshalled body to
    [endpoint], once. *)
Definition postsResult (decorate : DiscoveryResult → DiscoveryResult)
    (endpoint : string)
    : monitor (option DiscoveryResult * option string * nat) :=
  Monitor
    (λ s c, match c with
            | JsonMarshal r => ∃ received, s.1.1 = Some received ∧
                                           r = decorate received
            | MakeAPIRequest method url body =>
                method = "POST" ∧ url = endpoint ∧ s.1.2 = Some body ∧
                s.2 = 0%nat
            | _ => True
            end)
    (λ s c,
       match c return reply c → _ with
       | ChanRecv => λ r, (Some r, s.1.2, s.2)
       | JsonMarshal _ => λ r,
           (s.1.1, if r.2 is None then Some r.1 else None, s.2)
       | MakeAPIRequest _ _ _ => λ _, (s.1, S s.2)
       | _ => λ _, s
       end).


(** The characters of a string. *)
Definition chars (s : string) : list Ascii.ascii :=
  String.list_ascii_of_string s.

(** Counting in what a program did: the responses and the files it got,
    and the ones it closed. *)
Definition isResponse (o : sys.obs) : bool :=
  match o with
  | sys.Obs (sys.HttpDo _) (_, None) => true
  | _ => false
  end.

Definition isBodyClose (o : sys.obs) : bool :=
  match o with sys.Obs sys.BodyClose _ => true | _ => false end.

Definition isCreated (o : sys.obs) : bool :=
  match o with sys.Obs (sys.OsCreate _) None => true | _ => false end.

Definition isFileClose (o : sys.obs) : bool :=
  match o with sys.Obs (sys.FileClose _) _ => true | _ => false end.

Definition isStatusOK (o : sys.obs) : bool :=
  match o with
  | sys.Obs (sys.HttpDo _) (resp, None) =>
      bool_decide (sys.StatusCode resp = 200)
  | _ => false
  end.

Definition countOf (f : sys.obs → bool) (π : list sys.obs) : nat :=
  length (filter (λ o, f o = true) π).

(** The monitor keeps the environment [GetEnvVariables] returned, if it
    returned one without an error.  The runner is started with [binary]
    and with that environment. *)
Definition startsRunner (binary : string) : monitor (option (list string)) :=
  Monitor
    (λ s c, match c with
            | CmdRun b _ _ env => b = binary ∧ s = Some env
            | _ => True
            end)
    (λ s c,
       match c return reply c → _ with
       | GetEnvVariables _ _ => λ r, if r.2 is None then Some r.1 else None
       | _ => λ _, s
       end).

(** The monitor counts the [Task.UpdateStatus] calls. *)
Definition countReports : monitor nat :=
  Monitor (λ _ _, True)
          (λ n c _, match c with UpdateStatus _ => S n | _ => n end).

(** Since the state [s], the task payloads reported in [s'] are one with
    the status [Running] and no remark, and then [rest]. *)
Definition reportedSince (s s' : state) (rest : list TaskPayload) : Prop :=
  ∃ first, reported (trace s') = reported (trace s) ++ first :: rest ∧
           tp_Status first = Running ∧ tp_Remark first = EmptyString.

(** No goroutine is launched. *)
Definition launchesNothing : monitor unit :=
  Monitor (λ _ c, match c with Go _ => False | _ => True end) (λ s _ _, s).

(** What holds of the process of [Start] all along, about the reports of
    the task: none by a launched goroutine, one before the [defer]
    statement, none under the deferred function, and one by it.  Before the
    [defer] statement the main goroutine is alone, and what it does is what
    [run] does. *)
Definition reportingFrom (W : World) (cfg : NucleusConfig) (s : state)
    (P : process) : Prop :=
  Forall threadDiscoversOnly (goroutines P) ∧
  match mainG P with
  | BeforeDefer p =>
      goroutines P = [] ∧ wp launchesNothing tt p (λ _ _, True) ∧
      (exitCode P = None →
       run W 0 p (memory P) = run W 0 (Start_prologue cfg) s)
  | UnderDefer p =>
      reportedSince s (memory P) [] ∧ wp reportsNothing tt p (λ _ _, True)
  | InDeferred p =>
      ∃ rest, reportedSince s (memory P) rest ∧
              wp countReports (length rest) p (λ n _, n = 1%nat)
  | HasReturned _ => ∃ last, reportedSince s (memory P) [last]
  | HasPanicked _ => True
  end.

(** When [Start] has returned, it has returned nil. *)
Definition returningNil (P : process) : Prop :=
  match mainG P with
  | InDeferred p => wp anyCall tt p (λ _ r, r = None)
  | HasReturned r => r = None
  | _ => True
  end.

(** Coverage mode.  The state is whether [MergeAndUpload] has returned
    nil: [os.Exit(0)] is allowed after that only and [Fatalf] before that
    only.  The task payload is not made, written or reported, and no
    goroutine is launched. *)
Definition mergesOnly : monitor bool :=
  Monitor
    (λ st c, match c with
             | OsExit code => code = 0 ∧ st = true
             | Fatalf _ => st = false
             | NewTaskPayload _ | SetStatus _ | SetRemark _ | SetEndTime _
             | UpdateStatus _ | Go _ => False
             | _ => True
             end)
    (λ st c,
       match c return reply c → bool with
       | MergeAndUpload _ => λ r, st || (if r is None then true else false)
       | _ => λ _, st
       end).

(** What holds of the process of [Start] all along in coverage mode. *)
Definition mergingFrom (s : state) (P : process) : Prop :=
  goroutines P = [] ∧ taskPayload (memory P) = taskPayload s ∧
  ∃ evs, trace (memory P) = trace s ++ evs ∧ reported evs = [] ∧
    match mainG P with
    | BeforeDefer p =>
        match exitCode P with
        | None =>
            wp mergesOnly (existsb isMergeAndUploadOk evs) p (λ _ _, False)
        | Some code =>
            code = if existsb isMergeAndUploadOk evs then 0 else 1
        end
    | HasPanicked _ => exitCode P = None
    | _ => False
    end.

(** Past the [defer] statement the task payload is there. *)
Definition payloadSet (P : process) : Prop :=
  match mainG P with
  | BeforeDefer _ | HasPanicked _ => True
  | _ => is_Some (taskPayload (memory P))
  end.

(** The deferred function after a panic.  The monitor keeps whether the
    status and the remark were set, the task payload that was read, and the
    task payloads that were reported: the status is set to [Error] and the
    remark to the generic one, the task payload is read after both, and what
    is reported is the payload that was read, once. *)
Record recovery := Recovery {
  statusSet : bool;
  remarkSet : bool;
  got : option TaskPayload;
  sent : list TaskPayload;
}.

Definition recovers (G : Globals) : monitor recovery :=
  Monitor
    (λ ms c, match c with
             | SetStatus st => st = Error
             | SetRemark r => r = GenericErrRemark G
             | GetTaskPayload => statusSet ms = true ∧ remarkSet ms = true
             | UpdateStatus t => got ms = Some t ∧ sent ms = []
             | TimeNow | SetEndTime _ | Errorf _ | Fatalf _ => True
             | _ => False
             end)
    (λ ms c,
       match c return reply c → recovery with
       | SetStatus _ => λ _,
           Recovery true (remarkSet ms) (got ms) (sent ms)
       | SetRemark _ => λ _,
           Recovery (statusSet ms) true (got ms) (sent ms)
       | GetTaskPayload => λ r,
           Recovery (statusSet ms) (remarkSet ms) (Some r) (sent ms)
       | UpdateStatus t => λ _,
           Recovery (statusSet ms) (remarkSet ms) (got ms) (sent ms ++ [t])
       | _ => λ _, ms
       end).

(** A task payload with the status [Error] and the generic remark. *)
Definition isErrorReport (G : Globals) (t : TaskPayload) : Prop :=
  tp_Status t = Error ∧ tp_Remark t = GenericErrRemark G.

(** What holds of the process from the memory [m] in which the deferred
    function started after a panic. *)
Definition recoveringFrom (G : Globals) (W : World) (m : state)
    (P : process) : Prop :=
  Forall threadDiscoversOnly (goroutines P) ∧
  ∃ ms tp,
    taskPayload (memory P) = Some tp ∧
    (statusSet ms = true → tp_Status tp = Error) ∧
    (remarkSet ms = true → tp_Remark tp = GenericErrRemark G) ∧
    (∀ t, got ms = Some t → isErrorReport G t) ∧
    Forall (isErrorReport G) (sent ms) ∧
    (∃ evs, trace (memory P) = trace m ++ evs ∧ reported evs = sent ms) ∧
    match mainG P with
    | InDeferred p =>
        wp (recovers G) ms p (λ ms' r, r = None ∧ ∃ t, sent ms' = [t])
    | HasReturned r => r = None ∧ ∃ t, sent ms = [t]
    | HasPanicked msg =>
        (∃ h, W h TimeNow = PanicsWith msg) ∨
        (∃ h t, W h (UpdateStatus t) = PanicsWith msg)
    | _ => False
    end.

(** The panic of the call the main goroutine is about to make under the
    deferred function, if that call panics. *)
Definition panicsUnderDefer (W : World) (P : process) : option string :=
  match mainG P with
  | UnderDefer (Do c _) =>
      match exec W 0 (memory P) c with
      | Panics msg _ => Some msg
      | _ => None
      end
  | _ => None
  end.






(** ** Concrete runs

    A repository with one v1 module and, for schema v2, one post-merge and
    two pre-merge submodules, and collaborators that do what [knobs] says. *)

Module Scenario.

Definition G : Globals :=
  {| GenericErrRemark := "Unexpected error";
     ErrGitDiffNotFoundMsg := "git diff not found";
     FileRemoved := 2;
     RepoDir := "/tmp/repo";
     OauthSecretPath := "/vault/secrets/oauth";
     RepoSecretPath := "/vault/secrets/reposecrets";
     CodeCoverageDir := "/tmp/coverage";
     BlockTestFileLocation := "/tmp/blocktests.json";
     InstallRunnerCmds := ["tar -xzf /custom-runners/custom-runners.tgz"];
     NeuronHost := "http://neuron";
     FrameworkRunnerMap := {[ "jest" := "./node_modules/.bin/jest-runner" ]};
     path_Join := λ a b, a +:+ "/" +:+ b;
     filepath_Join := λ l, String.concat "/" l |}.

Definition payload (ev : EventType) : Payload :=
  {| TaskID := "task-1"; BuildID := "build-1"; RepoSlug := "org/repo";
     RepoLink := "https://github.com/org/repo"; OrgID := "org-1";
     RepoID := "repo-1"; GitProvider := "github";
     BuildTargetCommit := "c0ffee"; BranchName := "main";
     TasFileName := ".tas.yml"; LicenseTier := "small";
     payloadEventType := ev; CollectCoverage := false;
     payloadTaskType := None |}.

Definition cfg : NucleusConfig :=
  {| PayloadAddress := "http://payload"; CoverageMode := false;
     DiscoverMode := true; ExecuteMode := false; FlakyMode := false;
     Env := "prod" |}.

Definition tasConfig : TASConfig :=
  {| SmartRun := true; Framework := "jest"; ConfigFile := EmptyString;
     NodeVersion := EmptyString;
     Premerge := {| Patterns := ["**/*.test.ts"]; EnvMap := None |};
     Postmerge := {| Patterns := ["**/*.test.ts"]; EnvMap := None |};
     Prerun := None; Postrun := None; Parallelism := 2;
     SplitMode := "test"; ContainerImage := "node:16"; Tier := "small";
     TasCache := {| Key := "yarn.lock"; Paths := ["node_modules"] |} |}.

Definition web : SubModule :=
  {| sm_Name := "web"; sm_Path := "packages/web";
     sm_Patterns := ["src/**/*.spec.ts"]; sm_Framework := "jest";
     sm_ConfigFile := EmptyString;
     sm_EnvMap := {[ "NODE_ENV" := "test" ]};
     sm_Prerun := None; sm_Parallelism := 1 |}.

Definition api : SubModule :=
  {| sm_Name := "api"; sm_Path := "packages/api";
     sm_Patterns := ["test/**/*.ts"]; sm_Framework := "jest";
     sm_ConfigFile := EmptyString; sm_EnvMap := ∅;
     sm_Prerun := None; sm_Parallelism := 1 |}.

Definition tasConfigV2 : TASConfigV2 :=
  {| v2_SmartRun := true;
     PreMerge := {| SubModules := [web; api]; v2_EnvMap := Some ∅ |};
     PostMerge := {| SubModules := [web]; v2_EnvMap := Some ∅ |};
     v2_SplitMode := "test"; v2_ContainerImage := "node:16";
     v2_Tier := "small";
     v2_Cache := {| Key := "yarn.lock"; Paths := ["node_modules"] |} |}.

Definition oauth : Oauth := {| AccessToken := "token"; OauthType := "Bearer" |}.

Definition found : DiscoveryResult :=
  {| dr_Body := "tests"; dr_Parallelism := 0; dr_SplitMode := EmptyString;
     dr_ContainerImage := EmptyString; dr_Tier := EmptyString;
     dr_SubModule := EmptyString |}.

Record knobs := {
  event : EventType;
  version : Z;
  oauthErr : option error;                (* of GetOauthSecret *)
  repoSecretErr : option error;           (* of GetRepoSecret *)
  cloneAnswer : answer (option error);    (* of GitManager.Clone *)
  changedFiles : gmap string Z * option error;
  runnerErr : string → option error;      (* of cmd.Run(), by directory *)
}.

Definition world (k : knobs) : World :=
  λ _ c,
    match c return answer (reply c) with
    | FetchPayload _ => Answers (payload (event k), None)
    | GetOauthSecret _ => Answers (oauth, oauthErr k)
    | GetRepoSecret _ => Answers (∅, repoSecretErr k)
    | Clone _ _ => cloneAnswer k
    | GetVersion _ => Answers (version k, None)
    | LoadAndValidateV1 _ _ _ => Answers (tasConfig, None)
    | LoadAndValidateV2 _ _ _ => Answers (tasConfigV2, None)
    | GetBlocklistYMLV1 _ | GetBlocklistYMLV2 _ => Answers []
    | GetChangedFiles _ _ => Answers (changedFiles k)
    | TestExecutionRun _ _ _ _ => Answers (Some {| er_Results := [] |}, None)
    | SendResults _ => Answers (Passed, None)
    | GetConfigFileName f => Answers (f, None)
    | GetEnvVariables _ _ => Answers ([], None)
    | CmdRun _ _ dir _ => Answers (runnerErr k dir)
    | ChanRecv => Answers found
    | JsonMarshal _ => Answers ("{}", None)
    | RangeDiff d => Answers (exist _ (map_to_list d) (Permutation_refl _))
    | TimeNow => Answers 0
    | Getenv _ => Answers EmptyString
    | OsExit _ | Fatalf _ => Hangs
    | GetTaskPayload => Hangs
    | EnvMapLoad _ => Answers None
    | Setenv _ _ | Errorf _ | NewTaskPayload _ | SetStatus _ | SetRemark _
    | SetEndTime _ | EnvMapStore _ _ _ | WgAdd _ | WgDone | WgWait | Go _ =>
        Answers tt
    | ValidatePayload _ | MergeAndUpload _ | ExtractWorkspace
    | CreateIfNotExists _ | GetBlockTests _ _ _ | Download _ | Upload _ _
    | CacheWorkspace | ExecuteUserCommands _ _ _ _ _
    | ExecuteInternalCommands _ _ _ | UpdateStatus _
    | MakeAPIRequest _ _ _ => Answers None
    end.

(** Everything succeeds; the diff holds one modified file. *)
Definition happy (ev : EventType) (v : Z) : knobs :=
  {| event := ev; version := v; oauthErr := None; repoSecretErr := None;
     cloneAnswer := Answers None;
     changedFiles := ({[ "src/foo.ts" := 3 ]}, None);
     runnerErr := λ _, None |}.

(** The calls of a trace, without their replies. *)
Definition calls (s : state) : list call := ev_call <$> trace s.

End Scenario.

(** The calls the main goroutine makes in a v2 discovery run for a push
    event with one post-merge submodule, when every collaborator succeeds. *)
Definition pushRunOfMain : list obs :=
  let payload := Scenario.payload EventPush in
  let key := "org-1/repo-1/yarn.lock" in
  [ Obs (LoadAndValidateV2 ".tas.yml" EventPush "small")
        (Some (Scenario.tasConfigV2, None));
    Obs (Download key) (Some None);
    Obs (GetChangedFiles payload Scenario.oauth)
        (Some ({[ "src/foo.ts" := 3 ]}, None));
    Obs (WgAdd 1) (Some tt);
    Obs (Go {| g_payload := payload; g_subModule := Scenario.web;
               g_tasConfig := Scenario.tasConfigV2; g_secretMap := ∅;
               g_diff := {[ "src/foo.ts" := 3 ]}; g_diffExists := true |})
        (Some tt);
    Obs CacheWorkspace (Some None);
    Obs (Upload key ["node_modules"]) (Some None);
    Obs (Upload key ["node_modules"]) (Some None) ].

(** A v2 discovery run for a push event, one post-merge submodule, every
    collaborator succeeding. *)
Definition pushPool : pool :=
  coordinator Scenario.G Scenario.cfg (Scenario.payload EventPush)
    Scenario.oauth "/tmp/coverage" ∅ init.

Definition secretsUnreadable : error :=
  errs.New "open /vault/secrets/oauth: permission denied".

(** The secret store cannot be read: [GetOauthSecret] fails. *)
Definition oauthDown : Scenario.knobs :=
  {| Scenario.event := EventPush; Scenario.version := 1;
     Scenario.oauthErr := Some secretsUnreadable;
     Scenario.repoSecretErr := None;
     Scenario.cloneAnswer := Answers None;
     Scenario.changedFiles := (∅, None);
     Scenario.runnerErr := λ _, None |}.

(** [GetOauthSecret] succeeds and [GetRepoSecret] fails the same way. *)
Definition repoSecretDown : Scenario.knobs :=
  {| Scenario.event := EventPush; Scenario.version := 1;
     Scenario.oauthErr := None;
     Scenario.repoSecretErr := Some secretsUnreadable;
     Scenario.cloneAnswer := Answers None;
     Scenario.changedFiles := (∅, None);
     Scenario.runnerErr := λ _, None |}.

(** The diff of the spec: one modified and one removed file. *)
Definition twoFiles : gmap string Z := {[ "a.ts" := 3; "b.ts" := 2 ]}.

(** A v1 discovery that goes through. *)
Definition discoveryRun : list obs :=
  observe (Scenario.world (Scenario.happy EventPush 1)) 0
    (Discover Scenario.G Scenario.tasConfig (Scenario.payload EventPush) ∅
       {[ "src/foo.ts" := 3 ]} true) init.

(** [GitManager.Clone] panics. *)
Definition clonePanics : Scenario.knobs :=
  {| Scenario.event := EventPush; Scenario.version := 1;
     Scenario.oauthErr := None; Scenario.repoSecretErr := None;
     Scenario.cloneAnswer := PanicsWith "index out of range [-1]";
     Scenario.changedFiles := (∅, None);
     Scenario.runnerErr := λ _, None |}.

Definition afterPrologue : state :=
  (run (Scenario.world clonePanics) 0 (Start_prologue Scenario.cfg) init).2.

(** A v2 discovery run for a pull request: two pre-merge submodules, and
    the runner of the first one ([web]) fails. *)
Definition webFails : Scenario.knobs :=
  {| Scenario.event := EventPullRequest; Scenario.version := 2;
     Scenario.oauthErr := None; Scenario.repoSecretErr := None;
     Scenario.cloneAnswer := Answers None;
     Scenario.changedFiles := ({[ "src/foo.ts" := 3 ]}, None);
     Scenario.runnerErr := λ dir,
       if bool_decide (dir = "/tmp/repo/packages/web")
       then Some (errs.New "exit status 1") else None |}.

Definition pullRequestPool : pool :=
  coordinator Scenario.G Scenario.cfg (Scenario.payload EventPullRequest)
    Scenario.oauth "/tmp/coverage" ∅ init.

(** The main goroutine launches both goroutines, the two run one after the
    other, and the main goroutine goes on. *)
Definition oneAfterTheOther : list nat :=
  replicate 7 0%nat ++ replicate 11 1%nat ++ replicate 12 2%nat
  ++ replicate 4 0%nat.


(** The post-merge map holds one entry; [DiscoverV2] runs for [web], then
    for [api]. *)
Definition oneEntry : state :=
  setEnvOf PostMergeK (Some {[ "CI" := "true" ]}) init.

Definition afterWeb : state :=
  (run (Scenario.world (Scenario.happy EventPush 2)) 1
     (DiscoverV2 Scenario.G Scenario.web (Scenario.payload EventPush) ∅
        Scenario.tasConfigV2 ∅ true) oneEntry).2.

(** The pull-request run above, up to the point where the main goroutine
    has come back from [wg.Wait()]. *)
Definition afterWait : pool :=
  default pullRequestPool
    (steps Scenario.G (Scenario.world webFails)
       (replicate 7 0%nat ++ replicate 11 1%nat ++ replicate 12 2%nat ++ [0%nat])
       pullRequestPool).

(** The run is cancelled while the repository is cloned. *)
Definition cancelled : error := errs.Wrap "git clone" errs.Canceled.

(** Coverage mode, and execute mode. *)
Definition coverageCfg : NucleusConfig :=
  {| PayloadAddress := "http://payload"; CoverageMode := true;
     DiscoverMode := false; ExecuteMode := false; FlakyMode := false;
     Env := "prod" |}.

Definition executeCfg : NucleusConfig :=
  {| PayloadAddress := "http://payload"; CoverageMode := false;
     DiscoverMode := false; ExecuteMode := true; FlakyMode := false;
     Env := "prod" |}.

(** A v1 discovery by [runOldVersion] that goes through, from the state
    the prologue of [Start] leaves. *)
Definition v1Run : list obs :=
  observe (Scenario.world (Scenario.happy EventPush 1)) 0
    (runOldVersion Scenario.G Scenario.cfg (Scenario.payload EventPush)
       Scenario.oauth "/tmp/coverage" ∅) afterPrologue.

(** An execution in which a test fails: [Run] hands back the results and
    an error. *)
Definition someTestFailed : ExecutionResults :=
  {| er_Results := [["passed"; "failed"]] |}.

Definition failedExecution : list obs :=
  [ Obs (LoadAndValidateV1 ".tas.yml" EventPush "small")
        (Some (Scenario.tasConfig, None));
    Obs (TestExecutionRun Scenario.tasConfig (Scenario.payload EventPush)
           "/tmp/coverage" ∅)
        (Some (Some someTestFailed, Some (errs.New "exit status 1")));
    Obs (SendResults (Some someTestFailed)) (Some (Failed, None));
    Obs (SetStatus Failed) (Some tt) ].

(** The pull-request run above, started where the prologue of [Start]
    leaves the task payload. *)
Definition startedPool : pool :=
  coordinator Scenario.G Scenario.cfg (Scenario.payload EventPullRequest)
    Scenario.oauth "/tmp/coverage" ∅ afterPrologue.

Definition startedPoolDone : pool :=
  default startedPool
    (steps Scenario.G (Scenario.world webFails) oneAfterTheOther startedPool).

(** The v1 discovery run of [Discover] alone, and the goroutine of [web]. *)
Definition webGoroutine : goroutine :=
  {| g_payload := Scenario.payload EventPush; g_subModule := Scenario.web;
     g_tasConfig := Scenario.tasConfigV2; g_secretMap := ∅;
     g_diff := {[ "src/foo.ts" := 3 ]}; g_diffExists := true |}.

(** Stand-ins for the constants and the library functions of package
    gitmanager, for the concrete runs: the URL type is a string, a token
    decodes to itself, and a directory is always ".". *)
Definition lib : sys.Lib :=
  {| sys.Bitbucket := "bitbucket"; sys.GitLab := "gitlab";
     sys.Basic := "Basic";
     sys.ErrAPIStatus := errs.New "non 200 status";
     sys.strings_Replace := λ s _ _, s;
     sys.filepath_Dir := λ _, ".";
     sys.urlT := string;
     sys.url_Parse := λ s, (s, None);
     sys.url_String := λ u name password,
       name +:+ ":" +:+ password +:+ "@" +:+ u;
     sys.base64_Decode := λ s, (s, None) |}.

Definition initCommands : list string :=
  [ "git init";
    "git remote add origin https://github.com/org/repo.git";
    "git config --global url.x-token-auth:token@https://github.com/org/repo.InsteadOf https://github.com/org/repo";
    "git fetch --depth=1 origin +c0ffee:refs/remotes/origin/main";
    "git config --global --remove-section url.x-token-auth:token@https://github.com/org/repo";
    "git checkout --progress --force -B main refs/remotes/origin/main" ].

(** A clone that goes through. *)
Definition cloneRun : list sys.obs :=
  [ sys.Obs (sys.GetCloneURL "github" "https://github.com/org/repo" "repo"
               "c0ffee" EmptyString "org/repo")
            ("https://api.github.com/repos/org/repo/zipball/c0ffee", None);
    sys.Obs (sys.NewRequest "GET"
               "https://api.github.com/repos/org/repo/zipball/c0ffee"
               EmptyString) None;
    sys.Obs (sys.HttpDo
               {| sys.req_Method := "GET";
                  sys.req_URL :=
                    "https://api.github.com/repos/org/repo/zipball/c0ffee";
                  sys.req_Body := EmptyString;
                  sys.req_Header := [("Authorization", "Bearer token")] |})
            ({| sys.StatusCode := 200 |}, None);
    sys.Obs (sys.OsCreate "c0ffee.zip") None;
    sys.Obs (sys.IoCopy "c0ffee.zip") None;
    sys.Obs (sys.FileClose "c0ffee.zip") tt;
    sys.Obs (sys.Unarchive "c0ffee.zip" ".") None;
    sys.Obs sys.BodyClose tt;
    sys.Obs (sys.OsRename "repo-c0ffee" "/tmp/repo") None;
    sys.Obs (sys.InitGitCommands initCommands "/tmp/repo") None ].

(** Basic authentication with a password that holds a colon. *)
Definition basicOauth : Oauth :=
  {| AccessToken := "user:pa:ss"; OauthType := "Basic" |}.

(** A report that is answered with status 200. *)
Definition statsRun : list sys.obs :=
  [ sys.Obs (sys.JsonMarshal {| er_Results := [["passed"]] |}) ("{}", None);
    sys.Obs (sys.NewRequest "POST" "http://neuron/report" "{}") None;
    sys.Obs (sys.HttpDo {| sys.req_Method := "POST";
                           sys.req_URL := "http://neuron/report";
                           sys.req_Body := "{}"; sys.req_Header := [] |})
            ({| sys.StatusCode := 200 |}, None);
    sys.Obs sys.BodyClose tt ].

(** What the goroutine of [web] does when the post-merge map is not nil and
    everything succeeds. *)
Definition webRun : list obs :=
  observe (Scenario.world (Scenario.happy EventPush 2)) 1
    (goFunc Scenario.G webGoroutine) oneEntry.

(** The directories of the commands of a behaviour. *)
Definition directories (π : list obs) : list string :=
  omap (λ o, match obs_call o with
             | ExecuteUserCommands _ _ _ _ d
             | ExecuteInternalCommands _ _ d
             | CmdRun _ _ d _ => Some d
             | _ => None
             end) π.

(** A payload whose repository link holds no slash. *)
Definition bareLink : Payload :=
  {| TaskID := "task-1"; BuildID := "build-1"; RepoSlug := "org/repo";
     RepoLink := "repo"; OrgID := "org-1"; RepoID := "repo-1";
     GitProvider := "github"; BuildTargetCommit := "c0ffee";
     BranchName := "main"; TasFileName := ".tas.yml";
     LicenseTier := "small"; payloadEventType := EventPush;
     CollectCoverage := false; payloadTaskType := None |}.

(** A v2 config whose merge levels name no environment: the two maps of
    the config are nil, and the submodule [web] has an entry of its own. *)
Definition noEnvConfig : TASConfigV2 :=
  {| v2_SmartRun := true;
     PreMerge := {| SubModules := [Scenario.web; Scenario.api];
                    v2_EnvMap := None |};
     PostMerge := {| SubModules := [Scenario.web]; v2_EnvMap := None |};
     v2_SplitMode := "test"; v2_ContainerImage := "node:16";
     v2_Tier := "small";
     v2_Cache := {| Key := "yarn.lock"; Paths := ["node_modules"] |} |}.

(** Every collaborator succeeds, and the loader hands back [noEnvConfig]. *)
Definition noEnv : World :=
  λ h c,
    match c return answer (reply c) with
    | LoadAndValidateV2 _ _ _ => Answers (noEnvConfig, None)
    | c => Scenario.world (Scenario.happy EventPullRequest 2) h c
    end.

(** The pull-request run of [webFails], and [CacheWorkspace] panics. *)
Definition cachePanics : World :=
  λ h c,
    match c return answer (reply c) with
    | CacheWorkspace => PanicsWith "runtime error: slice bounds out of range"
    | c => Scenario.world webFails h c
    end.

(** The main goroutine of [Start] up to [wg.Wait()] in a pull-request run,
    and then the two launched goroutines, one after the other. *)
Definition upToTheWait : list nat := replicate 30 0%nat.

Definition bothGoroutines : list nat :=
  replicate 11 1%nat ++ replicate 12 2%nat.

(** The main goroutine is back from [wg.Wait()]. *)
Definition backFromTheWait : process :=
  default (Start Scenario.cfg init)
    (Start_steps Scenario.G cachePanics Scenario.cfg
       (upToTheWait ++ bothGoroutines ++ [0%nat]) (Start Scenario.cfg init)).

(** The whole pull-request run of [webFails]. *)
Definition pullRequestDone : process :=
  default (Start Scenario.cfg init)
    (Start_steps Scenario.G (Scenario.world webFails) Scenario.cfg
       (upToTheWait ++ bothGoroutines ++ replicate 10 0%nat)
       (Start Scenario.cfg init)).

(** The run in coverage mode. *)
Definition coverageDone : process :=
  default (Start coverageCfg init)
    (Start_steps Scenario.G (Scenario.world (Scenario.happy EventPush 1))
       coverageCfg (replicate 5 0%nat) (Start coverageCfg init)).



(** The arguments the runner was started with, in a trace. *)
Definition runnerArgs (s : state) : list (list string) :=
  omap (λ c, match c with CmdRun _ args _ _ => Some args | _ => None end)
       (Scenario.calls s).

Definition waitsUnderDefer (P : process) : bool :=
  match mainG P with UnderDefer (Do WgWait _) => true | _ => false end.



(** * Facts and theorems *)

(** ** Monitors and behaviours *)

Section MonitorFacts.
Context {S : Type} (M : monitor S).

Lemma wp_mono {A} (p : prog A) (Q Q' : S → A → Prop) s :
  (∀ s a, Q s a → Q' s a) → wp M s p Q → wp M s p Q'.
Proof.
  intros HQ. revert s. induction p as [a|c k IH]; simpl; intros s; [auto|].
  intros [Hc Hk]. split; [done|]. intros r. by apply IH.
Qed.

Lemma wp_bind {A B} (p : prog A) (f : A → prog B) (Q : S → B → Prop) s :
  wp M s p (λ s' a, wp M s' (f a) Q) → wp M s (bind p f) Q.
Proof.
  revert s. induction p as [a|c k IH]; simpl; intros s; [done|].
  intros [Hc Hk]. split; [done|]. intros r. by apply IH.
Qed.

Lemma wp_bind_inv {A B} (p : prog A) (f : A → prog B) (Q : S → B → Prop) s :
  wp M s (bind p f) Q → wp M s p (λ s' a, wp M s' (f a) Q).
Proof.
  revert s. induction p as [a|c k IH]; simpl; intros s; [done|].
  intros [Hc Hk]. split; [done|]. intros r. by apply IH.
Qed.

Lemma wp_call (c : call) (Q : S → reply c → Prop) s :
  allowed M s c → (∀ r, Q (next M s c r) r) → wp M s (call_ c) Q.
Proof. intros Hc HQ. simpl. auto. Qed.

(** A loop keeps an invariant its body keeps. *)
Lemma wp_forRange {X} (I : S → Prop) (xs : list X) (body : X → prog unit) s :
  (∀ x s, x ∈ xs → I s → wp M s (body x) (λ s' _, I s')) →
  I s → wp M s (forRange xs body) (λ s' _, I s').
Proof.
  revert s. induction xs as [|x xs IH]; simpl; intros s Hbody HI; [done|].
  apply wp_bind. eapply wp_mono; [|apply Hbody; [left|done]].
  intros s' u HI'. simpl. apply IH; [|done].
  intros y s'' Hy. apply Hbody. by right.
Qed.

Lemma wp_behaves {A} (p : prog A) (Q : S → A → Prop) s π :
  wp M s p Q → behaves p π → accepts M s π.
Proof.
  revert s π. induction p as [a|c k IH]; simpl; intros s π Hwp Hb.
  - by subst.
  - destruct Hwp as [Hc Hk].
    destruct Hb as [->|[->|(r & π' & -> & Hb)]]; simpl; [done|done|].
    split; [done|]. by eapply IH.
Qed.

Lemma wp_finishes {A} (p : prog A) (Q : S → A → Prop) s π a :
  wp M s p Q → finishes p π a → accepts M s π ∧ Q (after M s π) a.
Proof.
  revert s π. induction p as [a'|c k IH]; simpl; intros s π Hwp Hf.
  - destruct Hf as [-> ->]. done.
  - destruct Hwp as [Hc Hk]. destruct Hf as (r & π' & -> & Hf). simpl.
    destruct (IH r _ _ (Hk r) Hf) as [??]. done.
Qed.

Lemma finishes_behaves {A} (p : prog A) π a : finishes p π a → behaves p π.
Proof.
  revert π. induction p as [a'|c k IH]; simpl; intros π.
  - by intros [-> _].
  - intros (r & π' & -> & Hf). right; right. eauto.
Qed.

End MonitorFacts.

(** ** Traces of [run]

    What [run] adds to the trace is a behaviour of the program it runs. *)
Lemma exec_trace W tid s c :
  match exec W tid s c with
  | Returns r s' => trace s' = trace s ++ [Event tid c (Some r)]
  | Panics _ s' | Exits _ s' => trace s' = trace s ++ [Event tid c None]
  | Blocks => True
  end.
Proof.
  destruct c; simpl; unfold ask, local; try done;
    try (destruct (W (trace s) _); simpl; try done; by repeat destruct select MergeKind);
    try (destruct (taskPayload s); simpl; done);
    try (destruct (envOf s _); simpl; [by destruct which|done]);
    try (case_bool_decide; simpl; done).
Qed.

Lemma run_trace {A} W tid (p : prog A) s :
  trace (run W tid p s).2 = trace s ++ map (tagged tid) (observe W tid p s).
Proof.
  revert s. induction p as [a|c k IH]; simpl; intros s.
  - by rewrite app_nil_r.
  - pose proof (exec_trace W tid s c) as Ht.
    destruct (exec W tid s c) as [r s'|msg s'|code s'|]; simpl.
    + by rewrite IH, Ht, <-app_assoc.
    + done.
    + done.
    + by rewrite app_nil_r.
Qed.

Lemma observe_behaves {A} W tid (p : prog A) s :
  behaves p (observe W tid p s).
Proof.
  revert s. induction p as [a|c k IH]; simpl; intros s; [done|].
  destruct (exec W tid s c) as [r s'|msg s'|code s'|]; eauto 7.
Qed.

Lemma observe_finishes {A} W tid (p : prog A) s a :
  (run W tid p s).1 = Returned a → finishes p (observe W tid p s) a.
Proof.
  revert s. induction p as [a'|c k IH]; simpl; intros s.
  - by intros [= ->].
  - destruct (exec W tid s c) as [r s'|msg s'|code s'|]; simpl; try done.
    intros Ha. eauto.
Qed.

(** ** The selector's argument list *)
Section SelectorFacts.
Context (G : Globals).

Lemma foldl_patterns (args target : list string) :
  foldl (λ args pattern, args ++ ["--pattern"; pattern]) args target
  = args ++ patternArgs target.
Proof.
  revert args. induction target as [|p target IH]; intros args; simpl.
  - by rewrite app_nil_r.
  - rewrite IH. by rewrite <-app_assoc.
Qed.

Lemma appendDiffs_pairs (args : list string) (order : list (string * Z)) :
  appendDiffs G args order = args ++ diffPairs (notRemoved G order).*1.
Proof.
  unfold appendDiffs, notRemoved. revert args.
  induction order as [|[k v] order IH]; intros args; simpl.
  - by rewrite app_nil_r.
  - rewrite IH. rewrite filter_cons. simpl.
    case_bool_decide; case_decide; try done; simpl.
    by rewrite <-app_assoc.
Qed.

(** The list [discoverArgs] builds, segment by segment. *)
Lemma discoverArgs_segments diff diffExists order all configFile target :
  discoverArgs G diff diffExists order all configFile target
  = ["--command"; "discover"]
    ++ (if all then []
        else if bool_decide (size diff = 0%nat) && diffExists
             then ["--diff"]
             else diffPairs (notRemoved G order).*1)
    ++ configArgs configFile ++ patternArgs target.
Proof.
  unfold discoverArgs, configArgs. rewrite foldl_patterns.
  destruct all; simpl.
  - by case_bool_decide.
  - destruct (bool_decide (size diff = 0%nat) && diffExists); simpl.
    + by case_bool_decide.
    + rewrite appendDiffs_pairs. simpl.
      case_bool_decide; simpl; by rewrite <-?app_assoc.
Qed.

Lemma notRemoved_paths diff order :
  order ≡ₚ map_to_list diff →
  NoDup (notRemoved G order).*1 ∧
  ∀ k, k ∈ (notRemoved G order).*1
       ↔ ∃ v, diff !! k = Some v ∧ v ≠ FileRemoved G.
Proof.
  intros Hp. split.
  - assert (NoDup order.*1) as Hnd.
    { rewrite Hp. apply NoDup_fst_map_to_list. }
    unfold notRemoved. revert Hnd. generalize order.
    induction order0 as [|[k v] l IH]; simpl; [constructor|].
    rewrite NoDup_cons. intros [Hk Hnd]. rewrite filter_cons.
    case_decide; simpl; [|by apply IH].
    apply NoDup_cons. split; [|by apply IH].
    intros Hin. apply Hk. apply list_elem_of_fmap in Hin as ([k' v'] & -> & Hin).
    apply list_elem_of_filter in Hin as [_ Hin].
    apply list_elem_of_fmap. by exists (k', v').
  - intros k. unfold notRemoved. rewrite list_elem_of_fmap. split.
    + intros ([k' v] & -> & Hin). apply list_elem_of_filter in Hin as [Hv Hin].
      rewrite Hp in Hin. apply elem_of_map_to_list in Hin. eauto.
    + intros (v & Hk & Hv). exists (k, v). split; [done|].
      apply list_elem_of_filter. split; [done|].
      rewrite Hp. by apply elem_of_map_to_list.
Qed.

Lemma not_in_patternArgs (x : string) target :
  x ≠ "--pattern" → x ∉ target → x ∉ patternArgs target.
Proof.
  intros Hx. unfold patternArgs. induction target as [|p target IH]; simpl.
  - intros _. apply not_elem_of_nil.
  - rewrite !not_elem_of_cons. intros [Hp Ht]. split_and!; [done..|].
    by apply IH.
Qed.

End SelectorFacts.

(** C4.  When the config file's path is a key of the diff, or smart run is
    off, [discoverAll] holds and the argument list the selector builds is
    the base arguments followed by the [--config] and [--pattern]
    arguments only: it has no [--diff] argument, bare or with a path.  As
    a string, [--diff] then occurs in the list only if the configured
    config file or a configured pattern is that very string. *)
Theorem selector_full_discovery (G : Globals) (diff : gmap string Z)
    (diffExists smartRun : bool) (order : list (string * Z))
    (configFilePath configFile : string) (target : list string) :
  is_Some (diff !! configFilePath) ∨ smartRun = false →
  discoverAll diff configFilePath smartRun = true ∧
  discoverArgs G diff diffExists order
    (discoverAll diff configFilePath smartRun) configFile target
  = ["--command"; "discover"] ++ configArgs configFile ++ patternArgs target ∧
  (configFile ≠ "--diff" → "--diff" ∉ target →
   "--diff" ∉ discoverArgs G diff diffExists order
                (discoverAll diff configFilePath smartRun) configFile target).
Proof.
  intros Hall.
  assert (discoverAll diff configFilePath smartRun = true) as ->.
  { unfold discoverAll. destruct Hall as [Hin | ->].
    - by rewrite bool_decide_eq_true_2.
    - by rewrite orb_true_r. }
  split; [done|]. rewrite discoverArgs_segments. split; [done|].
  intros Hcfg Htarget. simpl. rewrite !not_elem_of_cons, not_elem_of_app.
  split_and!; [done..| |by apply not_in_patternArgs].
  unfold configArgs. case_bool_decide; [|apply not_elem_of_nil].
  rewrite !not_elem_of_cons. split_and!; [done|congruence|apply not_elem_of_nil].
Qed.

(** C5.  With smart run on and the config file's path not a key of the
    diff: when the diff is empty and was computed, the argument list has
    the single bare [--diff]; otherwise it has the pairs [--diff k] for a
    list of paths without repetition that holds exactly the keys of the
    diff whose change kind is not [FileRemoved]. *)
Theorem selector_smart_diff (G : Globals) (diff : gmap string Z)
    (diffExists : bool) (order : list (string * Z))
    (configFilePath configFile : string) (target : list string) :
  order ≡ₚ map_to_list diff →
  diff !! configFilePath = None →
  let args := discoverArgs G diff diffExists order
                (discoverAll diff configFilePath true) configFile target in
  (diff = ∅ ∧ diffExists = true →
   args = ["--command"; "discover"] ++ ["--diff"]
          ++ configArgs configFile ++ patternArgs target) ∧
  (¬ (diff = ∅ ∧ diffExists = true) →
   ∃ paths : list string,
     args = ["--command"; "discover"] ++ diffPairs paths
            ++ configArgs configFile ++ patternArgs target ∧
     NoDup paths ∧
     ∀ k, k ∈ paths ↔ ∃ v, diff !! k = Some v ∧ v ≠ FileRemoved G).
Proof.
  intros Hp Hcfg args. subst args.
  assert (discoverAll diff configFilePath true = false) as ->.
  { unfold discoverAll. rewrite Hcfg. by vm_compute. }
  rewrite discoverArgs_segments. split.
  - intros [-> ->]. by rewrite map_size_empty.
  - intros Hne. exists (notRemoved G order).*1.
    destruct (notRemoved_paths G diff order Hp) as [Hnd Hin].
    split_and!; [|done..].
    destruct (bool_decide (size diff = 0%nat) && diffExists) eqn:Hb; [|done].
    apply andb_true_iff in Hb as [Hs ->]. apply bool_decide_eq_true in Hs.
    apply map_size_empty_inv in Hs. by destruct Hne.
Qed.

(** ** The rendezvous of the dispatcher with the runner's result *)

Lemma rendezvous_once (π : list obs) (exited : bool) (n : nat) :
  accepts rendezvous (exited, n) π → (n ≤ 1)%nat → (n + receives π ≤ 1)%nat.
Proof.
  unfold receives. revert exited n.
  induction π as [|[c r] π IH]; intros exited n Hacc Hn; simpl; [lia|].
  destruct Hacc as [Hc Hacc]. rewrite filter_cons.
  destruct c; simpl in *;
    try (destruct r as [r|]; [by eapply IH|subst π; simpl; lia]).
  destruct Hc as [_ ->].
  destruct r as [r|]; [|subst π; simpl; lia].
  specialize (IH _ _ Hacc). simpl in *. lia.
Qed.

Lemma rendezvous_after_exit (π : list obs) (exited : bool) (n : nat) :
  accepts rendezvous (exited, n) π →
  ∀ i o, π !! i = Some o → isRecv o = true →
    exited = true ∨
    ∃ j o', (j < i)%nat ∧ π !! j = Some o' ∧ runnerExitedOk o'.
Proof.
  revert exited n.
  induction π as [|[c r] π IH]; intros exited n Hacc i o Hi Ho.
  { by rewrite lookup_nil in Hi. }
  destruct Hacc as [Hc Hacc]. destruct i as [|i]; simpl in Hi.
  - injection Hi as <-. destruct c; try discriminate Ho. left. apply Hc.
  - destruct r as [r|]; [|subst π; by rewrite lookup_nil in Hi].
    destruct (next rendezvous (exited, n) c r) as [exited' n'] eqn:Hnext.
    destruct (IH _ _ Hacc i o Hi Ho) as [He|(j & o' & Hj & Hl & Hok)].
    + destruct c; simpl in Hnext; simplify_eq; auto.
      destruct r as [e|]; auto.
      right. exists 0%nat, (Obs (CmdRun binary args dir env) (Some None)).
      split_and!; [lia|done|done].
    + right. exists (S j), o'. split_and!; [lia|done|done].
Qed.

(** Symbolic execution of a straight-line program under a monitor. *)
Ltac wp_go :=
  repeat match goal with
         | |- True => exact I
         | |- _ = _ => reflexivity
         | |- _ ∧ _ => split
         | |- ∀ _, _ => intro
         | r : _ * _ |- _ => destruct r
         | |- context [match ?x with Some _ => _ | None => _ end] =>
             is_var x; destruct x
         | _ => progress simpl
         end.

Section Rendezvous.
Context (G : Globals).

Lemma Discover_rendezvous tasConfig payload secretData diff diffExists :
  wp rendezvous (false, 0%nat)
     (Discover G tasConfig payload secretData diff diffExists)
     (λ _ _, True).
Proof.
  unfold Discover, updateResult.
  destruct (bool_decide (payloadEventType payload = EventPullRequest)); wp_go.
Qed.

Lemma DiscoverV2_rendezvous subModule payload secretData tasConfig diff
    diffExists :
  wp rendezvous (false, 0%nat)
     (DiscoverV2 G subModule payload secretData tasConfig diff diffExists)
     (λ _ _, True).
Proof.
  unfold DiscoverV2, updateResult. apply wp_bind.
  eapply wp_mono;
    [|apply (wp_forRange rendezvous (λ s, s = (false, 0%nat))); [|done]].
  - intros s u ->. wp_go.
  - intros kv s _ ->. wp_go.
Qed.

End Rendezvous.

(** C6.  In every behaviour of [Discover] and of [DiscoverV2], a receive on
    the result channel comes after a [cmd.Run()] that returned nil (the
    runner has exited, successfully), and there is at most one receive. *)
Theorem receive_only_after_runner_exit (G : Globals) (π : list obs) :
  (∃ tasConfig payload secretData diff diffExists,
     behaves (Discover G tasConfig payload secretData diff diffExists) π) ∨
  (∃ subModule payload secretData tasConfig diff diffExists,
     behaves (DiscoverV2 G subModule payload secretData tasConfig diff
                diffExists) π) →
  (∀ i o, π !! i = Some o → isRecv o = true →
     ∃ j o', (j < i)%nat ∧ π !! j = Some o' ∧ runnerExitedOk o') ∧
  (receives π ≤ 1)%nat.
Proof.
  intros Hb.
  assert (accepts rendezvous (false, 0%nat) π) as Hacc.
  { destruct Hb as [(tasConfig & payload & sd & diff & de & Hb)
                   |(subModule & payload & sd & tasConfig & diff & de & Hb)].
    - eapply wp_behaves; [apply Discover_rendezvous|done].
    - eapply wp_behaves; [apply DiscoverV2_rendezvous|done]. }
  split.
  - intros i o Hi Ho.
    by destruct (rendezvous_after_exit _ _ _ Hacc i o Hi Ho) as [?|?].
  - apply (rendezvous_once _ _ _ Hacc). lia.
Qed.

(** ** The arguments the runner is started with *)

Section RunnerArguments.
Context (G : Globals).




End RunnerArguments.

(** ** Facts about [run] *)

Lemma run_bind {A B} W tid (p : prog A) (f : A → prog B) s :
  run W tid (bind p f) s =
  match run W tid p s with
  | (Returned a, s') => run W tid (f a) s'
  | (Panicked msg, s') => (Panicked msg, s')
  | (Exited code, s') => (Exited code, s')
  | (Blocked, s') => (Blocked, s')
  end.
Proof.
  revert s. induction p as [a|c k IH]; simpl; intros s; [done|].
  destruct (exec W tid s c); auto.
Qed.

Lemma envOf_record e s which : envOf (record e s) which = envOf s which.
Proof. by destruct which. Qed.

Lemma envOf_setEnvOf which m s : envOf (setEnvOf which m s) which = m.
Proof. by destruct which. Qed.

Lemma trace_setEnvOf which m s : trace (setEnvOf which m s) = trace s.
Proof. by destruct which. Qed.

Lemma storeAll_union (l : list (string * string)) (m : gmap string string) :
  NoDup l.*1 → storeAll m l = list_to_map l ∪ m.
Proof.
  unfold storeAll. revert m.
  induction l as [|[k v] l IH]; intros m Hnd; simpl.
  - by rewrite (left_id_L ∅ (∪)).
  - apply NoDup_cons in Hnd as [Hk Hnd]. rewrite IH by done.
    rewrite <-insert_union_l. rewrite <-insert_union_r; [done|].
    by apply not_elem_of_list_to_map_1.
Qed.

Lemma storeAll_map_to_list (sub m : gmap string string) :
  storeAll m (map_to_list sub) = sub ∪ m.
Proof.
  rewrite storeAll_union by apply NoDup_fst_map_to_list.
  by rewrite list_to_map_to_list.
Qed.

Lemma run_storeAll W tid which (l : list (string * string)) s m :
  envOf s which = Some m →
  ∃ s', run W tid (forRange l (λ kv, call_ (EnvMapStore which kv.1 kv.2))) s
        = (Returned tt, s') ∧
        envOf s' which = Some (storeAll m l) ∧
        trace s' = trace s ++
          map (λ kv, Event tid (EnvMapStore which kv.1 kv.2) (Some tt)) l.
Proof.
  revert s m. induction l as [|[k v] l IH]; intros s m Hm; simpl.
  - exists s. by rewrite app_nil_r.
  - rewrite Hm. unfold local.
    destruct (IH (record (Event tid (EnvMapStore which k v) (Some tt))
                    (setEnvOf which (Some (<[k:=v]> m)) s)) (<[k:=v]> m))
      as (s' & Hrun & Henv & Htr).
    { by rewrite envOf_record, envOf_setEnvOf. }
    exists s'. split_and!; [done|done|].
    rewrite Htr. simpl. rewrite trace_setEnvOf. by rewrite <-app_assoc.
Qed.

(** Symbolic execution of [run] on a straight-line program: one case per
    answer of the world. *)
Ltac run_go :=
  repeat (simpl; unfold ask, local;
          match goal with
          | |- context [match ?W ?h ?c with
                        | Answers _ => _ | PanicsWith _ => _ | Hangs => _
                        end] =>
              destruct (W h c) as [?r|?msg|] eqn:?
          | r : reply _ |- _ => progress simpl in r
          | r : _ * _ |- _ => destruct r
          | |- context [match ?x with Some _ => _ | None => _ end] =>
              is_var x; destruct x
          end).

Lemma envMapsPassed_stores tid which (l : list (string * string)) :
  envMapsPassed
    (map (λ kv, Event tid (EnvMapStore which kv.1 kv.2) (Some tt)) l) = [].
Proof. by induction l. Qed.

Lemma envMapsPassed_app evs1 evs2 :
  envMapsPassed (evs1 ++ evs2) = envMapsPassed evs1 ++ envMapsPassed evs2.
Proof. apply omap_app. Qed.

Section SharedEnvMap.
Context (G : Globals).

(** What one call of [DiscoverV2] does with the merge-level map it binds
    [envMap] to, when that map is not nil: it leaves the submodule's
    entries in it, and hands the map with these entries to
    [GetEnvVariables]. *)
Lemma DiscoverV2_envMap W tid s subModule payload secretData tasConfig diff
    diffExists m :
  envOf s (envMapOf payload) = Some m →
  ∃ evs,
    trace (run W tid (DiscoverV2 G subModule payload secretData tasConfig
                        diff diffExists) s).2 = trace s ++ evs ∧
    envOf (run W tid (DiscoverV2 G subModule payload secretData tasConfig
                        diff diffExists) s).2 (envMapOf payload)
    = Some (sm_EnvMap subModule ∪ m) ∧
    ∀ envMap, envMap ∈ envMapsPassed evs →
              envMap = Some (sm_EnvMap subModule ∪ m).
Proof.
  intros Hm. unfold DiscoverV2, updateResult. rewrite run_bind.
  destruct (run_storeAll W tid (envMapOf payload)
              (map_to_list (sm_EnvMap subModule)) s m Hm)
    as (s1 & -> & Henv & Htr).
  rewrite storeAll_map_to_list in Henv.
  run_go.
  all: eexists; split_and!;
    [ simpl; rewrite ?Htr; rewrite <-?app_assoc; reflexivity
    | by rewrite ?envOf_record
    | rewrite ?envMapsPassed_app, ?envMapsPassed_stores; simpl;
      rewrite ?envOf_record, ?Henv; intros envMap Hin;
      repeat (apply elem_of_cons in Hin as [->|Hin]; [done|]);
      by apply elem_of_nil in Hin ].
Qed.

End SharedEnvMap.

(** C10.  A call of [DiscoverV2] writes the submodule's environment into
    the merge-level map of the config itself (here: a map that is not nil).
    After the call the map is the old one with the submodule's entries laid
    over it, which differs from the old one as soon as the submodule has an
    entry the map did not hold; and a later [DiscoverV2] for the same event
    type, of any submodule, hands [GetEnvVariables] a map that still holds
    the entries of the first call that it does not override itself. *)
Theorem DiscoverV2_writes_shared_envMap (G : Globals) (W : World) (tid : nat)
    (s : state) (subModule : SubModule) (payload : Payload)
    (secretData : gmap string string) (tasConfig : TASConfigV2)
    (diff : gmap string Z) (diffExists : bool) (m : gmap string string) :
  envOf s (envMapOf payload) = Some m →
  let s' := (run W tid (DiscoverV2 G subModule payload secretData tasConfig
                          diff diffExists) s).2 in
  envOf s' (envMapOf payload) = Some (sm_EnvMap subModule ∪ m) ∧
  ((∃ k v, sm_EnvMap subModule !! k = Some v ∧ m !! k ≠ Some v) →
   envOf s' (envMapOf payload) ≠ envOf s (envMapOf payload)) ∧
  ∀ W' tid' subModule' secretData' diff' diffExists',
    ∃ evs,
      trace (run W' tid' (DiscoverV2 G subModule' payload secretData'
                            tasConfig diff' diffExists') s').2
      = trace s' ++ evs ∧
      ∀ envMap, envMap ∈ envMapsPassed evs →
        ∃ later, envMap = Some later ∧
          ∀ k v, sm_EnvMap subModule !! k = Some v →
                 sm_EnvMap subModule' !! k = None → later !! k = Some v.
Proof.
  intros Hm s'.
  destruct (DiscoverV2_envMap G W tid s subModule payload secretData tasConfig
              diff diffExists m Hm) as (evs & _ & Henv & _).
  fold s' in Henv. split_and!; [done| |].
  - intros (k & v & Hk & Hmk). rewrite Henv, Hm. intros [= Heq].
    apply Hmk. rewrite <-Heq. by apply lookup_union_Some_l.
  - intros W' tid' subModule' secretData' diff' diffExists'.
    destruct (DiscoverV2_envMap G W' tid' s' subModule' payload secretData'
                tasConfig diff' diffExists' _ Henv) as (evs' & Htr & _ & Hpass).
    exists evs'. split; [done|]. intros envMap Hin. eexists. split; [by apply Hpass|].
    intros k v Hk Hk'. rewrite lookup_union_r by done.
    by apply lookup_union_Some_l.
Qed.

(** ** The deferred function of [Start] *)

Lemma taskPayload_record e s : taskPayload (record e s) = taskPayload s.
Proof. done. Qed.

Lemma taskPayload_setEnvOf which m s :
  taskPayload (setEnvOf which m s) = taskPayload s.
Proof. by destruct which. Qed.

(** Once [taskPayload] points to a task payload it keeps doing so. *)
Lemma exec_taskPayload W tid s c :
  is_Some (taskPayload s) →
  match exec W tid s c with
  | Returns _ s' | Panics _ s' | Exits _ s' => is_Some (taskPayload s')
  | Blocks => True
  end.
Proof.
  intros [tp Htp].
  destruct c; simpl; unfold ask, local; rewrite ?Htp; simpl; try done;
    try (destruct (W (trace s) _); simpl; rewrite ?taskPayload_setEnvOf, ?Htp;
         done);
    try (destruct (envOf s _); simpl; rewrite ?taskPayload_setEnvOf, ?Htp;
         done);
    try (case_bool_decide; simpl; rewrite ?Htp; done).
Qed.

Lemma run_taskPayload {A} W tid (p : prog A) s :
  is_Some (taskPayload s) → is_Some (taskPayload (run W tid p s).2).
Proof.
  revert s. induction p as [a|c k IH]; simpl; intros s Hs; [done|].
  pose proof (exec_taskPayload W tid s c Hs) as He.
  destruct (exec W tid s c); simpl; auto.
Qed.

Section Finalizer.
Context (G : Globals).

(** The deferred function as a whole: what it reports and, in a world
    whose clock and status reporter do not panic, how it ends. *)
Lemma Start_deferred_reports W s tp p err :
  taskPayload s = Some tp →
  ∃ evs,
    trace (run W 0 (Start_deferred G p err) s).2 = trace s ++ evs ∧
    (∀ t, t ∈ reported evs →
          (tp_Status t, tp_Remark t) = finalStatus G p err tp) ∧
    ((∀ h msg, W h TimeNow ≠ PanicsWith msg) →
     (∀ h t msg, W h (UpdateStatus t) ≠ PanicsWith msg) →
     match (run W 0 (Start_deferred G p err) s).1 with
     | Returned r => r = None ∧ ∃ t, reported evs = [t]
     | Exited code => code = 1 ∧ ∃ t, reported evs = [t]
     | Blocked => True
     | Panicked _ => False
     end).
Proof.
  intros Htp. unfold Start_deferred, finalStatus.
  destruct p as [msg|]; [|destruct err as [e|]];
    [| destruct (errs.Is e errs.Canceled);
       [|destruct (errs.isStatusFailed e)] |];
    run_go; rewrite ?Htp; run_go;
    (eexists; split_and!;
     [ simpl; rewrite <-?app_assoc;
       first [reflexivity | symmetry; apply app_nil_r]
     | simpl; intros t Hin;
       repeat (apply elem_of_cons in Hin as [->|Hin]; [done|]);
       by apply elem_of_nil in Hin
     | simpl; intros Hnow Hupd;
       try (exfalso; by eapply Hnow); try (exfalso; by eapply Hupd);
       eauto ]).
Qed.

End Finalizer.

(** X2. How the deferred function classifies the error [Start] returns,
    with a clock that answers and a status reporter that does not hang:
    [Task.UpdateStatus] is called once, with a task payload that is
    [Aborted] with the remark "Task aborted" for a cancellation, [Failed]
    for a [StatusFailed] and [Error] for any other error, both with the
    error's own text as the remark. *)
Theorem deferred_function_classifies (G : Globals) (W : World) (s : state)
    (tp : TaskPayload) (e : error) :
  taskPayload s = Some tp →
  (∀ h, ∃ now, W h TimeNow = Answers now) →
  (∀ h t, W h (UpdateStatus t) ≠ Hangs) →
  ∃ evs t,
    trace (run W 0 (Start_deferred G None (Some e)) s).2 = trace s ++ evs ∧
    reported evs = [t] ∧
    (errs.Is e errs.Canceled = true →
     tp_Status t = Aborted ∧ tp_Remark t = "Task aborted") ∧
    (errs.Is e errs.Canceled = false → errs.isStatusFailed e = true →
     tp_Status t = Failed ∧ tp_Remark t = errs.Error G e) ∧
    (errs.Is e errs.Canceled = false → errs.isStatusFailed e = false →
     tp_Status t = Error ∧ tp_Remark t = errs.Error G e).
Proof.
  intros Htp Hnow Hupd. unfold Start_deferred.
  destruct (Hnow (trace s)) as [now Hclock].
  destruct (errs.Is e errs.Canceled); [|destruct (errs.isStatusFailed e)];
    simpl; unfold ask, local; rewrite Hclock; simpl; rewrite Htp; simpl;
    match goal with
    | |- context [W ?h (UpdateStatus ?t)] =>
        pose proof (Hupd h t) as Hans;
        destruct (W h (UpdateStatus t)) as [[err|]|msg|]; [| | |done]
    end; simpl;
    (eexists _, _; split;
     [rewrite <-?app_assoc; reflexivity|split; [reflexivity|]]);
    split_and!; intros; done.
Qed.

Lemma Start_prologue_taskPayload W cfg s0 payload s :
  run W 0 (Start_prologue cfg) s0 = (Returned payload, s) →
  is_Some (taskPayload s).
Proof.
  unfold Start_prologue, noreturn.
  destruct (CoverageMode cfg); run_go; intros [= <- <-]; simpl; eauto.
Qed.


(** ** A whole v1 discovery run *)

(** Schema v1, smart run on, the config file unchanged, one modified
    file: the main goroutine, which is alone, runs to the end of [Start]. *)
Example v1_discovery_arguments :
  ∃ P, Start_steps Scenario.G (Scenario.world (Scenario.happy EventPush 1))
         Scenario.cfg (replicate 46 0%nat) (Start Scenario.cfg init) = Some P ∧
       mainG P = HasReturned None ∧
       runnerArgs (memory P)
       = [["--command"; "discover"; "--diff"; "src/foo.ts";
           "--pattern"; "**/*.test.ts"]] ∧
       tp_Status <$> reported (trace (memory P)) = [Running; Passed].
Proof.
  eexists. split; [vm_compute; reflexivity|]. vm_compute.
  split_and!; reflexivity.
Qed.

(** ** Schedules of a pool *)

Section PoolFacts.
Context (G : Globals) (W : World).

Lemma steps_app sched1 sched2 P :
  steps G W (sched1 ++ sched2) P
  = P' ← steps G W sched1 P; steps G W sched2 P'.
Proof.
  revert P. induction sched1 as [|tid sched1 IH]; intros P; simpl; [done|].
  destruct (step G W tid P); simpl; [apply IH|done].
Qed.

(** An invariant of every step from [P0] holds wherever the pool gets. *)
Lemma reachable_ind (I : pool → Prop) P0 :
  I P0 → (∀ tid P P', I P → step G W tid P = Some P' → I P') →
  ∀ P, reachable G W P0 P → I P.
Proof.
  intros H0 Hstep P [sched Hs]. revert P0 H0 Hs.
  induction sched as [|tid sched IH]; intros P0 H0; simpl.
  - by intros [= <-].
  - destruct (step G W tid P0) as [P1|] eqn:H1; simpl; [|done].
    apply IH. by eapply Hstep.
Qed.

End PoolFacts.

(** ** The WaitGroup of [runNewVersion] *)

Section WaitGroup.
Context (G : Globals).

Lemma DiscoverV2_taskMon subModule payload secretData tasConfig diff
    diffExists :
  wp taskMon 0%nat
     (DiscoverV2 G subModule payload secretData tasConfig diff diffExists)
     (λ n _, n = 0%nat).
Proof.
  unfold DiscoverV2, updateResult. apply wp_bind.
  eapply wp_mono; [|apply (wp_forRange _ (λ n, n = 0%nat)); [|done]].
  - intros n u ->. wp_go.
  - intros kv n _ ->. wp_go.
Qed.

(** [runDiscoveryForEachSubModule] calls [wg.Done()] once when it returns
    nil and not at all when it returns an error. *)
Lemma runDiscoveryForEachSubModule_taskMon payload subModule tasConfig
    secretMap diff diffExists :
  wp taskMon 0%nat
     (runDiscoveryForEachSubModule G payload subModule tasConfig secretMap
        diff diffExists)
     (λ n err, n = if err is Some _ then 0%nat else 1%nat).
Proof.
  unfold runDiscoveryForEachSubModule.
  destruct (sm_Prerun subModule); wp_go;
    (apply wp_bind; eapply wp_mono; [|apply DiscoverV2_taskMon];
     intros n err ->; wp_go).
Qed.

(** The goroutine of a submodule calls [wg.Done()] exactly once, whether
    its discovery fails or not. *)
Lemma goFunc_taskMon g : wp taskMon 0%nat (goFunc G g) (λ n _, n = 1%nat).
Proof.
  unfold goFunc. apply wp_bind.
  eapply wp_mono; [|apply runDiscoveryForEachSubModule_taskMon].
  intros n [e|] ->; wp_go.
Qed.

(** The main goroutine: on a push event it reaches [CacheWorkspace]
    without a [Wait]; on a pull-request event the [Wait] comes first. *)
Lemma launch_loop_coordMon barrier (subModules : list SubModule)
    (launch : SubModule → goroutine) :
  wp (coordMon barrier) (Coord 0 false false)
     (forRange subModules (λ subModule,
        _ <- call_ (WgAdd 1) ;; call_ (Go (launch subModule))))
     (λ ms _, pending ms = 0 ∧ waited ms = false).
Proof.
  apply (wp_forRange _ (λ ms, pending ms = 0 ∧ waited ms = false)); [|done].
  intros sub [p w l] _ [Hp Hw]; simpl in *; subst. wp_go; try done; lia.
Qed.

(** The main goroutine: on a push event it reaches [CacheWorkspace]
    without a [Wait]; on any other event the [Wait] comes first.  Once it
    has launched a goroutine it returns nil or the generic error. *)
Lemma runNewVersion_coordMon cfg payload oauth coverageDir secretMap :
  wp (coordMon (negb (bool_decide (payloadEventType payload = EventPush))))
     (Coord 0 false false)
     (runNewVersion G cfg payload oauth coverageDir secretMap)
     (λ ms r, launched ms = true → r = None ∨ r = Some (generic G)).
Proof.
  unfold runNewVersion.
  destruct (DiscoverMode cfg); [|wp_go; try done; auto].
  wp_go; try done; try (intros; by auto).
  all: try match goal with
           | |- context [errs.Is ?e ?t] => destruct (errs.Is e t)
           end.
  all: try (simpl; done).
  all: apply wp_bind;
    destruct (bool_decide (payloadEventType payload = EventPush)); simpl.
  all: try apply wp_bind.
  all: (eapply wp_mono; [|apply launch_loop_coordMon]).
  all: intros [p w l] u [Hp Hw]; simpl in *; subst; wp_go; try done; auto.
Qed.

End WaitGroup.

Lemma wg_record e s : wg (record e s) = wg s.
Proof. done. Qed.

Lemma wg_setEnvOf which m s : wg (setEnvOf which m s) = wg s.
Proof. by destruct which. Qed.

(** What one call does to the WaitGroup's counter. *)
Lemma exec_wg W tid s c :
  match exec W tid s c with
  | Returns _ s' =>
      wg s' = wg s + match c with WgAdd n => n | WgDone => -1 | _ => 0 end ∧
      (c = WgWait → wg s = 0)
  | Panics _ s' => wg s' = wg s
  | Exits _ s' => match c with OsExit _ | Fatalf _ => True | _ => False end
  | Blocks => True
  end.
Proof.
  destruct c; simpl; unfold ask, local; try done;
    try (destruct (W (trace s) _); simpl; rewrite ?wg_setEnvOf;
         (done || (split; [lia|done])));
    try (destruct (taskPayload s); simpl; (done || (split; [lia|done])));
    try (destruct (envOf s _); simpl; rewrite ?wg_setEnvOf;
         (done || (split; [lia|done])));
    try (case_bool_decide; simpl; (done || (split; [lia|done])));
    try (split; [lia|done]).
Qed.

Lemma owed_app ds d : owed (ds ++ [d]) = owed ds + 1 - Z.of_nat d.
Proof.
  unfold owed. rewrite length_app, sum_list_with_app. simpl. lia.
Qed.

Lemma owed_insert ds i d d' :
  ds !! i = Some d →
  owed (<[i := d']> ds) = owed ds + Z.of_nat d - Z.of_nat d'.
Proof.
  unfold owed. rewrite length_insert. revert i.
  induction ds as [|x ds IH]; intros [|i]; simpl; try done.
  - intros [= ->]. lia.
  - intros Hi. specialize (IH i Hi). lia.
Qed.

Lemma owed_nonneg ds : Forall (λ d, (d ≤ 1)%nat) ds → 0 ≤ owed ds.
Proof.
  unfold owed. induction 1 as [|d ds Hd _ IH]; simpl; lia.
Qed.

Lemma owed_zero ds i d :
  Forall (λ d, (d ≤ 1)%nat) ds → owed ds = 0 → ds !! i = Some d → d = 1%nat.
Proof.
  intros Hds. revert i. induction Hds as [|x ds Hx Hds IH]; intros i; [done|].
  pose proof (owed_nonneg ds Hds) as Hnn. unfold owed in *. simpl in *.
  intros Hz. destruct i as [|i]; simpl.
  - intros [= ->]. lia.
  - apply IH. lia.
Qed.

Lemma donesBy_app tid tr1 tr2 :
  donesBy tid (tr1 ++ tr2) = (donesBy tid tr1 + donesBy tid tr2)%nat.
Proof. unfold donesBy. by rewrite filter_app, length_app. Qed.

Lemma donesBy_one tid e :
  donesBy tid [e] = if isDoneBy tid e then 1%nat else 0%nat.
Proof.
  unfold donesBy. rewrite filter_cons, filter_nil.
  destruct (isDoneBy tid e); by case_decide.
Qed.

Lemma donesBy_other tid tid' c r :
  tid ≠ tid' → donesBy tid [Event tid' c r] = 0%nat.
Proof.
  intros Hne. rewrite donesBy_one. unfold isDoneBy. simpl.
  by rewrite bool_decide_eq_false_2 by done.
Qed.

Lemma donesBy_panic tid tid' c : donesBy tid [Event tid' c None] = 0%nat.
Proof.
  rewrite donesBy_one. unfold isDoneBy. simpl.
  by destruct (bool_decide (tid' = tid)), c.
Qed.

Lemma donesBy_own tid c (r : reply c) :
  donesBy tid [Event tid c (Some r)]
  = match c with WgDone => 1%nat | _ => 0%nat end.
Proof.
  rewrite donesBy_one. unfold isDoneBy. simpl.
  rewrite bool_decide_eq_true_2 by done.
  by destruct c.
Qed.

Lemma donesBy_fresh tid tr :
  Forall (λ e, (ev_tid e < tid)%nat) tr → donesBy tid tr = 0%nat.
Proof.
  unfold donesBy. induction 1 as [|e tr He _ IH]; [done|].
  change (e :: tr) with ([e] ++ tr). rewrite filter_app, length_app.
  fold (donesBy tid [e]). rewrite donesBy_one, IH. unfold isDoneBy.
  rewrite (bool_decide_eq_false_2 (ev_tid e = tid)) by lia. done.
Qed.

Section Barrier.
Context (G : Globals) (W : World) (barrier : bool).

Lemma taskOk_le ts ds :
  Forall2 taskOk ts ds → Forall (λ d, (d ≤ 1)%nat) ds.
Proof. induction 1 as [|t d ts ds [Hd _] _ IH]; constructor; done. Qed.

Lemma wgInv_main_step P ms ds P' :
  wgInv G barrier P ms ds → step G W 0 P = Some P' → ∃ ms' ds', wgInv G barrier P' ms' ds'.
Proof.
  intros [Hmain Htasks Hwg Hpend Hwait Hlaunch Hdones Htids].
  unfold step. destruct (ended P); [done|].
  destruct (mainT P) as [[r|c k]|msg] eqn:Hm; simpl; try done.
  pose proof (exec_wg W 0 (mem P) c) as Hewg.
  pose proof (exec_trace W 0 (mem P) c) as Hetr.
  destruct Hmain as [Hallowed Hk].
  pose proof (taskOk_le _ _ Htasks) as Hle.
  pose proof (owed_nonneg _ Hle) as Hnn.
  pose proof (Forall2_length _ _ _ Htasks) as Hlen.
  destruct (exec W 0 (mem P) c) as [r s'|msg s'|code s'|] eqn:He;
    simpl; intros [= <-].
  - (* the call returned *)
    destruct Hewg as [Hewg Hwaitret]. specialize (Hk r).
    exists (next (coordMon barrier) ms c r),
           (ds ++ ((λ _, 0%nat) <$> launchedBy c)).
    assert (∀ i d, (ds ++ ((λ _, 0%nat) <$> launchedBy c)) !! i = Some d →
              donesBy (S i) (trace s') = d) as Hdones'.
    { intros i d Hi. rewrite Hetr, donesBy_app.
      rewrite (donesBy_other (S i) 0) by done.
      apply lookup_app_Some in Hi as [Hi|[Hge Hi]].
      - rewrite (Hdones i d Hi). lia.
      - rewrite donesBy_fresh.
        + destruct c; simpl in Hi; try by rewrite lookup_nil in Hi.
          apply list_lookup_singleton_Some in Hi as [_ <-]. lia.
        + eapply Forall_impl; [exact Htids|]. simpl. intros e ?. lia. }
    assert (Forall (λ e, (ev_tid e ≤ length (tasks P ++
               ((λ g, Live (goFunc G g)) <$> launchedBy c)))%nat) (trace s'))
      as Htids'.
    { rewrite Hetr. apply Forall_app. split.
      - eapply Forall_impl; [exact Htids|]. simpl. intros e ?.
        rewrite length_app. lia.
      - repeat constructor. simpl. lia. }
    destruct c; simpl in *;
      try (rewrite ?app_nil_r in *; split; simpl;
           [done|done|lia|done
           |intros Hw; specialize (Hwait Hw); lia|done|done|done]).
    + (* wg.Add(n) *)
      destruct Hallowed as [Hn Hw]. rewrite ?app_nil_r in *.
      split; simpl; [done|done|lia|lia|congruence|done|done|done].
    + (* wg.Wait() *)
      rewrite ?app_nil_r in *. specialize (Hwaitret eq_refl).
      split; simpl; [done|done|lia|done|lia|done|done|done].
    + (* go func *)
      split; simpl.
      * done.
      * apply Forall2_app; [done|]. repeat constructor.
        apply goFunc_taskMon.
      * rewrite owed_app. lia.
      * lia.
      * intros Hw. specialize (Hwait Hw). lia.
      * done.
      * done.
      * done.
  - (* the call panicked: the main goroutine is dead *)
    exists ms, ds. rewrite app_nil_r. split; simpl; try done.
    + lia.
    + intros Hw. specialize (Hwait Hw). lia.
    + intros i d Hi. rewrite Hetr, donesBy_app, donesBy_panic.
      rewrite (Hdones i d Hi). lia.
    + rewrite Hetr. apply Forall_app. split; [done|].
      repeat constructor. simpl. lia.
  - (* the main goroutine does not end the process *)
    by destruct c.
Qed.

Lemma wgInv_task_step P ms ds i P' :
  wgInv G barrier P ms ds → step G W (S i) P = Some P' → ∃ ms' ds', wgInv G barrier P' ms' ds'.
Proof.
  intros [Hmain Htasks Hwg Hpend Hwait Hlaunch Hdones Htids].
  unfold step. destruct (ended P); [done|].
  destruct (tasks P !! i) as [t0|] eqn:Hi; simpl; [|done].
  destruct t0 as [[u|c k]|msg]; simpl; try done.
  pose proof (exec_wg W (S i) (mem P) c) as Hewg.
  pose proof (exec_trace W (S i) (mem P) c) as Hetr.
  pose proof (taskOk_le _ _ Htasks) as Hle.
  pose proof (owed_nonneg _ Hle) as Hnn.
  pose proof (lookup_lt_Some _ _ _ Hi) as Hlt.
  destruct (Forall2_lookup_l _ _ _ _ _ Htasks Hi)
    as (d & Hd & Hd1 & Hallowed & Hk).
  assert (Forall (λ e, (ev_tid e ≤ length (tasks P))%nat)
            (trace (mem P) ++ [Event (S i) c None])) as Htids_panic.
  { apply Forall_app. split; [done|]. repeat constructor. simpl. lia. }
  destruct (exec W (S i) (mem P) c) as [r s'|msg s'|code s'|] eqn:He;
    simpl; intros [= <-].
  - (* the call returned *)
    destruct Hewg as [Hewg _]. specialize (Hk r).
    assert (launchedBy c = []) as -> by (by destruct c).
    exists ms, (<[i := next taskMon d c r]> ds). simpl. rewrite app_nil_r.
    assert (∀ j d', <[i := next taskMon d c r]> ds !! j = Some d' →
              donesBy (S j) (trace s') = d') as Hdones'.
    { intros j d' Hj. rewrite Hetr, donesBy_app.
      destruct (decide (i = j)) as [<-|Hne].
      - rewrite list_lookup_insert_eq in Hj by (by eapply lookup_lt_Some).
        injection Hj as <-. rewrite (Hdones i d Hd), donesBy_own.
        destruct c; simpl; lia.
      - rewrite list_lookup_insert_ne in Hj by done.
        rewrite (Hdones j d' Hj), donesBy_other by lia. lia. }
    assert (Forall (λ e, (ev_tid e ≤ length (<[i := Live (k r)]> (tasks P)))%nat)
              (trace s')) as Htids'.
    { rewrite Hetr, length_insert. apply Forall_app. split; [done|].
      repeat constructor. simpl. lia. }
    assert (Forall2 taskOk (<[i := Live (k r)]> (tasks P))
              (<[i := next taskMon d c r]> ds)) as Htasks'.
    { apply Forall2_insert; [done|]. split; [|done].
      destruct c; simpl in *; try lia. }
    assert (<[i := Live (k r)]> (tasks P) ≠ [] → launched ms = true)
      as Hlaunch'.
    { intros _. apply Hlaunch. intros Hnil. by rewrite Hnil in Hi. }
    split; simpl; try done.
    + rewrite (owed_insert _ _ _ _ Hd). destruct c; simpl in *; lia.
    + intros Hw. specialize (Hwait Hw).
      assert (d = 1%nat) by (eapply owed_zero; [done|lia|done]).
      destruct c; simpl in *; lia.
  - (* the call panicked: the process ends *)
    exists ms, ds. simpl. rewrite app_nil_r.
    split; simpl; try done.
    + apply Forall2_same_length_lookup_2; [by rewrite length_insert;
        eapply Forall2_length|].
      intros j t d' Hj Hd'. destruct (decide (i = j)) as [<-|Hne].
      * rewrite list_lookup_insert_eq in Hj by done. injection Hj as <-.
        rewrite Hd in Hd'. injection Hd' as <-. by split.
      * rewrite list_lookup_insert_ne in Hj by done.
        eapply Forall2_lookup_lr; eauto.
    + lia.
    + intros Hw. specialize (Hwait Hw). lia.
    + intros _. apply Hlaunch. intros Hnil. by rewrite Hnil in Hi.
    + intros j d' Hj. rewrite Hetr, donesBy_app, donesBy_panic.
      rewrite (Hdones j d' Hj). lia.
    + rewrite Hetr, length_insert. done.
  - (* a launched goroutine does not end the process *)
    by destruct c.
Qed.

Lemma wgInv_step tid P ms ds P' :
  wgInv G barrier P ms ds → step G W tid P = Some P' → ∃ ms' ds', wgInv G barrier P' ms' ds'.
Proof.
  destruct tid; [apply wgInv_main_step|apply wgInv_task_step].
Qed.

Lemma wgInv_reachable P0 ms0 ds0 P :
  wgInv G barrier P0 ms0 ds0 → reachable G W P0 P → ∃ ms ds, wgInv G barrier P ms ds.
Proof.
  intros H0. apply (reachable_ind G W (λ P, ∃ ms ds, wgInv G barrier P ms ds)); [eauto|].
  intros tid P1 P2 (ms & ds & HI) Hstep. by eapply wgInv_step.
Qed.

End Barrier.




Lemma reachable_steps (G : Globals) (W : World) sched P0 P :
  steps G W sched P0 = Some P → reachable G W P0 P.
Proof. intros H. by exists sched. Qed.

Lemma coordinator_wgInv (G : Globals) (W : World) cfg payload oauth
    coverageDir secretMap s0 :
  wg s0 = 0 → trace s0 = [] →
  wgInv G (negb (bool_decide (payloadEventType payload = EventPush)))
    (coordinator G cfg payload oauth coverageDir secretMap s0)
    (Coord 0 false false) [].
Proof.
  intros Hwg Htr. split; simpl; try done.
  - apply (runNewVersion_coordMon G cfg payload oauth coverageDir secretMap).
  - by rewrite Htr.
Qed.


(** X1. The barrier of the pull-request branch: whenever the main goroutine
    of a run that is not for a push event is about to call [CacheWorkspace],
    the WaitGroup's counter is 0 and every launched goroutine has called
    [wg.Done()]. *)
Theorem pull_request_barrier (G : Globals) (W : World) (cfg : NucleusConfig)
    (payload : Payload) (oauth : Oauth) (coverageDir : string)
    (secretMap : gmap string string) (s0 : state) (P : pool) :
  payloadEventType payload ≠ EventPush →
  wg s0 = 0 → trace s0 = [] →
  reachable G W (coordinator G cfg payload oauth coverageDir secretMap s0) P →
  aboutToCacheWorkspace P = true →
  wg (mem P) = 0 ∧
  ∀ i, (i < length (tasks P))%nat → donesBy (S i) (trace (mem P)) = 1%nat.
Proof.
  intros Hev Hwg Htr Hreach Hm.
  destruct (wgInv_reachable G W _ _ _ _ _
              (coordinator_wgInv G W cfg payload oauth coverageDir secretMap
                 s0 Hwg Htr) Hreach)
    as (ms & ds & [Hmain Htasks Hwg' Hpend Hwait Hlaunch Hdones Htids]).
  unfold aboutToCacheWorkspace in Hm.
  destruct (mainT P) as [[r|c k]|msg]; try done. destruct c; try done.
  destruct Hmain as [Hallowed _]. simpl in Hallowed.
  rewrite bool_decide_eq_false_2 in Hallowed by done.
  specialize (Hwait (Hallowed eq_refl)). split; [done|].
  intros i Hi. pose proof (taskOk_le _ _ Htasks) as Hle.
  pose proof (owed_nonneg _ Hle).
  rewrite (Forall2_length _ _ _ Htasks) in Hi.
  destruct (lookup_lt_is_Some_2 ds i Hi) as [d Hd].
  rewrite (Hdones i d Hd). eapply owed_zero; [done|lia|done].
Qed.

(** ** The cache upload of [runNewVersion] *)

Lemma uploadsIn_cons (o : obs) (π : list obs) :
  uploadsIn (o :: π) = ((if isUpload o then 1 else 0) + uploadsIn π)%nat.
Proof.
  unfold uploadsIn. rewrite filter_cons. destruct (isUpload o); by case_decide.
Qed.

Lemma countUploads_after {A} (p : prog A) (π : list obs) (a : A) (n : nat) :
  finishes p π a → after countUploads n π = (n + uploadsIn π)%nat.
Proof.
  revert π n. induction p as [a'|c k IH]; simpl; intros π n.
  - intros [-> _]. unfold uploadsIn. simpl. lia.
  - intros (r & π' & -> & Hf). simpl. rewrite (IH r π' _ Hf), uploadsIn_cons.
    unfold isUpload. destruct c; simpl; lia.
Qed.

Lemma runNewVersion_countUploads G cfg payload oauth coverageDir secretMap :
  wp countUploads 0%nat
     (runNewVersion G cfg payload oauth coverageDir secretMap)
     (λ n r, r = None → DiscoverMode cfg = true → n = 2%nat).
Proof.
  unfold runNewVersion.
  destruct (DiscoverMode cfg); [|wp_go; try done].
  wp_go; try done.
  all: try match goal with
           | |- context [errs.Is ?e ?t] => destruct (errs.Is e t)
           end.
  all: try (simpl; done).
  all: apply wp_bind;
    destruct (bool_decide (payloadEventType payload = EventPush)); simpl.
  all: try apply wp_bind.
  all: (eapply wp_mono; [|apply (wp_forRange _ (λ n, n = 0%nat)); [|done]]).
  all: try (intros n u ->; wp_go; done).
  all: intros sub n _ ->; wp_go.
Qed.

(** C2.  A run of [runNewVersion] in discover mode that returns nil has
    called [CacheStore.Upload] twice, not once. *)
Theorem cache_uploaded_twice (G : Globals) (cfg : NucleusConfig)
    (payload : Payload) (oauth : Oauth) (coverageDir : string)
    (secretMap : gmap string string) (π : list obs) :
  DiscoverMode cfg = true →
  finishes (runNewVersion G cfg payload oauth coverageDir secretMap) π None →
  uploadsIn π = 2%nat.
Proof.
  intros Hmode Hfin.
  destruct (wp_finishes countUploads _ _ _ _ _
              (runNewVersion_countUploads G cfg payload oauth coverageDir
                 secretMap) Hfin) as [_ Hn].
  rewrite (countUploads_after _ _ _ _ Hfin) in Hn. by apply Hn.
Qed.

Lemma cache_uploaded_twice_witness :
  DiscoverMode Scenario.cfg = true ∧
  finishes (runNewVersion Scenario.G Scenario.cfg (Scenario.payload EventPush)
              Scenario.oauth "/tmp/coverage" ∅) pushRunOfMain None ∧
  uploadsIn pushRunOfMain = 2%nat.
Proof.
  assert (finishes (runNewVersion Scenario.G Scenario.cfg
                      (Scenario.payload EventPush) Scenario.oauth
                      "/tmp/coverage" ∅) pushRunOfMain None) as Hfin.
  { unfold pushRunOfMain. simpl.
    repeat (eexists _, _; split; [reflexivity|simpl]). done. }
  split_and!; [reflexivity|exact Hfin|].
  exact (cache_uploaded_twice Scenario.G Scenario.cfg
           (Scenario.payload EventPush) Scenario.oauth "/tmp/coverage" ∅
           pushRunOfMain eq_refl Hfin).
Defined.

(** ** The push branch of [runNewVersion] does not wait *)

(** C1, on a push event.  The schedule that runs the main goroutine only
    is a run of the pool.  After five steps the main goroutine is about to
    call [CacheWorkspace] while the WaitGroup's counter is 1 and the
    launched goroutine has not made its first call; it goes on without
    waiting, and after eight steps it has returned nil, having called
    [CacheWorkspace] and [Upload], with the counter still 1 and no
    [wg.Done()] made. *)
Theorem push_does_not_wait_for_submodules :
  let W := Scenario.world (Scenario.happy EventPush 2) in
  (∃ P, steps Scenario.G W (replicate 5 0%nat) pushPool = Some P ∧
        aboutToCacheWorkspace P = true ∧ wg (mem P) = 1 ∧
        notStarted <$> tasks P = [true] ∧
        donesBy 1 (trace (mem P)) = 0%nat ∧
        is_Some (step Scenario.G W 0 P)) ∧
  (∃ P, steps Scenario.G W (replicate 8 0%nat) pushPool = Some P ∧
        returnedNil P = true ∧ wg (mem P) = 1 ∧
        notStarted <$> tasks P = [true] ∧
        donesBy 1 (trace (mem P)) = 0%nat ∧
        omap (λ c, match c with
                   | CacheWorkspace => Some "CacheWorkspace"
                   | Upload _ _ => Some "Upload"
                   | _ => None
                   end) (Scenario.calls (mem P))
        = ["CacheWorkspace"; "Upload"; "Upload"]).
Proof.
  split.
  - eexists. split; [vm_compute; reflexivity|]. vm_compute.
    split_and!; try reflexivity. eauto.
  - eexists. split; [vm_compute; reflexivity|]. vm_compute.
    split_and!; reflexivity.
Qed.

(** ** The remark of a run that cannot read the OAuth secret *)

(** C3, for an error that is neither a cancellation nor a
    [StatusFailed].  When [GetOauthSecret] fails, [Start] returns its
    error as it is (line 127), and the deferred function reports status
    [Error] with that error's own text as the remark, which is not the
    generic remark; when [GetRepoSecret] fails with the same error, the
    next statements of [Start] replace it, and the remark is the generic
    one.  No goroutine is launched in these runs: the schedule of the main
    goroutine is the run, and at its end [Start] has returned nil. *)
Theorem oauth_error_reaches_the_remark :
  errs.Is secretsUnreadable errs.Canceled = false ∧
  errs.isStatusFailed secretsUnreadable = false ∧
  (∃ P, Start_steps Scenario.G (Scenario.world oauthDown) Scenario.cfg
          (replicate 16 0%nat) (Start Scenario.cfg init) = Some P ∧
        mainG P = HasReturned None ∧ goroutines P = [] ∧
        statusAndRemark <$> reported (trace (memory P))
        = [ (Running, EmptyString);
            (Error, "open /vault/secrets/oauth: permission denied") ]) ∧
  "open /vault/secrets/oauth: permission denied"
  ≠ GenericErrRemark Scenario.G ∧
  (∃ P, Start_steps Scenario.G (Scenario.world repoSecretDown) Scenario.cfg
          (replicate 17 0%nat) (Start Scenario.cfg init) = Some P ∧
        mainG P = HasReturned None ∧ goroutines P = [] ∧
        statusAndRemark <$> reported (trace (memory P))
        = [ (Running, EmptyString); (Error, GenericErrRemark Scenario.G) ]).
Proof.
  split_and!; try by vm_compute.
  - eexists. split; [vm_compute; reflexivity|]. vm_compute.
    split_and!; reflexivity.
  - eexists. split; [vm_compute; reflexivity|]. vm_compute.
    split_and!; reflexivity.
Qed.

(** ** A diff that is not found *)






Section DiffNotFound.
Context (G : Globals).









End DiffNotFound.



(** ** The parts of [Start] *)

Section ReturnsNil.
Context (G : Globals).

Lemma Start_deferred_anyCall p err :
  wp anyCall tt (Start_deferred G p err) (λ _ r, r = None).
Proof.
  unfold Start_deferred, noreturn.
  destruct p as [msg|]; [|destruct err as [e|]];
    [| destruct (errs.Is e errs.Canceled);
       [|destruct (errs.isStatusFailed e)] |]; wp_go.
  all: match goal with r : Empty_set |- _ => destruct r | _ => idtac end.
Qed.

End ReturnsNil.



Section Reports.
Context (G : Globals).

Lemma Discover_reportsNothing tasConfig payload secretData diff diffExists :
  wp reportsNothing tt
     (Discover G tasConfig payload secretData diff diffExists) (λ _ _, True).
Proof.
  unfold Discover, updateResult.
  destruct (bool_decide (payloadEventType payload = EventPullRequest)); wp_go.
Qed.

Lemma runOldVersion_reportsNothing cfg payload oauth coverageDir secretMap :
  wp reportsNothing tt
     (runOldVersion G cfg payload oauth coverageDir secretMap) (λ _ _, True).
Proof.
  unfold runOldVersion, installNodeVersion. simpl. split; [done|].
  intros [tasConfig [e|]]; simpl; [done|].
  apply wp_bind. eapply wp_mono with (Q := λ _ _, True).
  2:{ case_bool_decide; wp_go. }
  intros [] [nodeErr|] _; simpl; [done|].
  apply wp_bind. eapply wp_mono with (Q := λ _ _, True).
  2:{ destruct (DiscoverMode cfg); [|done].
      destruct (Prerun tasConfig); wp_go.
      all: match goal with
           | |- context [errs.Is ?e _] => destruct (errs.Is e _)
           | _ => idtac
           end; simpl; try done.
      all: apply wp_bind; eapply wp_mono; [|apply Discover_reportsNothing];
        intros [] [?|] _; wp_go. }
  intros [] [e1|] _; simpl; [done|].
  apply wp_bind. eapply wp_mono with (Q := λ _ _, True).
  2:{ destruct (ExecuteMode cfg || FlakyMode cfg); [|done].
      wp_go. case_bool_decide; simpl; [done|].
      destruct (Postrun tasConfig); wp_go. }
  by intros [] [e2|] _.
Qed.

Lemma runNewVersion_reportsNothing cfg payload oauth coverageDir secretMap :
  wp reportsNothing tt
     (runNewVersion G cfg payload oauth coverageDir secretMap) (λ _ _, True).
Proof.
  unfold runNewVersion.
  destruct (DiscoverMode cfg); [|wp_go].
  wp_go.
  all: try match goal with
           | |- context [errs.Is ?e ?t] => destruct (errs.Is e t)
           end.
  all: try (simpl; done).
  all: apply wp_bind;
    destruct (bool_decide (payloadEventType payload = EventPush)); simpl.
  all: try apply wp_bind.
  all: (eapply wp_mono;
        [|apply (wp_forRange reportsNothing (λ _, True)); [|done]]).
  all: try (intros [] u _; wp_go).
  all: intros; wp_go.
Qed.

Lemma Start_body_reportsNothing cfg payload :
  wp reportsNothing tt (Start_body G cfg payload) (λ _ _, True).
Proof.
  unfold Start_body.
  pose proof (runOldVersion_reportsNothing cfg payload) as Hold.
  pose proof (runNewVersion_reportsNothing cfg payload) as Hnew.
  set (old := runOldVersion G) in *. set (new := runNewVersion G) in *.
  clearbody old new.
  wp_go. apply wp_bind. eapply wp_mono with (Q := λ _ _, True).
  2:{ destruct (DiscoverMode cfg); wp_go. }
  intros [] [e1|] _; simpl; [done|].
  apply wp_bind. eapply wp_mono with (Q := λ _ _, True).
  2:{ destruct (CollectCoverage payload); wp_go. }
  intros [] [e2|] _; simpl; [done|].
  wp_go. case_bool_decide; [apply Hnew|]. wp_go. apply Hold.
Qed.

Lemma reportsNothing_accepts tid (π : list obs) :
  accepts reportsNothing tt π → reported (map (tagged tid) π) = [].
Proof.
  induction π as [|[c r] π IH]; [done|]. intros [Hc Hacc]. simpl.
  destruct r as [r|]; [|subst π; by destruct c].
  rewrite (IH Hacc). by destruct c.
Qed.

Lemma reported_app evs1 evs2 :
  reported (evs1 ++ evs2) = reported evs1 ++ reported evs2.
Proof. apply omap_app. Qed.


Lemma Start_prologue_reports W cfg s payload s1 :
  run W 0 (Start_prologue cfg) s = (Returned payload, s1) →
  ∃ first, reported (trace s1) = reported (trace s) ++ [first] ∧
           tp_Status first = Running ∧ tp_Remark first = EmptyString.
Proof.
  unfold Start_prologue, noreturn.
  destruct (CoverageMode cfg); run_go; intros [= <- <-]; simpl.
  rewrite !reported_app. simpl. rewrite ?app_nil_r.
  eexists. split; [reflexivity|done].
Qed.


End Reports.





(** ** The errors of the pipeline *)

Section Sanitised.
Context (G : Globals).

Lemma Discover_anyCall {A} tasConfig payload secretData diff diffExists
    (Q : unit → A → Prop) (f : option error → prog A) s :
  (∀ err, wp anyCall tt (f err) Q) →
  wp anyCall s
     (bind (Discover G tasConfig payload secretData diff diffExists) f) Q.
Proof.
  intros Hf. destruct s. apply wp_bind. unfold Discover, updateResult.
  destruct (bool_decide (payloadEventType payload = EventPullRequest));
    wp_go; apply Hf.
Qed.

Lemma installNodeVersion_made nodeVersion :
  wp anyCall tt (installNodeVersion G nodeVersion)
     (λ _ r, ∀ e, r = Some e → madeByPipeline G e).
Proof.
  unfold installNodeVersion, madeByPipeline. wp_go; intros; simplify_eq; auto.
Qed.

Lemma runOldVersion_made cfg payload oauth coverageDir secretMap :
  wp anyCall tt (runOldVersion G cfg payload oauth coverageDir secretMap)
     (λ _ r, ∀ e, r = Some e → madeByPipeline G e).
Proof.
  unfold runOldVersion, madeByPipeline. simpl. split; [done|].
  intros [tasConfig [e|]]; simpl.
  { intros ? [= <-]. auto. }
  apply wp_bind.
  eapply wp_mono with
    (Q := λ _ r, ∀ e, r = Some e → madeByPipeline G e).
  2:{ case_bool_decide; [apply installNodeVersion_made|simpl; by intros]. }
  intros [] [nodeErr|] Hn; simpl.
  { intros ? [= <-]. by apply Hn. }
  clear Hn. apply wp_bind.
  eapply wp_mono with
    (Q := λ _ r, ∀ e, r = Some e → madeByPipeline G e).
  2:{ destruct (DiscoverMode cfg); [|simpl; by intros].
      destruct (Prerun tasConfig); wp_go;
        try (intros; simplify_eq; unfold madeByPipeline, generic; by auto).
      all: match goal with
           | |- context [errs.Is ?e _] => destruct (errs.Is e _)
           | _ => idtac
           end; simpl;
        try (intros; simplify_eq; unfold madeByPipeline, generic; by auto).
      all: apply Discover_anyCall; intros; wp_go;
        try (intros; simplify_eq; unfold madeByPipeline, generic; by auto). }
  intros [] [e1|] H1; simpl.
  { intros ? [= <-]. by apply H1. }
  clear H1. apply wp_bind.
  eapply wp_mono with
    (Q := λ _ r, ∀ e, r = Some e → madeByPipeline G e).
  2:{ destruct (ExecuteMode cfg || FlakyMode cfg); [|simpl; by intros].
      wp_go. case_bool_decide; simpl.
      { intros; simplify_eq; unfold madeByPipeline; auto. }
      destruct (Postrun tasConfig); wp_go;
        try (intros; simplify_eq; unfold madeByPipeline, generic; by auto). }
  intros [] [e2|] H2; simpl; [|done].
  intros ? [= <-]. by apply H2.
Qed.

Lemma launch_loop_anyCall (subModules : list SubModule)
    (launch : SubModule → goroutine) :
  wp anyCall tt
     (forRange subModules (λ subModule,
        _ <- call_ (WgAdd 1) ;; call_ (Go (launch subModule))))
     (λ _ _, True).
Proof.
  eapply wp_mono; [|apply (wp_forRange anyCall (λ _, True)); [|done]].
  - done.
  - intros; wp_go.
Qed.

Lemma runNewVersion_made cfg payload oauth coverageDir secretMap :
  wp anyCall tt (runNewVersion G cfg payload oauth coverageDir secretMap)
     (λ _ r, ∀ e, r = Some e → madeByPipeline G e).
Proof.
  unfold runNewVersion, madeByPipeline. simpl. split; [done|].
  intros [tasConfig [e|]]; simpl.
  { intros ? [= <-]. auto. }
  destruct (DiscoverMode cfg); [|simpl; by intros].
  wp_go; try (intros; simplify_eq; unfold generic; by auto).
  all: match goal with
       | |- context [errs.Is ?e _] => destruct (errs.Is e _)
       | _ => idtac
       end; simpl;
    try (intros; simplify_eq; unfold generic; by auto).
  all: apply wp_bind; case_bool_decide;
    [ eapply wp_mono; [|apply launch_loop_anyCall]
    | apply wp_bind; eapply wp_mono; [|apply launch_loop_anyCall] ];
    intros [] ? _; wp_go;
    try (intros; simplify_eq; unfold generic; by auto).
Qed.

Lemma madeByPipeline_not_Canceled e :
  madeByPipeline G e → errs.Is e errs.Canceled = false.
Proof. intros [->|[He| ->]]; [done| |done]. by destruct e. Qed.

End Sanitised.

(** X6. Of the errors that the statements of [Start] under the deferred
    function return, only the error of [GetOauthSecret] is a collaborator's
    own, returned at once; every other one is an error the pipeline made
    itself, and none of these is a cancellation. *)
Theorem only_oauth_error_is_passed_on (G : Globals) (cfg : NucleusConfig)
    (payload : Payload) (π : list obs) (e : error) :
  finishes (Start_body G cfg payload) π (Some e) →
  (∃ oauth,
     π = [Obs (GetOauthSecret (OauthSecretPath G)) (Some (oauth, Some e))]) ∨
  (madeByPipeline G e ∧ errs.Is e errs.Canceled = false).
Proof.
  unfold Start_body. simpl.
  intros ([oauth [e0|]] & π' & -> & Hf); cbv beta match in Hf.
  { destruct Hf as [-> [= ->]]. left. by exists oauth. }
  right. cut (madeByPipeline G e).
  { intros He. split; [done|]. by apply (madeByPipeline_not_Canceled G). }
  eapply (wp_finishes anyCall _ (λ _ r, ∀ e, r = Some e → madeByPipeline G e)
            tt) in Hf as [_ Hf]; [by apply Hf|].
  clear.
  pose proof (runOldVersion_made G cfg payload) as Hold.
  pose proof (runNewVersion_made G cfg payload) as Hnew.
  set (old := runOldVersion G) in *. set (new := runNewVersion G) in *.
  clearbody old new.
  wp_go; try (intros; simplify_eq; unfold madeByPipeline, generic; by auto).
  apply wp_bind.
  eapply wp_mono with (Q := λ _ r, ∀ e, r = Some e → madeByPipeline G e).
  2:{ destruct (DiscoverMode cfg); wp_go;
        intros; simplify_eq; unfold madeByPipeline, generic; by auto. }
  intros [] [e1|] H1; simpl.
  { intros ? [= <-]. by apply H1. }
  clear H1. apply wp_bind.
  eapply wp_mono with (Q := λ _ r, ∀ e, r = Some e → madeByPipeline G e).
  2:{ destruct (CollectCoverage payload); wp_go;
        intros; simplify_eq; unfold madeByPipeline, generic; by auto. }
  intros [] [e2|] H2; simpl.
  { intros ? [= <-]. by apply H2. }
  clear H2. wp_go; try (intros; simplify_eq; unfold madeByPipeline; by auto).
  case_bool_decide; [apply Hnew|].
  wp_go. apply Hold.
Qed.

Lemma only_oauth_error_is_passed_on_witness :
  let π := [Obs (GetOauthSecret "/vault/secrets/oauth")
              (Some (Scenario.oauth, Some cancelled))] in
  finishes (Start_body Scenario.G Scenario.cfg (Scenario.payload EventPush))
    π (Some cancelled) ∧
  ((∃ oauth,
     π = [Obs (GetOauthSecret (OauthSecretPath Scenario.G))
            (Some (oauth, Some cancelled))]) ∨
   (madeByPipeline Scenario.G cancelled ∧
    errs.Is cancelled errs.Canceled = false)).
Proof.
  assert (finishes (Start_body Scenario.G Scenario.cfg
                      (Scenario.payload EventPush))
            [Obs (GetOauthSecret "/vault/secrets/oauth")
               (Some (Scenario.oauth, Some cancelled))] (Some cancelled)) as Hf.
  { simpl. eexists (_, _), _. split; [reflexivity|]. done. }
  split; [exact Hf|].
  exact (only_oauth_error_is_passed_on Scenario.G Scenario.cfg
           (Scenario.payload EventPush) _ cancelled Hf).
Defined.


(** ** The schema-v2 path only discovers *)

Lemma exec_discoversOnly W tid s c :
  allowed discoversOnly tt c →
  match exec W tid s c with
  | Returns _ s' | Panics _ s' | Exits _ s' => taskPayload s' = taskPayload s
  | Blocks => True
  end.
Proof.
  intros Hallowed.
  destruct c; simpl in *; unfold ask, local; try done;
    try (destruct (W (trace s) _); simpl; rewrite ?taskPayload_setEnvOf; done);
    try (destruct (taskPayload s); simpl; done);
    try (destruct (envOf s _); simpl; rewrite ?taskPayload_setEnvOf; done);
    try (case_bool_decide; simpl; done).
  by destruct (taskPayload s) eqn:Htp.
Qed.

Section NoStatusInV2.
Context (G : Globals).

Lemma DiscoverV2_discoversOnly subModule payload secretData tasConfig
    diff diffExists :
  wp discoversOnly tt
     (DiscoverV2 G subModule payload secretData tasConfig diff diffExists)
     (λ _ _, True).
Proof.
  unfold DiscoverV2, updateResult. apply wp_bind.
  eapply wp_mono;
    [|apply (wp_forRange discoversOnly (λ _, True)); [|done]].
  - intros [] u _. wp_go.
  - intros; wp_go.
Qed.

Lemma goFunc_discoversOnly g :
  wp discoversOnly tt (goFunc G g) (λ _ _, True).
Proof.
  unfold goFunc, runDiscoveryForEachSubModule. apply wp_bind.
  destruct (sm_Prerun (g_subModule g)); wp_go;
    (apply wp_bind; eapply wp_mono; [|apply DiscoverV2_discoversOnly];
     intros [] err _; wp_go).
Qed.

Lemma launch_loop_discoversOnly (subModules : list SubModule)
    (launch : SubModule → goroutine) :
  wp discoversOnly tt
     (forRange subModules (λ subModule,
        _ <- call_ (WgAdd 1) ;; call_ (Go (launch subModule))))
     (λ _ _, True).
Proof.
  eapply wp_mono;
    [|apply (wp_forRange discoversOnly (λ _, True)); [|done]];
    [done|]. intros; wp_go.
Qed.

Lemma runNewVersion_discoversOnly cfg payload oauth coverageDir secretMap :
  wp discoversOnly tt
     (runNewVersion G cfg payload oauth coverageDir secretMap) (λ _ _, True).
Proof.
  unfold runNewVersion.
  destruct (DiscoverMode cfg); [|wp_go].
  wp_go.
  all: try match goal with
           | |- context [errs.Is ?e ?t] => destruct (errs.Is e t)
           end.
  all: try (simpl; done).
  all: apply wp_bind;
    destruct (bool_decide (payloadEventType payload = EventPush)); simpl.
  all: try apply wp_bind.
  all: (eapply wp_mono; [|apply launch_loop_discoversOnly]).
  all: intros [] u _; wp_go.
Qed.

Context (W : World).

Lemma discoversOnly_step s0 tid P P' :
  discoveringFrom s0 P → step G W tid P = Some P' → discoveringFrom s0 P'.
Proof.
  intros (Htp & (evs & Htr & Hevs) & Hmain & Htasks). unfold step.
  destruct (ended P); [done|].
  assert (∀ gs, Forall threadDiscoversOnly
                  ((λ g, Live (goFunc G g)) <$> gs : list (thread unit)))
    as Hnew.
  { intros gs. apply Forall_fmap, Forall_forall. intros g _.
    apply goFunc_discoversOnly. }
  assert (∀ tid c r (s' : state),
            allowed discoversOnly tt c →
            trace s' = trace (mem P) ++ [Event tid c r] →
            ∃ evs', trace s' = trace s0 ++ evs' ∧
                    Forall (λ e, allowed discoversOnly tt (ev_call e)) evs')
    as Hext.
  { intros tid' c r s' Hc ->. exists (evs ++ [Event tid' c r]).
    rewrite Htr, <-app_assoc. split; [done|].
    apply Forall_app. split; [done|]. by repeat constructor. }
  destruct tid as [|i].
  - destruct (mainT P) as [[r|c k]|msg] eqn:Hm; simpl; try done.
    pose proof Hmain as [Hc Hk].
    pose proof (exec_discoversOnly W 0 (mem P) c Hc) as He.
    pose proof (exec_trace W 0 (mem P) c) as Het.
    destruct (exec W 0 (mem P) c) as [r s'|msg s'|code s'|];
      simpl; intros [= <-]; unfold discoveringFrom; simpl;
      (split; [congruence|split; [by eapply Hext|split]]);
      rewrite ?app_nil_r; try done.
    + apply Hk.
    + apply Forall_app. auto.
  - destruct (tasks P !! i) as [t0|] eqn:Hi; simpl; [|done].
    pose proof (Forall_lookup_1 _ _ _ _ Htasks Hi) as Ht0.
    destruct t0 as [[u|c k]|msg]; simpl; try done.
    pose proof Ht0 as [Hc Hk].
    pose proof (exec_discoversOnly W (S i) (mem P) c Hc) as He.
    pose proof (exec_trace W (S i) (mem P) c) as Het.
    destruct (exec W (S i) (mem P) c) as [r s'|msg s'|code s'|];
      simpl; intros [= <-]; unfold discoveringFrom; simpl;
      (split; [congruence|split; [by eapply Hext|split; [done|]]]);
      rewrite ?app_nil_r.
    + apply Forall_app. split; [|done]. apply Forall_insert; [done|]. apply Hk.
    + by apply Forall_insert.
    + by apply Forall_insert.
Qed.

End NoStatusInV2.

(** X7. The schema-v2 path only discovers: in every interleaving of the main
    goroutine of [runNewVersion] and the goroutines it launches, nothing
    writes the task payload, reports it or executes tests, in whatever mode
    the run is. (So the status [Start] reports at the end of a v2 run
    without an error is the status set before: [Running].) *)
Theorem v2_only_discovers (G : Globals) (W : World) (cfg : NucleusConfig)
    (payload : Payload) (oauth : Oauth) (coverageDir : string)
    (secretMap : gmap string string) (s : state) (P : pool) :
  reachable G W (coordinator G cfg payload oauth coverageDir secretMap s) P →
  taskPayload (mem P) = taskPayload s ∧
  ∃ evs, trace (mem P) = trace s ++ evs ∧
         Forall (λ e, allowed discoversOnly tt (ev_call e)) evs.
Proof.
  intros Hreach.
  cut (discoveringFrom s P); [by intros (? & ? & _)|].
  refine (reachable_ind G W (discoveringFrom s)
            (coordinator G cfg payload oauth coverageDir secretMap s)
            _ _ P Hreach).
  - split; [done|split; [|split; [|by constructor]]].
    + exists []. by rewrite app_nil_r.
    + apply runNewVersion_discoversOnly.
  - intros tid P1 P2. apply discoversOnly_step.
Qed.


(** ** The process of [Start] *)

Section ProcessFacts.
Context (G : Globals) (W : World) (cfg : NucleusConfig).

(** An invariant of every step from [P0] holds wherever the process gets. *)
Lemma Start_reaches_ind (I : process → Prop) P0 :
  I P0 → (∀ tid P P', I P → Start_step G W cfg tid P = Some P' → I P') →
  ∀ P, Start_reaches G W cfg P0 P → I P.
Proof.
  intros H0 Hstep P [sched Hs]. revert P0 H0 Hs.
  induction sched as [|tid sched IH]; intros P0 H0; simpl.
  - by intros [= <-].
  - destruct (Start_step G W cfg tid P0) as [P1|] eqn:H1; simpl; [|done].
    apply IH. by eapply Hstep.
Qed.

End ProcessFacts.

(** The cases of a step of the process: [H] is the step. *)
Ltac step_cases H :=
  let deferred := fresh "deferred" in
  let body := fresh "body" in
  unfold Start_step in H;
  match type of H with
  | context [Start_deferred ?G] => remember (Start_deferred G) as deferred in H
  end;
  match type of H with
  | context [Start_body ?G ?cfg] => remember (Start_body G cfg) as body in H
  end;
  match type of H with
  | context [exitCode ?P] => destruct (exitCode P) eqn:?; [discriminate H|]
  end;
  match type of H with
  | context [match ?tid with O => _ | S _ => _ end] =>
      destruct tid as [|?i]
  end;
  [ match type of H with
    | context [mainG ?P] =>
        destruct (mainG P)
          as [[?payload|?c ?k]|[?err|?c ?k]|[?err|?c ?k]|?r|?msg] eqn:?
    end
  | match type of H with
    | context [goroutines ?P !! ?i] =>
        destruct (goroutines P !! i) as [[[?u|?c ?k]|?msg]|] eqn:?
    end ];
  unfold mainCall, moveTo in H; simpl in H; try discriminate H;
  try match type of H with
      | context [exec ?W ?t ?s ?c] =>
          let He := fresh "Hexec" in
          destruct (exec W t s c) as [?r ?s'|?msg ?s'|?code ?s'|] eqn:He;
          simpl in H; try discriminate H
      end;
  injection H as <-; subst deferred body.

Section NilResult.
Context (G : Globals) (W : World) (cfg : NucleusConfig).

Lemma returningNil_step tid P P' :
  returningNil P → Start_step G W cfg tid P = Some P' → returningNil P'.
Proof.
  unfold returningNil. intros Hinv Hstep. step_cases Hstep.
  all: cbn [mainG]; try done; try apply Start_deferred_anyCall.
  all: try apply Hinv.
Qed.

End NilResult.

(** X3. Whenever [Start] returns, it returns nil, whatever the main
    goroutine and the goroutines it launched did, in whatever order: the
    deferred function assigns what [Task.UpdateStatus] returned to the named
    result [err], so the error of a failed run reaches the task service and
    not the caller of [Start]. *)
Theorem Start_returns_nil (G : Globals) (W : World) (cfg : NucleusConfig)
    (s : state) (P : process) (r : option error) :
  Start_reaches G W cfg (Start cfg s) P → mainG P = HasReturned r → r = None.
Proof.
  intros Hreach Hr.
  cut (returningNil P); [unfold returningNil; by rewrite Hr|].
  refine (Start_reaches_ind G W cfg returningNil (Start cfg s) _ _ P Hreach).
  - done.
  - intros tid P1 P2. apply returningNil_step.
Qed.

Lemma exec_Exits W tid s c code s' :
  exec W tid s c = Exits code s' →
  c = OsExit code ∨ ∃ msg, c = Fatalf msg ∧ code = 1.
Proof.
  destruct c; simpl; unfold ask, local; try done;
    try (destruct (W (trace s) _); done);
    try (destruct (taskPayload s); done);
    try (destruct (envOf s _); done);
    try (case_bool_decide; done).
  - intros [= <- _]. by left.
  - intros [= <- _]. right. eauto.
Qed.

Lemma exec_mergesOnly W tid s st c :
  allowed mergesOnly st c →
  match exec W tid s c with
  | Returns _ s' | Panics _ s' | Exits _ s' => taskPayload s' = taskPayload s
  | Blocks => True
  end.
Proof.
  intros Hallowed.
  destruct c; simpl in *; unfold ask, local; try done;
    try (destruct (W (trace s) _); simpl; rewrite ?taskPayload_setEnvOf; done);
    try (destruct (taskPayload s); simpl; done);
    try (destruct (envOf s _); simpl; rewrite ?taskPayload_setEnvOf; done);
    try (case_bool_decide; simpl; done).
  by destruct (taskPayload s) eqn:Htp.
Qed.

Lemma existsb_snoc {A} (f : A → bool) (l : list A) (x : A) :
  existsb f (l ++ [x]) = existsb f l || f x.
Proof. rewrite existsb_app. simpl. by rewrite orb_false_r. Qed.

Section Coverage.
Context (G : Globals) (W : World) (cfg : NucleusConfig).

Lemma Start_prologue_mergesOnly :
  CoverageMode cfg = true →
  wp mergesOnly false (Start_prologue cfg) (λ _ _, False).
Proof.
  intros Hcov. unfold Start_prologue, noreturn. rewrite Hcov. wp_go.
  all: match goal with r : Empty_set |- _ => destruct r | _ => idtac end.
Qed.

Lemma mergingFrom_step s tid P P' :
  mergingFrom s P → Start_step G W cfg tid P = Some P' → mergingFrom s P'.
Proof.
  intros (Hgs & Htp & evs & Htr & Hrep & Hmain) Hstep. step_cases Hstep.
  all: try (match goal with
            | H : goroutines _ !! _ = Some _ |- _ =>
                rewrite Hgs in H; by rewrite lookup_nil in H
            end).
  all: try done.
  all: destruct Hmain as [Hc Hk].
  all: pose proof (exec_mergesOnly W 0 (memory P) _ c Hc) as Hframe.
  all: pose proof (exec_trace W 0 (memory P) c) as Htrace.
  all: rewrite Hexec in Hframe, Htrace.
  all: unfold mergingFrom; cbn [goroutines memory mainG exitCode].
  all: (split; [|split; [congruence|]]).
  all: try (rewrite Hgs; by destruct c).
  all: eexists; (split; [rewrite Htrace, Htr, <-app_assoc; reflexivity|]).
  all: rewrite reported_app, Hrep, ?existsb_snoc.
  - split; [by destruct c|].
    replace (existsb isMergeAndUploadOk evs
             || isMergeAndUploadOk (Event 0 c (Some r)))
      with (next mergesOnly (existsb isMergeAndUploadOk evs) c r);
      [apply Hk|].
    destruct c; simpl; rewrite ?orb_false_r; try done.
  - split; [by destruct c|done].
  - apply exec_Exits in Hexec as [->|(m & -> & ->)]; simpl in *.
    + destruct Hc as [-> ->]. by rewrite orb_false_r.
    + rewrite Hc. done.
Qed.

End Coverage.

(** X5. In coverage mode [Start] merges and uploads the coverage files and
    ends the process.  Wherever the process gets, [Start] has not returned,
    no goroutine was launched, the task payload is the one there was, and
    no task status was reported; when the process has ended, its exit code
    is 0 after a merge that succeeded and 1 otherwise. *)
Theorem coverage_mode_only_merges (G : Globals) (W : World)
    (cfg : NucleusConfig) (s : state) (P : process) :
  CoverageMode cfg = true →
  Start_reaches G W cfg (Start cfg s) P →
  (∀ r, mainG P ≠ HasReturned r) ∧
  goroutines P = [] ∧
  taskPayload (memory P) = taskPayload s ∧
  ∃ evs,
    trace (memory P) = trace s ++ evs ∧
    reported evs = [] ∧
    ∀ code, exitCode P = Some code →
      if existsb isMergeAndUploadOk evs then code = 0 else code = 1.
Proof.
  intros Hcov Hreach.
  cut (mergingFrom s P).
  { intros (Hgs & Htp & evs & Htr & Hrep & Hmain). split_and!; try done.
    - intros r Hr. by rewrite Hr in Hmain.
    - exists evs. split_and!; try done. intros code Hcode.
      rewrite Hcode in Hmain. destruct (mainG P); try done.
      by destruct (existsb isMergeAndUploadOk evs); subst. }
  refine (Start_reaches_ind G W cfg (mergingFrom s) (Start cfg s) _ _ P Hreach).
  - split_and!; try done. exists []. rewrite app_nil_r. split_and!; try done.
    by apply Start_prologue_mergesOnly.
  - intros tid P1 P2. apply mergingFrom_step.
Qed.

Lemma exec_reported W tid s c :
  match exec W tid s c with
  | Returns _ s' | Panics _ s' | Exits _ s' =>
      reported (trace s')
      = reported (trace s) ++ (if c is UpdateStatus t then [t] else [])
  | Blocks => True
  end.
Proof.
  pose proof (exec_trace W tid s c) as Htrace.
  destruct (exec W tid s c); try done;
    rewrite Htrace, reported_app; by destruct c.
Qed.

Lemma reportedSince_more s s1 s2 rest more :
  reportedSince s s1 rest →
  reported (trace s2) = reported (trace s1) ++ more →
  reportedSince s s2 (rest ++ more).
Proof.
  intros (first & Hrep & Hfirst) Hmore. exists first. split; [|done].
  by rewrite Hmore, Hrep, <-app_assoc.
Qed.

Lemma reportedSince_same s s1 s2 rest :
  reportedSince s s1 rest →
  reported (trace s2) = reported (trace s1) ++ [] →
  reportedSince s s2 rest.
Proof.
  intros H1 H2. rewrite <-(app_nil_r rest). by eapply reportedSince_more.
Qed.

Section Reporting.
Context (G : Globals) (W : World) (cfg : NucleusConfig).

Lemma Start_prologue_launchesNothing :
  wp launchesNothing tt (Start_prologue cfg) (λ _ _, True).
Proof.
  unfold Start_prologue, noreturn. destruct (CoverageMode cfg); wp_go.
  all: match goal with r : Empty_set |- _ => destruct r | _ => idtac end.
Qed.

Lemma Start_deferred_countReports p err :
  wp countReports 0%nat (Start_deferred G p err) (λ n _, n = 1%nat).
Proof.
  unfold Start_deferred, noreturn.
  destruct p as [msg|]; [|destruct err as [e|]];
    [| destruct (errs.Is e errs.Canceled);
       [|destruct (errs.isStatusFailed e)] |]; wp_go.
  all: match goal with r : Empty_set |- _ => destruct r | _ => idtac end.
Qed.

Lemma launched_discoverOnly (gs : list goroutine) :
  Forall threadDiscoversOnly
    ((λ g, Live (goFunc G g)) <$> gs : list (thread unit)).
Proof.
  apply Forall_fmap, Forall_forall. intros g _. apply goFunc_discoversOnly.
Qed.

Lemma reportingFrom_step s tid P P' :
  reportingFrom W cfg s P → Start_step G W cfg tid P = Some P' →
  reportingFrom W cfg s P'.
Proof.
  intros [Hgs Hmain] Hstep. step_cases Hstep.
  all: unfold reportingFrom; cbn [goroutines memory mainG exitCode].
  all: try match goal with
           | H : exec _ ?t ?s ?c = _ |- _ =>
               pose proof (exec_reported W t s c) as Hrep; rewrite H in Hrep
           end.
  (* a launched goroutine: it reports nothing *)
  all: try match goal with
       | H : goroutines _ !! _ = Some (Live (Do ?c0 _)) |- _ =>
           pose proof (Forall_lookup_1 _ _ _ _ Hgs H) as [Hc Hk];
           assert (reported (trace s')
                   = reported (trace (memory P)) ++ []) as Hsame
             by (rewrite Hrep; by destruct c0);
           (split;
            [ rewrite ?app_nil_r;
              try (apply Forall_app; split; [|apply launched_discoverOnly]);
              apply Forall_insert; try done; apply Hk
            | destruct (mainG P); try done;
              [ destruct Hmain as [Hnone _]; by rewrite Hnone in H
              | destruct Hmain as [Hsince Hwp]; split; [|done];
                by eapply reportedSince_same
              | destruct Hmain as (rest & Hsince & Hwp); exists rest;
                split; [|done]; by eapply reportedSince_same
              | destruct Hmain as (last & Hsince); exists last;
                by eapply reportedSince_same ] ])
       end.
  (* the main goroutine *)
  - destruct Hmain as (Hnone & _ & Hrun). split; [done|].
    specialize (Hrun eq_refl). cbn [run] in Hrun. symmetry in Hrun.
    destruct (Start_prologue_reports W cfg s _ _ Hrun)
      as (first & Hfirst & Hst).
    split; [by exists first|]. apply Start_body_reportsNothing.
  - destruct Hmain as (Hnone & [Hc Hk] & Hrun). rewrite Hnone.
    assert (launchedBy c = []) as -> by by destruct c.
    split; [done|]. split_and!; [done|apply Hk|]. intros _.
    rewrite <-Hrun by done. cbn [run]. by rewrite Hexec.
  - split; [|done]. rewrite app_nil_r. done.
  - destruct Hmain as (Hnone & Hwp & Hrun). rewrite Hnone.
    split; [done|]. split_and!; done.
  - destruct Hmain as [Hsince Hwp]. split; [done|].
    exists []. split; [done|]. apply Start_deferred_countReports.
  - destruct Hmain as [Hsince [Hc Hk]]. split.
    { apply Forall_app. split; [done|apply launched_discoverOnly]. }
    split; [|apply Hk].
    eapply reportedSince_same; [done|]. rewrite Hrep. by destruct c.
  - destruct Hmain as [Hsince [Hc Hk]]. rewrite app_nil_r. split; [done|].
    exists []. split; [|apply Start_deferred_countReports].
    eapply reportedSince_same; [done|]. rewrite Hrep. by destruct c.
  - destruct Hmain as [Hsince [Hc Hk]]. rewrite app_nil_r. split; [done|].
    split; [|done].
    eapply reportedSince_same; [done|]. rewrite Hrep. by destruct c.
  - destruct Hmain as (rest & Hsince & Hwp). split; [done|]. simpl in Hwp.
    destruct rest as [|last [|]]; try done. by exists last.
  - destruct Hmain as (rest & Hsince & [Hc Hk]). split.
    { apply Forall_app. split; [done|apply launched_discoverOnly]. }
    eexists. split; [by eapply reportedSince_more|].
    specialize (Hk r). rewrite length_app.
    destruct c; simpl in *; rewrite ?Nat.add_0_r, ?Nat.add_1_r; done.
  - split; [|done]. by rewrite app_nil_r.
  - destruct Hmain as (rest & Hsince & Hwp). rewrite app_nil_r.
    split; [done|]. exists rest. split; [|done].
    eapply reportedSince_same; [done|]. rewrite Hrep.
    by apply exec_Exits in Hexec as [->|(m & -> & _)].
Qed.

Lemma payloadSet_step s tid P P' :
  reportingFrom W cfg s P → payloadSet P →
  Start_step G W cfg tid P = Some P' → payloadSet P'.
Proof.
  intros [_ Hmain] Hset Hstep. unfold payloadSet in *. step_cases Hstep.
  all: cbn [goroutines memory mainG exitCode]; try done.
  all: try match goal with
           | H : exec _ ?t ?s ?c = _ |- _ =>
               pose proof (exec_taskPayload W t s c) as Hkeep;
               rewrite H in Hkeep
           end.
  all: try (by apply Hkeep).
  - destruct Hmain as (_ & _ & Hrun). specialize (Hrun eq_refl).
    cbn [run] in Hrun. symmetry in Hrun.
    by eapply Start_prologue_taskPayload.
  - destruct (mainG P); try done; by apply Hkeep.
  - destruct (mainG P); try done; by apply Hkeep.
  - destruct (mainG P); try done; by apply Hkeep.
Qed.

Lemma Start_reaches_reporting s P :
  Start_reaches G W cfg (Start cfg s) P →
  reportingFrom W cfg s P ∧ payloadSet P.
Proof.
  apply (Start_reaches_ind G W cfg
           (λ P, reportingFrom W cfg s P ∧ payloadSet P)).
  - split; [|done]. split; [by constructor|]. split_and!; try done.
    apply Start_prologue_launchesNothing.
  - intros tid P1 P2 [Hrep Hset] Hstep. split.
    + by eapply reportingFrom_step.
    + by eapply payloadSet_step.
Qed.

End Reporting.

(** X4. When [Start] has returned, the task was reported exactly twice,
    whatever the order in which the main goroutine and the goroutines it
    launched ran: once before the work, with the status [Running] and no
    remark, and once from the deferred function.  The launched goroutines
    report nothing. *)
Theorem Start_reports_twice (G : Globals) (W : World) (cfg : NucleusConfig)
    (s : state) (P : process) (r : option error) :
  Start_reaches G W cfg (Start cfg s) P →
  mainG P = HasReturned r →
  ∃ first last,
    reported (trace (memory P)) = reported (trace s) ++ [first; last] ∧
    tp_Status first = Running ∧ tp_Remark first = EmptyString.
Proof.
  intros Hreach Hr.
  cut (reportingFrom W cfg s P).
  { intros [_ Hmain]. rewrite Hr in Hmain.
    destruct Hmain as (last & first & Hrep & Hfirst). by exists first, last. }
  refine (Start_reaches_ind G W cfg (reportingFrom W cfg s) (Start cfg s)
            _ _ P Hreach).
  - split; [by constructor|]. split_and!; try done.
    apply Start_prologue_launchesNothing.
  - intros tid P1 P2. apply reportingFrom_step.
Qed.

Section Recovery.
Context (G : Globals) (W : World) (cfg : NucleusConfig).

Lemma Start_deferred_recovers msg :
  wp (recovers G) (Recovery false false None [])
     (Start_deferred G (Some msg) None)
     (λ ms' r, r = None ∧ ∃ t, sent ms' = [t]).
Proof.
  unfold Start_deferred, noreturn. wp_go; eauto.
  all: match goal with r : Empty_set |- _ => destruct r | _ => idtac end.
Qed.

Lemma recoveringFrom_step m tid P P' :
  recoveringFrom G W m P → Start_step G W cfg tid P = Some P' →
  recoveringFrom G W m P'.
Proof.
  intros (Hgs & ms & tp & Htp & Hst & Hrem & Hgot & Hsent & (evs & Htr & Hrep)
          & Hmain) Hstep.
  step_cases Hstep; try done.
  all: unfold recoveringFrom; cbn [goroutines memory mainG exitCode].
  all: try (pose proof (exec_trace W 0 (memory P) c) as Htrace;
            rewrite Hexec in Htrace).
  (* a launched goroutine *)
  all: try match goal with
       | H : goroutines _ !! ?j = Some (Live (Do ?c0 _)),
         Hexec : exec _ _ _ _ = _ |- _ =>
           pose proof (Forall_lookup_1 _ _ _ _ Hgs H) as [Hc Hk];
           pose proof (exec_discoversOnly W (S j) (memory P) c0 Hc) as Hframe;
           rewrite Hexec in Hframe;
           pose proof (exec_trace W (S j) (memory P) c0) as Htrace;
           rewrite Hexec in Htrace;
           (split;
            [ rewrite ?app_nil_r;
              try (apply Forall_app; split; [|apply launched_discoverOnly]);
              apply Forall_insert; try done; apply Hk
            | exists ms, tp; split_and!; try done; [congruence|];
              eexists;
              split; [rewrite Htrace, Htr, <-app_assoc; reflexivity|];
              rewrite reported_app, Hrep; destruct c0; simpl; try done;
              by rewrite app_nil_r ])
       end.
  (* the deferred function returns *)
  - simpl in Hmain. destruct Hmain as [-> Hone]. split; [done|].
    exists ms, tp. split_and!; try done. by exists evs.
  (* a call of the deferred function *)
  - destruct Hmain as [Hc Hk]. specialize (Hk r). split.
    { apply Forall_app. split; [done|]. by destruct c. }
    destruct c; try done; simpl in Hexec; unfold ask, local in Hexec;
      rewrite ?Htp in Hexec;
      try (destruct (W (trace (memory P)) _); try done);
      injection Hexec as <- <-; simpl in *;
      (eexists _, _; split_and!;
       [ first [reflexivity|exact Htp] | .. | | apply Hk ]; simpl; try done;
       try (eexists; split;
            [rewrite Htr, <-app_assoc; reflexivity
            |by rewrite reported_app, Hrep; simpl; rewrite ?app_nil_r])).
    + destruct Hc as [Hc _]. apply Forall_app. split; [done|].
      repeat constructor; by apply Hgot.
    + intros t [= <-]. destruct Hc as [Hs Hr]. split; auto.
  (* it panics *)
  - destruct Hmain as [Hc Hk]. rewrite app_nil_r. split; [done|].
    destruct c; try done; simpl in Hexec; unfold ask, local in Hexec;
      rewrite ?Htp in Hexec; try done;
      destruct (W (trace (memory P)) _) eqn:Hw; try done;
      injection Hexec as <- <-.
    + exists (Recovery (statusSet ms) (remarkSet ms) (got ms) (sent ms ++ [tp0])),
        tp.
      destruct Hc as [Hc _]. split_and!; try done.
      * apply Forall_app. split; [done|]. repeat constructor; by apply Hgot.
      * eexists. split; [simpl; rewrite Htr, <-app_assoc; reflexivity|].
        by rewrite reported_app, Hrep.
      * right. eauto.
    + exists ms, tp. split_and!; try done.
      * eexists. split; [simpl; rewrite Htr, <-app_assoc; reflexivity|].
        rewrite reported_app, Hrep. simpl. by rewrite app_nil_r.
      * left. eauto.
  (* it ends the process *)
  - destruct Hmain as [Hc Hk]. rewrite app_nil_r. split; [done|].
    assert (taskPayload s' = taskPayload (memory P)) as Hsame.
    { destruct c; try done; simpl in Hexec; unfold ask, local in Hexec;
        rewrite ?Htp in Hexec; try done;
        try (by destruct (W (trace (memory P)) _));
        by injection Hexec as _ <-. }
    exists ms, tp. split_and!; try done; [congruence|].
    eexists. split; [rewrite Htrace, Htr, <-app_assoc; reflexivity|].
    rewrite reported_app, Hrep.
    apply exec_Exits in Hexec as [->|(m0 & -> & _)]; simpl;
      by rewrite app_nil_r.
Qed.

End Recovery.

(** X23. A panic of the main goroutine under the deferred function is
    recovered, wherever it happens (also after [wg.Wait()]) and whatever the
    launched goroutines do beside it.  When the call the main goroutine is
    about to make panics, its next step starts the deferred function with
    that panic.  From there on every task payload that is reported has the
    status [Error] and the generic remark; when [Start] has returned, it
    has returned nil and exactly one such payload was reported; and with a
    clock and a status reporter that do not panic themselves, no panic
    leaves [Start]. *)
Theorem main_panic_is_recovered (G : Globals) (W : World)
    (cfg : NucleusConfig) (s : state) (P : process) (msg : string) :
  Start_reaches G W cfg (Start cfg s) P →
  exitCode P = None →
  panicsUnderDefer W P = Some msg →
  ∃ P', Start_step G W cfg 0 P = Some P' ∧
        mainG P' = InDeferred (Start_deferred G (Some msg) None) ∧
        ∀ P'', Start_reaches G W cfg P' P'' →
          ∃ evs,
            trace (memory P'') = trace (memory P') ++ evs ∧
            (∀ t, t ∈ reported evs →
                  tp_Status t = Error ∧ tp_Remark t = GenericErrRemark G) ∧
            (∀ r, mainG P'' = HasReturned r →
                  r = None ∧ ∃ t, reported evs = [t]) ∧
            ((∀ h m, W h TimeNow ≠ PanicsWith m) →
             (∀ h t m, W h (UpdateStatus t) ≠ PanicsWith m) →
             ∀ m, mainG P'' ≠ HasPanicked m).
Proof.
  intros Hreach Hexit Hpanic.
  destruct (Start_reaches_reporting G W cfg s P Hreach) as [[Hgs _] Hset].
  unfold panicsUnderDefer, payloadSet in *.
  destruct (mainG P) as [|[|c k]| | |] eqn:Hmain; try done.
  pose proof (exec_taskPayload W 0 (memory P) c Hset) as Hkeep.
  destruct (exec W 0 (memory P) c) as [|msg' s'| |] eqn:Hexec; try done.
  injection Hpanic as ->. destruct Hkeep as [tp Htp].
  eexists. split.
  { unfold Start_step. rewrite Hexit, Hmain. unfold mainCall. simpl.
    rewrite Hexec. reflexivity. }
  split; [done|]. intros P'' Hreach'. cbn [memory].
  cut (recoveringFrom G W s' P'').
  { intros (_ & ms & tp' & _ & _ & _ & _ & Hsent & (evs & Htr & Hrep) & Hend).
    exists evs. split_and!; try done.
    - intros t Ht. rewrite Hrep in Ht.
      by apply (proj1 (Forall_forall _ _) Hsent).
    - intros r Hr. rewrite Hr in Hend. by rewrite Hrep.
    - intros Hnow Hupd m Hm. rewrite Hm in Hend.
      destruct Hend as [[h Hw]|(h & t & Hw)]; [by eapply Hnow|by eapply Hupd]. }
  refine (Start_reaches_ind G W cfg (recoveringFrom G W s') _ _ _ P'' Hreach').
  - split; [simpl; by rewrite app_nil_r|].
    exists (Recovery false false None []), tp. cbn [goroutines memory mainG].
    split_and!; try done.
    + exists []. by rewrite app_nil_r.
    + apply Start_deferred_recovers.
  - intros tid P1 P2. apply recoveringFrom_step.
Qed.

(** C7, for a panic in a goroutine that [runNewVersion] launched.  The
    config of a pull-request run names no environment at the merge level,
    so [DiscoverV2] stores the entry of the submodule [web] into a nil map
    and panics, in the goroutine of [web], while the main goroutine waits in
    [wg.Wait()] under the deferred function.  That panic ends the process
    with exit code 2: the deferred function of [Start] never runs, no
    goroutine makes another step, and the only status that was reported is
    [Running].  A panic of the main goroutine in the same part of the run,
    in [CacheWorkspace] after [wg.Wait()], is recovered: [Start] returns nil
    and has reported [Error] with the generic remark. *)
Theorem goroutine_panic_is_not_recovered :
  (∃ P, Start_steps Scenario.G noEnv Scenario.cfg
          (upToTheWait ++ replicate 4 1%nat) (Start Scenario.cfg init)
        = Some P ∧
        goroutines P !! 0%nat = Some (Dead "assignment to entry in nil map") ∧
        exitCode P = Some 2 ∧
        waitsUnderDefer P = true ∧
        statusAndRemark <$> reported (trace (memory P))
        = [(Running, EmptyString)] ∧
        ∀ tid, Start_step Scenario.G noEnv Scenario.cfg tid P = None) ∧
  (∃ P, Start_steps Scenario.G cachePanics Scenario.cfg
          (upToTheWait ++ bothGoroutines ++ replicate 10 0%nat)
          (Start Scenario.cfg init) = Some P ∧
        mainG P = HasReturned None ∧ exitCode P = None ∧
        statusAndRemark <$> reported (trace (memory P))
        = [(Running, EmptyString); (Error, GenericErrRemark Scenario.G)]).
Proof.
  split.
  - eexists. split; [vm_compute; reflexivity|].
    split_and!; vm_compute; reflexivity.
  - eexists. split; [vm_compute; reflexivity|]. vm_compute.
    split_and!; reflexivity.
Qed.


(** ** The cache *)

Lemma uploadsOncePassed_after {A} (p : prog A) (π : list obs) (a : A)
    (b : bool) (n : nat) :
  finishes p π a →
  (after uploadsOncePassed (b, n) π).2 = (n + uploadsIn π)%nat.
Proof.
  revert π b n. induction p as [a'|c k IH]; simpl; intros π b n.
  - intros [-> _]. unfold uploadsIn. simpl. lia.
  - intros (r & π' & -> & Hf). simpl. rewrite uploadsIn_cons.
    destruct (match c with
              | SetStatus Passed => (true, n)
              | Upload _ _ => (b, S n)
              | _ => (b, n)
              end) as [b' n'] eqn:Hnext.
    rewrite (IH r π' _ _ Hf). unfold isUpload.
    destruct c; simpl in *; try case_match; simplify_eq; lia.
Qed.

Section V1Cache.
Context (G : Globals).

Lemma Discover_uploadsOncePassed tasConfig payload secretData diff
    diffExists s :
  wp uploadsOncePassed s
     (Discover G tasConfig payload secretData diff diffExists)
     (λ s' _, s' = s).
Proof.
  unfold Discover, updateResult.
  destruct (bool_decide (payloadEventType payload = EventPullRequest)); wp_go.
Qed.

Lemma runOldVersion_uploadsOncePassed cfg payload oauth coverageDir
    secretMap :
  wp uploadsOncePassed (false, 0%nat)
     (runOldVersion G cfg payload oauth coverageDir secretMap)
     (λ s r, (s.2 ≤ 1)%nat ∧
             (r = None → s.2 = if DiscoverMode cfg then 1%nat else 0%nat)).
Proof.
  unfold runOldVersion, installNodeVersion. simpl. split; [done|].
  intros [tasConfig [e|]]; simpl; [split; [lia|done]|].
  apply wp_bind.
  eapply wp_mono with (Q := λ s _, s = (false, 0%nat)).
  2:{ case_bool_decide; wp_go. }
  intros ? [nodeErr|] ->; simpl; [split; [lia|done]|].
  apply wp_bind.
  eapply wp_mono with
    (Q := λ s r, (s.2 ≤ 1)%nat ∧
                 (r = None → s.2 = if DiscoverMode cfg then 1%nat else 0%nat)).
  2:{ destruct (DiscoverMode cfg); [|simpl; split; [lia|done]].
      destruct (Prerun tasConfig); wp_go; try done; try lia.
      all: match goal with
           | |- context [errs.Is ?e _] => destruct (errs.Is e _)
           | _ => idtac
           end; simpl; try done; try lia.
      all: try (split; [lia|done]).
      all: apply wp_bind; eapply wp_mono;
        [|apply Discover_uploadsOncePassed];
        intros ? [?|] ->; wp_go; try done; try lia. }
  intros [b n] [e1|] [Hn H1]; simpl; [split; [done|done]|].
  specialize (H1 eq_refl). simpl in *. subst n.
  apply wp_bind.
  eapply wp_mono with
    (Q := λ s _, s.2 = if DiscoverMode cfg then 1%nat else 0%nat).
  2:{ destruct (ExecuteMode cfg || FlakyMode cfg); [|done].
      wp_go. case_bool_decide; simpl; [done|].
      destruct (Postrun tasConfig); wp_go;
        match goal with s : Status |- _ => by destruct s | _ => done end. }
  intros [b' n'] [e2|] Hn'; simpl in *; subst n';
    (split; [by destruct (DiscoverMode cfg); lia|done]).
Qed.

End V1Cache.

(** X8. In a schema-v1 run the cache is uploaded only after the status was
    set to [Passed] (discovery went through), and at most once; a run that
    returns nil has uploaded it once in discover mode and not at all
    otherwise. *)
Theorem v1_uploads_once_after_discovery (G : Globals) (cfg : NucleusConfig)
    (payload : Payload) (oauth : Oauth) (coverageDir : string)
    (secretMap : gmap string string) (π : list obs) (r : option error) :
  finishes (runOldVersion G cfg payload oauth coverageDir secretMap) π r →
  accepts uploadsOncePassed (false, 0%nat) π ∧
  (uploadsIn π ≤ 1)%nat ∧
  (r = None → uploadsIn π = if DiscoverMode cfg then 1%nat else 0%nat).
Proof.
  intros Hfin.
  destruct (wp_finishes uploadsOncePassed _ _ _ _ _
              (runOldVersion_uploadsOncePassed G cfg payload oauth coverageDir
                 secretMap) Hfin) as [Hacc [Hle Hn]].
  rewrite (uploadsOncePassed_after _ _ _ _ _ Hfin) in Hle, Hn. simpl in *.
  done.
Qed.


Section CacheKey.
Context (G : Globals) (payload : Payload).

Lemma cachesUnder_loaded (π : list obs) (cache : Cache) :
  accepts (cachesUnder payload) (Some cache) π →
  ∀ o, o ∈ π → loadedCache o = None ∧ cachedUnder payload cache (obs_call o).
Proof.
  induction π as [|[c r] π IH]; intros Hacc o Hin.
  { by apply elem_of_nil in Hin. }
  destruct Hacc as [Hc Hacc].
  assert (loadedCache (Obs c r) = None ∧ cachedUnder payload cache c) as Hhd.
  { destruct c; simpl in *; try done; destruct r; try done.
    all: destruct Hc as (cache' & [= <-] & Hc); done. }
  apply elem_of_cons in Hin as [->|Hin]; [done|].
  destruct r as [r|]; [|subst π; by apply elem_of_nil in Hin].
  apply IH; [|done]. simpl in Hacc.
  destruct Hhd as [Hhd _]. simpl in Hhd. by rewrite Hhd in Hacc.
Qed.

Lemma cachesUnder_unloaded (π : list obs) (cache : Cache) :
  accepts (cachesUnder payload) None π →
  (∃ o, o ∈ π ∧ loadedCache o = Some cache) →
  ∀ o, o ∈ π → cachedUnder payload cache (obs_call o).
Proof.
  induction π as [|[c r] π IH]; intros Hacc (o' & Hin' & Hl) o Hin.
  { by apply elem_of_nil in Hin. }
  destruct Hacc as [Hc Hacc].
  destruct r as [r|].
  2:{ subst π. apply list_elem_of_singleton in Hin' as ->.
      by destruct c. }
  cbn [next cachesUnder] in Hacc.
  destruct (loadedCache (Obs c (Some r))) as [cache0|] eqn:Hhd.
  - pose proof (cachesUnder_loaded π cache0 Hacc) as Htl.
    assert (cache0 = cache) as ->.
    { apply elem_of_cons in Hin' as [->|Hin']; [congruence|].
      destruct (Htl o' Hin') as [Hnone _]. congruence. }
    apply elem_of_cons in Hin as [->|Hin]; [|by apply Htl].
    by destruct c.
  - apply elem_of_cons in Hin' as [->|Hin']; [congruence|].
    apply elem_of_cons in Hin as [->|Hin]; [|apply IH; eauto].
    destruct c; simpl in *; try done; by destruct Hc as (? & ? & _).
Qed.

Ltac cache_go :=
  wp_go; try done; try (eexists; split_and!; reflexivity).

Lemma Discover_cachesUnder tasConfig secretData diff diffExists s :
  wp (cachesUnder payload) s
     (Discover G tasConfig payload secretData diff diffExists)
     (λ s' _, s' = s).
Proof.
  unfold Discover, updateResult.
  destruct (bool_decide (payloadEventType payload = EventPullRequest)); wp_go.
Qed.

Lemma runOldVersion_cachesUnder cfg oauth coverageDir secretMap :
  wp (cachesUnder payload) None
     (runOldVersion G cfg payload oauth coverageDir secretMap) (λ _ _, True).
Proof.
  unfold runOldVersion, installNodeVersion. simpl. split; [done|].
  intros [tasConfig [e|]]; simpl; [done|].
  apply wp_bind.
  eapply wp_mono with (Q := λ s _, s = Some (TasCache tasConfig)).
  2:{ case_bool_decide; wp_go. }
  intros ? [nodeErr|] ->; simpl; [done|].
  apply wp_bind.
  eapply wp_mono with (Q := λ s _, s = Some (TasCache tasConfig)).
  2:{ destruct (DiscoverMode cfg); [|done].
      destruct (Prerun tasConfig); cache_go.
      all: match goal with
           | |- context [errs.Is ?e _] => destruct (errs.Is e _)
           | _ => idtac
           end; simpl; try done.
      all: apply wp_bind; eapply wp_mono;
        [|apply Discover_cachesUnder];
        intros ? [?|] ->; cache_go. }
  intros ? [e1|] ->; simpl; [done|].
  apply wp_bind.
  eapply wp_mono with (Q := λ _ _, True).
  2:{ destruct (ExecuteMode cfg || FlakyMode cfg); [|done].
      wp_go. case_bool_decide; simpl; [done|].
      destruct (Postrun tasConfig); wp_go. }
  by intros ? [e2|] _.
Qed.

Lemma runNewVersion_cachesUnder cfg oauth coverageDir secretMap :
  wp (cachesUnder payload) None
     (runNewVersion G cfg payload oauth coverageDir secretMap) (λ _ _, True).
Proof.
  unfold runNewVersion. simpl. split; [done|].
  intros [tasConfig [e|]]; simpl; [done|].
  destruct (DiscoverMode cfg); [|done].
  cache_go.
  all: try match goal with
           | |- context [errs.Is ?e ?t] => destruct (errs.Is e t)
           end.
  all: try (simpl; done).
  all: apply wp_bind;
    destruct (bool_decide (payloadEventType payload = EventPush)); simpl.
  all: try apply wp_bind.
  all: (eapply wp_mono;
        [|apply (wp_forRange _ (λ s, s = Some (v2_Cache tasConfig)));
          [|done]]).
  all: try (intros ? u ->; cache_go).
  all: intros sub ? _ ->; wp_go.
Qed.

End CacheKey.

(** X9. Both versions of the pipeline restore and save the cache under one
    key: every [Download] and every [Upload] of a run uses the key made of
    the payload's organisation and repository and of the cache key of the
    config the run loaded, and every [Upload] passes the cache paths of that
    config. *)
Theorem cache_restored_and_saved_under_one_key (G : Globals)
    (cfg : NucleusConfig) (payload : Payload) (oauth : Oauth)
    (coverageDir : string) (secretMap : gmap string string) (π : list obs)
    (cache : Cache) :
  behaves (runOldVersion G cfg payload oauth coverageDir secretMap) π ∨
  behaves (runNewVersion G cfg payload oauth coverageDir secretMap) π →
  (∃ o, o ∈ π ∧ loadedCache o = Some cache) →
  ∀ o, o ∈ π → cachedUnder payload cache (obs_call o).
Proof.
  intros Hb. apply cachesUnder_unloaded.
  destruct Hb as [Hb|Hb].
  - eapply wp_behaves; [apply runOldVersion_cachesUnder|done].
  - eapply wp_behaves; [apply runNewVersion_cachesUnder|done].
Qed.


(** ** The goroutines of the submodules *)

(** A loop keeps an invariant that depends on the elements visited so
    far. *)
Lemma wp_forRange_prefix {S X} (M : monitor S) (I : list X → S → Prop)
    (xs : list X) (body : X → prog unit) s :
  (∀ pre x s, (∃ post, xs = pre ++ x :: post) → I pre s →
              wp M s (body x) (λ s' _, I (pre ++ [x]) s')) →
  I [] s → wp M s (forRange xs body) (λ s' _, I xs s').
Proof.
  revert I s. induction xs as [|x xs IH]; simpl; intros I s Hbody HI; [done|].
  apply wp_bind. eapply wp_mono; [|apply (Hbody [] x); [by exists xs|done]].
  intros s' u HI'. simpl in *.
  apply (IH (λ pre, I (x :: pre))); [|done].
  intros pre y s'' [post ->] Hpre. apply (Hbody (x :: pre)); [|done].
  by exists post.
Qed.

Section FanOut.
Context (G : Globals).

Lemma runNewVersion_fansOut cfg payload oauth coverageDir secretMap :
  wp (fansOut payload secretMap) (None, [])
     (runNewVersion G cfg payload oauth coverageDir secretMap) (λ _ _, True).
Proof.
  unfold runNewVersion. simpl. split; [done|].
  intros [tasConfig [e|]]; simpl; [done|].
  destruct (DiscoverMode cfg); [|done].
  wp_go.
  all: try match goal with
           | |- context [errs.Is ?e ?t] => destruct (errs.Is e t)
           end.
  all: try (simpl; done).
  all: apply wp_bind;
    destruct (bool_decide (payloadEventType payload = EventPush)) eqn:Hev;
    simpl.
  all: try apply wp_bind.
  all: (eapply wp_mono;
        [|apply (wp_forRange_prefix _
                   (λ pre s, s = (Some tasConfig, pre))); [|done]]).
  all: try (intros ? u ->; wp_go; try done;
            eexists; (split; [reflexivity|]); unfold sectionOf;
            by rewrite Hev).
  all: intros pre sub ? _ ->; wp_go.
Qed.

End FanOut.

(** X10. [runNewVersion] launches one goroutine for each submodule of the
    section that the event type selects (post-merge for a push, pre-merge
    otherwise), in the order of the config and with the payload, the config
    and the secrets of the run, before it waits or caches the workspace. *)
Theorem fan_out_covers_the_section (G : Globals) (cfg : NucleusConfig)
    (payload : Payload) (oauth : Oauth) (coverageDir : string)
    (secretMap : gmap string string) (π : list obs) :
  behaves (runNewVersion G cfg payload oauth coverageDir secretMap) π →
  accepts (fansOut payload secretMap) (None, []) π.
Proof. apply wp_behaves with (Q := λ _ _, True), runNewVersion_fansOut. Qed.

(** X11. When the merge-level map is nil and the submodule has an entry,
    [DiscoverV2] panics on the first assignment, before it has called any
    collaborator. *)
Theorem DiscoverV2_panics_on_nil_envMap (G : Globals) (W : World) (tid : nat)
    (s : state) (subModule : SubModule) (payload : Payload)
    (secretData : gmap string string) (tasConfig : TASConfigV2)
    (diff : gmap string Z) (diffExists : bool) :
  envOf s (envMapOf payload) = None →
  sm_EnvMap subModule ≠ ∅ →
  ∃ k v,
    sm_EnvMap subModule !! k = Some v ∧
    run W tid (DiscoverV2 G subModule payload secretData tasConfig diff
                 diffExists) s
    = (Panicked "assignment to entry in nil map",
       record (Event tid (EnvMapStore (envMapOf payload) k v) None) s).
Proof.
  intros Hnil Hne. unfold DiscoverV2.
  destruct (map_to_list (sm_EnvMap subModule)) as [|[k v] l] eqn:Hl.
  { by apply map_to_list_empty_iff in Hl. }
  exists k, v. split.
  - apply elem_of_map_to_list. rewrite Hl. left.
  - rewrite run_bind. simpl. by rewrite Hnil.
Qed.


(** ** Test execution and the directories of the commands *)

Lemma sendsResults_after {A} (p : prog A) (π : list obs) (a : A) s :
  finishes p π a →
  after sendsResults s π = (s.1 ++ executed π, s.2 ++ sentResults π).
Proof.
  revert π s. induction p as [a'|c k IH]; simpl; intros π s.
  - intros [-> _]. simpl. rewrite !app_nil_r. by destruct s.
  - intros (r & π' & -> & Hf). simpl. rewrite (IH r _ _ Hf).
    destruct c; simpl; try done; by rewrite <-app_assoc.
Qed.

Section Execution.
Context (G : Globals).

Lemma Discover_sendsResults tasConfig payload secretData diff diffExists s :
  wp sendsResults s
     (Discover G tasConfig payload secretData diff diffExists)
     (λ s' _, s' = s).
Proof.
  unfold Discover, updateResult.
  destruct (bool_decide (payloadEventType payload = EventPullRequest)); wp_go.
Qed.

Lemma runOldVersion_sendsResults cfg payload oauth coverageDir secretMap :
  wp sendsResults ([], [])
     (runOldVersion G cfg payload oauth coverageDir secretMap)
     (λ s r, match s.1 with
             | [] => s.2 = []
             | [(er, err)] =>
                 if bool_decide (is_Some err ∧ er = None)
                 then s.2 = [] ∧ r = Some executionFailed
                 else s.2 = [er] ∧ r ≠ Some executionFailed
             | _ => False
             end).
Proof.
  unfold runOldVersion, installNodeVersion. simpl. split; [done|].
  intros [tasConfig [e|]]; simpl; [done|].
  apply wp_bind.
  eapply wp_mono with (Q := λ s _, s = ([], [])).
  2:{ case_bool_decide; wp_go. }
  intros ? [nodeErr|] ->; simpl; [done|].
  apply wp_bind.
  eapply wp_mono with (Q := λ s _, s = ([], [])).
  2:{ destruct (DiscoverMode cfg); [|done].
      destruct (Prerun tasConfig); wp_go.
      all: match goal with
           | |- context [errs.Is ?e _] => destruct (errs.Is e _)
           | _ => idtac
           end; simpl; try done.
      all: apply wp_bind; eapply wp_mono;
        [|apply Discover_sendsResults];
        intros ? [?|] ->; wp_go. }
  intros ? [e1|] ->; simpl; [done|].
  apply wp_bind.
  eapply wp_mono with
    (Q := λ s r, match s.1 with
                 | [] => s.2 = [] ∧ r = None
                 | [(er, err)] =>
                     if bool_decide (is_Some err ∧ er = None)
                     then s.2 = [] ∧ r = Some executionFailed
                     else s.2 = [er] ∧ r ≠ Some executionFailed
                 | _ => False
                 end).
  2:{ destruct (ExecuteMode cfg || FlakyMode cfg); [|done].
      simpl. split; [done|]. intros [er err]. simpl.
      case_bool_decide as Hcase; simpl.
      { by rewrite bool_decide_true. }
      split; [by exists err|]. intros [st [e|]]; simpl.
      { by rewrite bool_decide_false. }
      split; [done|]. intros _.
      destruct (Postrun tasConfig); simpl.
      - split; [done|]. intros [e|]; simpl; by rewrite bool_decide_false.
      - by rewrite bool_decide_false. }
  intros [[|[er err] [|]] sent] [e2|]; simpl; try done; by intros [-> _].
Qed.

Lemma DiscoverV2_runsIn subModule payload secretData tasConfig diff
    diffExists :
  wp (runsIn (path_Join G (RepoDir G) (sm_Path subModule))) tt
     (DiscoverV2 G subModule payload secretData tasConfig diff diffExists)
     (λ _ _, True).
Proof.
  unfold DiscoverV2, updateResult. apply wp_bind.
  eapply wp_mono; [|apply (wp_forRange _ (λ _, True)); [|done]].
  - intros [] u _. wp_go.
  - intros; wp_go.
Qed.

Lemma goFunc_runsIn g :
  wp (runsIn (path_Join G (RepoDir G) (sm_Path (g_subModule g)))) tt
     (goFunc G g) (λ _ _, True).
Proof.
  unfold goFunc, runDiscoveryForEachSubModule. apply wp_bind.
  destruct (sm_Prerun (g_subModule g)); wp_go;
    (apply wp_bind; eapply wp_mono; [|apply DiscoverV2_runsIn];
     intros [] err _; wp_go).
Qed.

Lemma Discover_runsIn tasConfig payload secretData diff diffExists :
  wp (runsIn (RepoDir G)) tt
     (Discover G tasConfig payload secretData diff diffExists)
     (λ _ _, True).
Proof.
  unfold Discover, updateResult.
  destruct (bool_decide (payloadEventType payload = EventPullRequest)); wp_go.
Qed.

Lemma runOldVersion_runsIn cfg payload oauth coverageDir secretMap :
  wp (runsIn (RepoDir G)) tt
     (runOldVersion G cfg payload oauth coverageDir secretMap) (λ _ _, True).
Proof.
  unfold runOldVersion, installNodeVersion. simpl. split; [done|].
  intros [tasConfig [e|]]; simpl; [done|].
  apply wp_bind. eapply wp_mono with (Q := λ _ _, True).
  2:{ case_bool_decide; wp_go. }
  intros [] [nodeErr|] _; simpl; [done|].
  apply wp_bind. eapply wp_mono with (Q := λ _ _, True).
  2:{ destruct (DiscoverMode cfg); [|done].
      destruct (Prerun tasConfig); wp_go.
      all: match goal with
           | |- context [errs.Is ?e _] => destruct (errs.Is e _)
           | _ => idtac
           end; simpl; try done.
      all: apply wp_bind; eapply wp_mono; [|apply Discover_runsIn];
        intros [] [?|] _; wp_go. }
  intros [] [e1|] _; simpl; [done|].
  apply wp_bind. eapply wp_mono with (Q := λ _ _, True).
  2:{ destruct (ExecuteMode cfg || FlakyMode cfg); [|done].
      wp_go. case_bool_decide; simpl; [done|].
      destruct (Postrun tasConfig); wp_go. }
  by intros [] [e2|] _.
Qed.

End Execution.

(** X12. In execute and flaky mode the tests are executed at most once.
    When the execution came back with an error and without results, nothing
    is sent and the run returns the failure "Failed in executing tests.".
    In every other case the results that came back are sent to
    [SendResults], once, and the run does not return that failure, whether
    the execution reported an error or not.  When no test was executed,
    nothing is sent. *)
Theorem execution_error_with_results_is_dropped (G : Globals)
    (cfg : NucleusConfig) (payload : Payload) (oauth : Oauth)
    (coverageDir : string) (secretMap : gmap string string) (π : list obs)
    (r : option error) :
  finishes (runOldVersion G cfg payload oauth coverageDir secretMap) π r →
  accepts sendsResults ([], []) π ∧
  match executed π with
  | [] => sentResults π = []
  | [(er, err)] =>
      if bool_decide (is_Some err ∧ er = None)
      then sentResults π = [] ∧ r = Some executionFailed
      else sentResults π = [er] ∧ r ≠ Some executionFailed
  | _ => False
  end.
Proof.
  intros Hfin.
  pose proof (wp_finishes sendsResults _ _ _ _ _
                (runOldVersion_sendsResults G cfg payload oauth coverageDir
                   secretMap) Hfin) as [Hacc Hpost].
  split; [done|]. by rewrite (sendsResults_after _ _ _ _ Hfin) in Hpost.
Qed.

(** X13. The commands of a submodule all run in the submodule's directory:
    the pre-run commands, the installation of the runners and the runner are
    started in [path.Join(global.RepoDir, subModule.Path)] by the goroutine
    of the submodule; in a schema-v1 run they are started in
    [global.RepoDir]. *)
Theorem commands_run_in_the_module_directory (G : Globals) (π : list obs) :
  (∀ g, behaves (goFunc G g) π →
        accepts (runsIn (path_Join G (RepoDir G) (sm_Path (g_subModule g))))
          tt π) ∧
  (∀ cfg payload oauth coverageDir secretMap,
     behaves (runOldVersion G cfg payload oauth coverageDir secretMap) π →
     accepts (runsIn (RepoDir G)) tt π).
Proof.
  split.
  - intros g. apply wp_behaves with (Q := λ _ _, True), goFunc_runsIn.
  - intros cfg payload oauth coverageDir secretMap.
    apply wp_behaves with (Q := λ _ _, True), runOldVersion_runsIn.
Qed.

Lemma anyFailed_spec (testPayload : list string) :
  anyFailed testPayload = true ↔ "failed" ∈ testPayload.
Proof.
  induction testPayload as [|t l IH]; simpl.
  - split; [done|]. by intros ?%elem_of_nil.
  - case_bool_decide as Ht.
    + subst. split; [intros _; left|done].
    + rewrite IH. split; [by right|].
      intros [?|?]%elem_of_cons; [congruence|done].
Qed.

(** X14. [findTaskPayloadStatus] is [Failed] exactly when some test of some
    result has the status "failed" (in these letters), and [Passed]
    otherwise, also when there are no results or no tests. *)
Theorem findTaskPayloadStatus_failed_iff (executionResults : ExecutionResults) :
  (findTaskPayloadStatus executionResults = Failed ↔
   ∃ result, result ∈ er_Results executionResults ∧ "failed" ∈ result) ∧
  (findTaskPayloadStatus executionResults = Passed ↔
   ∀ result, result ∈ er_Results executionResults → "failed" ∉ result).
Proof.
  unfold findTaskPayloadStatus.
  induction (er_Results executionResults) as [|result results [IHf IHp]];
    simpl.
  - split; split; try done.
    + by intros (? & ?%elem_of_nil & _).
    + by intros _ ? ?%elem_of_nil.
  - destruct (anyFailed result) eqn:Hany.
    + apply anyFailed_spec in Hany. split; split; try done.
      * intros _. exists result. split; [left|done].
      * intros Hall. destruct (Hall result); [left|done].
    + assert ("failed" ∉ result) as Hno.
      { intros Hin%anyFailed_spec. congruence. }
      split.
      * rewrite IHf. split.
        -- intros (r & Hr & Hin). exists r. split; [by right|done].
        -- intros (r & [->|Hr]%elem_of_cons & Hin); [done|by exists r].
      * rewrite IHp. split.
        -- intros Hall r [->|Hr]%elem_of_cons; auto.
        -- intros Hall r Hr. apply Hall. by right.
Qed.


(** ** The result that is posted *)

Section Posting.
Context (G : Globals).

Lemma Discover_postsResult tasConfig payload secretData diff diffExists :
  wp (postsResult
        (λ received,
           {| dr_Body := dr_Body received;
              dr_Parallelism := Parallelism tasConfig;
              dr_SplitMode := SplitMode tasConfig;
              dr_ContainerImage := ContainerImage tasConfig;
              dr_Tier := Tier tasConfig;
              dr_SubModule := dr_SubModule received |})
        (NeuronHost G +:+ "/test-list"))
     (None, None, 0%nat)
     (Discover G tasConfig payload secretData diff diffExists) (λ _ _, True).
Proof.
  unfold Discover, updateResult.
  destruct (bool_decide (payloadEventType payload = EventPullRequest)); wp_go;
    by eexists.
Qed.

Lemma DiscoverV2_postsResult subModule payload secretData tasConfig diff
    diffExists :
  wp (postsResult
        (λ received,
           {| dr_Body := dr_Body received;
              dr_Parallelism := sm_Parallelism subModule;
              dr_SplitMode := v2_SplitMode tasConfig;
              dr_ContainerImage := v2_ContainerImage tasConfig;
              dr_Tier := v2_Tier tasConfig;
              dr_SubModule := sm_Name subModule |})
        (NeuronHost G +:+ "/test-list"))
     (None, None, 0%nat)
     (DiscoverV2 G subModule payload secretData tasConfig diff diffExists)
     (λ _ _, True).
Proof.
  unfold DiscoverV2, updateResult. apply wp_bind.
  eapply wp_mono;
    [|apply (wp_forRange _ (λ s, s = (None, None, 0%nat))); [|done]].
  - intros s u ->. wp_go; by eexists.
  - intros kv s _ ->. wp_go.
Qed.

End Posting.

(** X15. What the dispatcher sends to the API is the result it received from
    the runner with the fields of the config written over it (and, for
    schema v2, the name and the parallelism of the submodule of the call):
    it marshals that record, and posts the marshalled body to
    [global.NeuronHost + "/test-list"], once, and only when the marshalling
    went through. *)
Theorem discovery_result_is_posted_once (G : Globals) (payload : Payload)
    (secretData : gmap string string) (diff : gmap string Z)
    (diffExists : bool) (π : list obs) :
  (∀ tasConfig,
     behaves (Discover G tasConfig payload secretData diff diffExists) π →
     accepts (postsResult
                (λ received,
                   {| dr_Body := dr_Body received;
                      dr_Parallelism := Parallelism tasConfig;
                      dr_SplitMode := SplitMode tasConfig;
                      dr_ContainerImage := ContainerImage tasConfig;
                      dr_Tier := Tier tasConfig;
                      dr_SubModule := dr_SubModule received |})
                (NeuronHost G +:+ "/test-list"))
       (None, None, 0%nat) π) ∧
  (∀ subModule tasConfig,
     behaves (DiscoverV2 G subModule payload secretData tasConfig diff
                diffExists) π →
     accepts (postsResult
                (λ received,
                   {| dr_Body := dr_Body received;
                      dr_Parallelism := sm_Parallelism subModule;
                      dr_SplitMode := v2_SplitMode tasConfig;
                      dr_ContainerImage := v2_ContainerImage tasConfig;
                      dr_Tier := v2_Tier tasConfig;
                      dr_SubModule := sm_Name subModule |})
                (NeuronHost G +:+ "/test-list"))
       (None, None, 0%nat) π).
Proof.
  split.
  - intros tasConfig.
    apply wp_behaves with (Q := λ _ _, True), Discover_postsResult.
  - intros subModule tasConfig.
    apply wp_behaves with (Q := λ _ _, True), DiscoverV2_postsResult.
Qed.


(** ** The runner's binary and environment *)

Section Runner.
Context (G : Globals).

Lemma Discover_startsRunner tasConfig payload secretData diff diffExists :
  wp (startsRunner (default EmptyString
                      (FrameworkRunnerMap G !! Framework tasConfig))) None
     (Discover G tasConfig payload secretData diff diffExists) (λ _ _, True).
Proof.
  unfold Discover, updateResult.
  destruct (bool_decide (payloadEventType payload = EventPullRequest)); wp_go.
Qed.

Lemma DiscoverV2_startsRunner subModule payload secretData tasConfig diff
    diffExists :
  wp (startsRunner (default EmptyString
                      (FrameworkRunnerMap G !! sm_Framework subModule))) None
     (DiscoverV2 G subModule payload secretData tasConfig diff diffExists)
     (λ _ _, True).
Proof.
  unfold DiscoverV2, updateResult. apply wp_bind.
  eapply wp_mono; [|apply (wp_forRange _ (λ s, s = None)); [|done]].
  - intros s u ->. wp_go.
  - intros kv s _ ->. wp_go.
Qed.

End Runner.

(** X16. The runner is started only after [GetEnvVariables] returned without
    an error, with the environment it returned, and with the binary that
    [global.FrameworkRunnerMap] holds for the framework; for a framework
    that is not a key of the map the binary is the empty string. *)
Theorem runner_started_with_the_environment (G : Globals) (payload : Payload)
    (secretData : gmap string string) (diff : gmap string Z)
    (diffExists : bool) (π : list obs) :
  (∀ tasConfig,
     behaves (Discover G tasConfig payload secretData diff diffExists) π →
     accepts (startsRunner
                (default EmptyString
                   (FrameworkRunnerMap G !! Framework tasConfig))) None π ∧
     (FrameworkRunnerMap G !! Framework tasConfig = None →
      accepts (startsRunner EmptyString) None π)) ∧
  (∀ subModule tasConfig,
     behaves (DiscoverV2 G subModule payload secretData tasConfig diff
                diffExists) π →
     accepts (startsRunner
                (default EmptyString
                   (FrameworkRunnerMap G !! sm_Framework subModule))) None π ∧
     (FrameworkRunnerMap G !! sm_Framework subModule = None →
      accepts (startsRunner EmptyString) None π)).
Proof.
  split.
  - intros tasConfig Hb.
    pose proof (wp_behaves _ _ _ _ _ (Discover_startsRunner G tasConfig
                  payload secretData diff diffExists) Hb) as Hacc.
    split; [done|]. intros Hnone. by rewrite Hnone in Hacc.
  - intros subModule tasConfig Hb.
    pose proof (wp_behaves _ _ _ _ _ (DiscoverV2_startsRunner G subModule
                  payload secretData tasConfig diff diffExists) Hb) as Hacc.
    split; [done|]. intros Hnone. by rewrite Hnone in Hacc.
Qed.

(** ** Package gitmanager and [sendStats] *)

Lemma Split_length (s : string) (sep : Ascii.ascii) :
  (1 ≤ length (sys.Split s sep))%nat ∧
  (sep ∉ chars s ↔ sys.Split s sep = [s]).
Proof.
  induction s as [|c s [IHl IH]]; simpl.
  - split; [lia|]. split; [done|]. intros _ ?%elem_of_nil. done.
  - case_bool_decide as Hc; simpl.
    + split; [lia|]. subst. split.
      * intros Hn. exfalso. apply Hn. unfold chars. simpl. left.
      * by intros [= Hs].
    + destruct (sys.Split s sep) as [|x xs] eqn:Hsp; simpl in *; [lia|].
      split; [lia|]. rewrite not_elem_of_cons. split.
      * intros [_ Hs]. apply IH in Hs. by injection Hs as -> ->.
      * intros [= -> ->]. split; [done|]. by apply IH.
Qed.

Lemma chars_app (s t : string) : chars (s +:+ t) = chars s ++ chars t.
Proof. unfold chars. induction s as [|c s IH]; simpl; [done|]. by rewrite IH. Qed.

(** Whatever the commit is, the archive [Clone] downloads has the
    extension of a zip file. *)
Lemma Ext_zip (s : string) : sys.Ext (s +:+ ".zip") = ".zip".
Proof.
  unfold sys.Ext. fold (chars (s +:+ ".zip")). rewrite chars_app.
  rewrite reverse_app. reflexivity.
Qed.

Lemma countOf_app f π1 π2 : countOf f (π1 ++ π2) = (countOf f π1 + countOf f π2)%nat.
Proof. unfold countOf. by rewrite filter_app, length_app. Qed.

Lemma ends_bind {A B} (p : sys.prog A) (f : A → sys.prog B) π e :
  sys.ends (sys.bind p f) π e ↔
  (∃ a π1 π2, π = π1 ++ π2 ∧ sys.ends p π1 (sys.Returns a) ∧
              sys.ends (f a) π2 e) ∨
  (∃ q, sys.ends p π (sys.Panics q) ∧ e = sys.Panics q).
Proof.
  revert π. induction p as [a|q|o k IH]; simpl; intros π.
  - split.
    + intros H. left. exists a, [], π. done.
    + intros [(a' & π1 & π2 & -> & [-> [= <-]] & Hf)|(q & [_ [=]] & _)]. done.
  - split.
    + intros [-> ->]. right. by exists q.
    + intros [(a' & π1 & π2 & -> & [_ [=]] & Hf)|(q' & [-> [= <-]] & ->)]. done.
  - split.
    + intros (r & π' & -> & H). apply IH in H
        as [(a & π1 & π2 & -> & H1 & H2)|(q & H1 & ->)].
      * left. exists a, (sys.Obs o r :: π1), π2. split; [done|].
        split; [|done]. by exists r, π1.
      * right. exists q. split; [|done]. by exists r, π'.
    + intros [(a & π1 & π2 & -> & (r & π1' & -> & H1) & H2)
             |(q & (r & π' & -> & H1) & ->)].
      * exists r, (π1' ++ π2). split; [done|]. apply IH. left. eauto 6.
      * exists r, π'. split; [done|]. apply IH. right. eauto.
Qed.

Lemma ends_mbind {A B} (p : sys.prog A) (f : A → sys.prog B) π e :
  sys.ends (p ≫= f) π e ↔
  (∃ a π1 π2, π = π1 ++ π2 ∧ sys.ends p π1 (sys.Returns a) ∧
              sys.ends (f a) π2 e) ∨
  (∃ q, sys.ends p π (sys.Panics q) ∧ e = sys.Panics q).
Proof. apply ends_bind. Qed.

Section GitManager.
Context (G : Globals) (L : sys.Lib).

Lemma Split_singleton (s a : string) (sep : Ascii.ascii) :
  sys.Split s sep = [a] → a = s.
Proof.
  revert a. induction s as [|c s IH]; simpl; intros a.
  - by intros [= <-].
  - case_bool_decide.
    { intros [= <- Hnil]. destruct (Split_length s sep) as [Hl _].
      rewrite Hnil in Hl. simpl in Hl. lia. }
    destruct (Split_length s sep) as [Hl _].
    destruct (sys.Split s sep) as [|x [|y xs]]; simpl in Hl; [lia| |done].
    intros [= <-]. f_equal. by apply IH.
Qed.

(** X17. [getUnzippedFileName]: for a provider other than Bitbucket the name
    is the repository and the commit; for Bitbucket the function panics
    exactly when the commit is shorter than 12 bytes or the fork slug is not
    empty and holds no slash, and otherwise the name ends in the first 12
    bytes of the commit. *)
Theorem getUnzippedFileName_panics_iff (gitProvider orgName repoName forkSlug
    commitID : string) :
  let name := sys.getUnzippedFileName L gitProvider orgName repoName forkSlug
                commitID in
  if bool_decide (gitProvider ≠ sys.Bitbucket L)
  then name = sys.Ret (repoName +:+ "-" +:+ commitID)
  else
    ((∃ q, name = sys.Panic q) ↔
     (String.length commitID < 12)%nat ∨
     (forkSlug ≠ EmptyString ∧ "/"%char ∉ chars forkSlug)) ∧
    (∀ file, name = sys.Ret file →
       if bool_decide (forkSlug = EmptyString)
       then file = orgName +:+ "-" +:+ repoName +:+ "-"
                   +:+ String.substring 0 12 commitID
       else ∃ forkOrg forkRepo rest,
              sys.Split forkSlug "/" = forkOrg :: forkRepo :: rest ∧
              file = forkOrg +:+ "-" +:+ forkRepo +:+ "-"
                     +:+ String.substring 0 12 commitID).
Proof.
  intros name. subst name. unfold sys.getUnzippedFileName.
  case_bool_decide as Hp; [done|].
  destruct (Split_length forkSlug "/") as [Hlen Hsep].
  unfold sys.sliceTo, sys.index.
  case_bool_decide as Hf; simpl.
  - rewrite (bool_decide_false (forkSlug = EmptyString)) by done.
    destruct (sys.Split forkSlug "/") as [|a [|b l]] eqn:Hsp; simpl in *;
      [lia| |].
    + apply Split_singleton in Hsp as ->. split; [|done].
      split; [|by eexists]. intros _. right. split; [done|]. by apply Hsep.
    + rewrite (bool_decide_true (0 ≤ 1 < _)) by lia. simpl.
      case_bool_decide as H12; simpl.
      * split.
        -- split; [by intros [q [=]]|].
           intros [?|[_ Hn]]; [lia|]. by apply Hsep in Hn.
        -- intros file [= <-]. by exists a, b, l.
      * split; [|done]. split; [|by eexists]. intros _. left. lia.
  - assert (forkSlug = EmptyString) as ->.
    { destruct (decide (forkSlug = EmptyString)); done. }
    simpl. case_bool_decide as H12; simpl.
    + split.
      * split; [by intros [q [=]]|]. intros [?|[? _]]; [lia|done].
      * by intros file [= <-].
    + split; [|done]. split; [|by eexists]. intros _. left. lia.
Qed.

(** X18. [Clone] takes the last two items of the repository link split at
    the slashes: when the link holds no slash there is one item only, and
    [Clone] panics on the index -1 before it has done anything; when it
    holds one, [Clone] goes on to ask for the clone URL. *)
Theorem Clone_panics_iff_no_slash (payload : Payload) (forkSlug : string)
    (oauth : Oauth) :
  ("/"%char ∉ chars (RepoLink payload) →
   sys.Clone G L payload forkSlug oauth
   = sys.Panic (sys.IndexOutOfRange (-1) 1)) ∧
  ("/"%char ∈ chars (RepoLink payload) →
   ∃ repoName k,
     sys.Clone G L payload forkSlug oauth
     = sys.Do (sys.GetCloneURL (GitProvider payload) (RepoLink payload)
                 repoName (BuildTargetCommit payload) forkSlug
                 (RepoSlug payload)) k).
Proof.
  unfold sys.Clone, sys.index.
  destruct (Split_length (RepoLink payload) "/") as [Hlen Hsep]. split.
  - intros Hn. apply Hsep in Hn. rewrite Hn. reflexivity.
  - intros Hin.
    destruct (sys.Split (RepoLink payload) "/") as [|a [|b l]] eqn:Hsp;
      simpl in Hlen; [lia| |].
    + apply Split_singleton in Hsp as ->.
      destruct (proj2 Hsep eq_refl Hin).
    + rewrite !bool_decide_true by (simpl length; lia).
      simpl. eauto.
Qed.

(** Going through every way a program can end. *)
Ltac ends_go H :=
  repeat (cbn in H;
          match type of H with
          | ∃ _, _ => destruct H as (? & ? & -> & H)
          | _ = [] ∧ _ => destruct H as [-> H]; simplify_eq
          | context [bool_decide ?P] => destruct (bool_decide P) eqn:?
          | context [match ?x with Some _ => _ | None => _ end] =>
              is_var x; destruct x
          | context [match ?x with (_, _) => _ end] => is_var x; destruct x
          | context [match ?x with inl _ => _ | inr _ => _ end] =>
              is_var x; destruct x
          end).

Lemma downloadFile_closes archiveURL fileName oauth π e :
  sys.ends (sys.downloadFile L archiveURL fileName oauth) π e →
  countOf isBodyClose π = countOf isResponse π ∧
  countOf isFileClose π = countOf isCreated π ∧
  (countOf isResponse π ≤ 1)%nat ∧ (countOf isCreated π ≤ 1)%nat ∧
  ∃ a, e = sys.Returns a.
Proof.
  unfold sys.downloadFile, sys.copyAndExtractFile, sys.call.
  intros H. ends_go H; split_and!; try reflexivity;
    try (vm_compute; lia); by eexists.
Qed.


Lemma countOf_cons f o π :
  countOf f (o :: π) = ((if f o then 1 else 0) + countOf f π)%nat.
Proof. unfold countOf. rewrite filter_cons. destruct (f o); by case_decide. Qed.

Lemma countOf_nil f : countOf f [] = 0%nat.
Proof. done. Qed.

Ltac counted :=
  repeat (rewrite countOf_app || rewrite countOf_cons || rewrite countOf_nil);
  cbn -[countOf]; lia.

Lemma pure_ends {A} (p : sys.prog A) π e :
  (∀ o k, p ≠ sys.Do o k) → sys.ends p π e → π = [].
Proof. destruct p; simpl; [by intros _ [-> _]..|]. intros Hp. by destruct (Hp o k). Qed.

Lemma index_ends l i π e : sys.ends (sys.index l i) π e → π = [].
Proof. apply pure_ends. intros o k. unfold sys.index. by case_bool_decide. Qed.

Lemma getUnzippedFileName_ends gitProvider orgName repoName forkSlug commitID
    π e :
  sys.ends (sys.getUnzippedFileName L gitProvider orgName repoName forkSlug
              commitID) π e → π = [].
Proof.
  unfold sys.getUnzippedFileName, sys.index, sys.sliceTo. intros H.
  by ends_go H.
Qed.

Lemma initGit_closes payload forkSlug oauth π e :
  sys.ends (sys.initGit G L payload forkSlug oauth) π e →
  countOf isBodyClose π = 0%nat ∧ countOf isResponse π = 0%nat ∧
  countOf isFileClose π = 0%nat ∧ countOf isCreated π = 0%nat.
Proof.
  unfold sys.initGit, sys.index, sys.call.
  destruct (sys.url_Parse L _) as [repoURL perr].
  destruct (sys.base64_Decode L _) as [decodedToken err].
  intros H. ends_go H; done.
Qed.

(** X19. Whatever [Clone] does and however it ends, also in an error or a
    panic, it has closed the body of the response it got and the file it
    created, once each, and nothing that it did not open. *)
Theorem Clone_closes_what_it_opens (payload : Payload) (forkSlug : string)
    (oauth : Oauth) (π : list sys.obs) (e : sys.ending (option error)) :
  sys.ends (sys.Clone G L payload forkSlug oauth) π e →
  countOf isBodyClose π = countOf isResponse π ∧
  countOf isFileClose π = countOf isCreated π ∧
  (countOf isResponse π ≤ 1)%nat ∧ (countOf isCreated π ≤ 1)%nat.
Proof.
  unfold sys.Clone. intros H.
  apply ends_mbind in H as [(repoName & π1 & π2 & -> & H1 & H)|(q & H1 & ->)];
    apply index_ends in H1 as ->; [|counted].
  apply ends_mbind in H as [(orgName & π1 & π3 & -> & H1 & H)|(q & H1 & ->)];
    apply index_ends in H1 as ->; [|counted].
  cbn -[sys.downloadFile sys.initGit sys.getUnzippedFileName] in H.
  destruct H as ([archiveURL [err|]] & π' & -> & H);
    cbn -[sys.downloadFile sys.initGit sys.getUnzippedFileName] in H.
  { destruct H as [-> ->]. counted. }
  apply ends_bind in H as [(err & π1 & π4 & -> & H1 & H)|(q & H1 & ->)];
    apply downloadFile_closes in H1 as (Hb & Hf & Hr1 & Hc1 & a & Ha);
    [|done].
  destruct err as [err|];
    cbn -[sys.downloadFile sys.initGit sys.getUnzippedFileName] in H.
  { destruct H as [-> ->]. counted. }
  apply ends_bind in H as [(filename & π5 & π6 & -> & H1 & H)|(q & H1 & ->)];
    apply getUnzippedFileName_ends in H1 as ->; [|counted].
  cbn -[sys.downloadFile sys.initGit sys.getUnzippedFileName] in H.
  destruct H as ([err|] & π7 & -> & H);
    cbn -[sys.downloadFile sys.initGit sys.getUnzippedFileName] in H.
  { destruct H as [-> ->]. counted. }
  apply ends_bind in H as [(err & π8 & π9 & -> & H1 & H)|(q & H1 & ->)];
    apply initGit_closes in H1 as (Hb' & Hr' & Hf' & Hc').
  - destruct err as [err|]; destruct H as [-> ->]; counted.
  - counted.
Qed.

Lemma downloadFile_nil archiveURL fileName oauth π :
  sys.ends (sys.downloadFile L archiveURL fileName oauth) π (sys.Returns None) →
  sys.Ext fileName = ".zip" →
  ∃ header resp,
    sys.StatusCode resp = 200 ∧
    π = [ sys.Obs (sys.NewRequest "GET" archiveURL EmptyString) None;
          sys.Obs (sys.HttpDo {| sys.req_Method := "GET";
                                 sys.req_URL := archiveURL;
                                 sys.req_Body := EmptyString;
                                 sys.req_Header := header |}) (resp, None);
          sys.Obs (sys.OsCreate fileName) None;
          sys.Obs (sys.IoCopy fileName) None;
          sys.Obs (sys.FileClose fileName) tt;
          sys.Obs (sys.Unarchive fileName (sys.filepath_Dir L fileName)) None;
          sys.Obs sys.BodyClose tt ].
Proof.
  unfold sys.downloadFile, sys.copyAndExtractFile, sys.call.
  intros H Hext. rewrite Hext in H.
  destruct (bool_decide (AccessToken oauth ≠ EmptyString));
    ends_go H;
    repeat match goal with u : () |- _ => destruct u end;
    (eexists _, _; split; [|reflexivity]);
    match goal with
    | H : bool_decide (?x ≠ 200) = false |- _ =>
        apply bool_decide_eq_false in H; by destruct (decide (x = 200))
    end.
Qed.

Lemma initGit_nil payload forkSlug oauth π :
  sys.ends (sys.initGit G L payload forkSlug oauth) π (sys.Returns None) →
  ∃ commands,
    length commands = 6%nat ∧
    π = [sys.Obs (sys.InitGitCommands commands (RepoDir G)) None].
Proof.
  unfold sys.initGit, sys.index, sys.call.
  destruct (sys.url_Parse L _) as [repoURL perr].
  destruct (sys.base64_Decode L _) as [decodedToken err].
  intros H. ends_go H; eexists; (split; [|reflexivity]); reflexivity.
Qed.

(** X20. [Clone] returns nil only after every step went through, in this
    order: the clone URL, the request, a response with status 200, the
    archive written and closed, the archive unpacked (it is always taken for
    a zip file), the response closed, the unpacked directory renamed to the
    repository directory, and the six git commands run there. *)
Theorem Clone_returns_nil_after_every_step (payload : Payload)
    (forkSlug : string) (oauth : Oauth) (π : list sys.obs) :
  sys.ends (sys.Clone G L payload forkSlug oauth) π (sys.Returns None) →
  let zip := BuildTargetCommit payload +:+ ".zip" in
  ∃ repoName orgName archiveURL header resp filename commands,
    sys.getUnzippedFileName L (GitProvider payload) orgName repoName forkSlug
      (BuildTargetCommit payload) = sys.Ret filename ∧
    sys.StatusCode resp = 200 ∧ length commands = 6%nat ∧
    π = [ sys.Obs (sys.GetCloneURL (GitProvider payload) (RepoLink payload)
                     repoName (BuildTargetCommit payload) forkSlug
                     (RepoSlug payload)) (archiveURL, None);
          sys.Obs (sys.NewRequest "GET" archiveURL EmptyString) None;
          sys.Obs (sys.HttpDo {| sys.req_Method := "GET";
                                 sys.req_URL := archiveURL;
                                 sys.req_Body := EmptyString;
                                 sys.req_Header := header |}) (resp, None);
          sys.Obs (sys.OsCreate zip) None;
          sys.Obs (sys.IoCopy zip) None;
          sys.Obs (sys.FileClose zip) tt;
          sys.Obs (sys.Unarchive zip (sys.filepath_Dir L zip)) None;
          sys.Obs sys.BodyClose tt;
          sys.Obs (sys.OsRename filename (RepoDir G)) None;
          sys.Obs (sys.InitGitCommands commands (RepoDir G)) None ].
Proof.
  intros H. cbv zeta. unfold sys.Clone in H.
  apply ends_mbind in H as [(repoName & π1 & π2 & -> & H1 & H)|(q & H1 & [=])];
    apply index_ends in H1 as ->.
  apply ends_mbind in H as [(orgName & π1 & π3 & -> & H1 & H)|(q & H1 & [=])];
    apply index_ends in H1 as ->.
  cbn -[sys.downloadFile sys.initGit sys.getUnzippedFileName] in H.
  destruct H as ([archiveURL [err|]] & π' & -> & H);
    cbn -[sys.downloadFile sys.initGit sys.getUnzippedFileName] in H.
  { by destruct H as [_ [=]]. }
  apply ends_bind in H as [(err & π1 & π4 & -> & H1 & H)|(q & H1 & [=])].
  destruct err as [err|];
    cbn -[sys.downloadFile sys.initGit sys.getUnzippedFileName] in H.
  { by destruct H as [_ [=]]. }
  apply downloadFile_nil in H1 as (header & resp & Hresp & ->);
    [|apply Ext_zip].
  apply ends_bind in H as [(filename & π5 & π6 & -> & H1 & H)|(q & H1 & [=])].
  pose proof (getUnzippedFileName_ends _ _ _ _ _ _ _ H1) as ->.
  assert (sys.getUnzippedFileName L (GitProvider payload) orgName repoName
            forkSlug (BuildTargetCommit payload) = sys.Ret filename) as Hname.
  { destruct (sys.getUnzippedFileName _ _ _ _ _ _); simpl in H1.
    - by destruct H1 as [_ [= ->]].
    - by destruct H1 as [_ [=]].
    - by destruct H1 as (? & ? & [=] & _). }
  clear H1.
  cbn -[sys.downloadFile sys.initGit sys.getUnzippedFileName] in H.
  destruct H as ([err|] & π7 & -> & H);
    cbn -[sys.downloadFile sys.initGit sys.getUnzippedFileName] in H.
  { by destruct H as [_ [=]]. }
  apply ends_bind in H as [(err & π8 & π9 & -> & H1 & H)|(q & H1 & [=])].
  destruct err as [err|]; destruct H as [-> [=]].
  apply initGit_nil in H1 as (commands & Hlen & ->).
  by exists repoName, orgName, archiveURL, header, resp, filename, commands.
Qed.

(** X21. With Basic authentication the decoded token is split at the colons
    and the first two items are the user name and the password: a token
    without a colon makes [initGit] panic, and of a password that holds a
    colon only the part before it is used. *)
Theorem initGit_basic_credentials (payload : Payload) (forkSlug : string)
    (oauth : Oauth) (repoURL : sys.urlT L) (decodedToken : string) :
  OauthType oauth = sys.Basic L →
  sys.base64_Decode L (AccessToken oauth) = (decodedToken, None) →
  let repoLink :=
    if bool_decide (GitProvider payload = sys.Bitbucket L) &&
       bool_decide (forkSlug ≠ EmptyString)
    then sys.strings_Replace L (RepoLink payload) (RepoSlug payload) forkSlug
    else RepoLink payload in
  sys.url_Parse L repoLink = (repoURL, None) →
  (":"%char ∉ chars decodedToken →
   sys.initGit G L payload forkSlug oauth
   = sys.Panic (sys.IndexOutOfRange 1 1)) ∧
  (∀ name password rest,
     sys.Split decodedToken ":" = name :: password :: rest →
     ∃ commands k,
       sys.initGit G L payload forkSlug oauth
       = sys.Do (sys.InitGitCommands commands (RepoDir G)) k ∧
       commands !! 2%nat
       = Some ("git config --global url."
               +:+ sys.url_String L repoURL name password
               +:+ ".InsteadOf " +:+ repoLink)).
Proof.
  intros Hbasic Hdec repoLink Hparse. unfold sys.initGit, sys.index.
  fold repoLink. rewrite Hparse, (bool_decide_true _ Hbasic), Hdec. split.
  - intros Hn. apply (Split_length decodedToken ":") in Hn. by rewrite Hn.
  - intros name password rest ->.
    rewrite !bool_decide_true by (simpl length; lia). simpl.
    eexists _, _. split; reflexivity.
Qed.

(** X22. [sendStats] does not panic, closes the body of the response it got
    once and nothing otherwise, and returns nil exactly when the report was
    answered with status 200. *)
Theorem sendStats_nil_iff_status_200 (payload : ExecutionResults)
    (π : list sys.obs) (e : sys.ending (option error)) :
  sys.ends (sys.sendStats G payload) π e →
  (∃ err, e = sys.Returns err ∧
          (err = None ↔ existsb isStatusOK π = true)) ∧
  countOf isBodyClose π = countOf isResponse π.
Proof.
  unfold sys.sendStats, sys.call. intros H.
  ends_go H; (split; [eexists; split; [reflexivity|]|reflexivity]);
    cbn; try done;
    repeat match goal with
           | H : bool_decide _ = true |- _ => apply bool_decide_eq_true in H
           | H : bool_decide _ = false |- _ => apply bool_decide_eq_false in H
           end;
    case_bool_decide; try done; split; try done.
  all: match goal with H : ¬ _ ≠ _ |- _ => by destruct H end.
Qed.

End GitManager.

(** ** The theorems at concrete inputs *)

(** The config file is in the diff: full discovery. *)
Lemma selector_full_discovery_witness :
  (is_Some (({[ ".tas.yml" := 3 ]} : gmap string Z) !! ".tas.yml")
   ∨ true = false) ∧
  discoverArgs Scenario.G {[ ".tas.yml" := 3 ]} true
    (map_to_list {[ ".tas.yml" := 3 ]})
    (discoverAll {[ ".tas.yml" := 3 ]} ".tas.yml" true)
    EmptyString ["**/*.test.ts"]
  = ["--command"; "discover"; "--pattern"; "**/*.test.ts"].
Proof.
  assert (is_Some (({[ ".tas.yml" := 3 ]} : gmap string Z) !! ".tas.yml")
          ∨ true = false) as Hin.
  { left. apply (bool_decide_unpack _). vm_compute. exact I. }
  split; [exact Hin|].
  exact (proj1 (proj2 (selector_full_discovery Scenario.G {[ ".tas.yml" := 3 ]}
                         true true (map_to_list {[ ".tas.yml" := 3 ]})
                         ".tas.yml" EmptyString ["**/*.test.ts"] Hin))).
Defined.

Lemma selector_smart_diff_witness :
  map_to_list twoFiles ≡ₚ map_to_list twoFiles ∧
  twoFiles !! ".tas.yml" = None ∧
  discoverArgs Scenario.G twoFiles true (map_to_list twoFiles)
    (discoverAll twoFiles ".tas.yml" true) EmptyString ["**/*.test.ts"]
  = ["--command"; "discover"; "--diff"; "a.ts"; "--pattern"; "**/*.test.ts"] ∧
  ∃ paths : list string,
    discoverArgs Scenario.G twoFiles true (map_to_list twoFiles)
      (discoverAll twoFiles ".tas.yml" true) EmptyString ["**/*.test.ts"]
    = ["--command"; "discover"] ++ diffPairs paths
      ++ configArgs EmptyString ++ patternArgs ["**/*.test.ts"] ∧
    NoDup paths ∧
    ∀ k, k ∈ paths ↔ ∃ v, twoFiles !! k = Some v ∧ v ≠ FileRemoved Scenario.G.
Proof.
  assert (twoFiles !! ".tas.yml" = None) as Hcfg by (vm_compute; reflexivity).
  split_and!; [reflexivity|exact Hcfg|vm_compute; reflexivity|].
  apply (proj2 (selector_smart_diff Scenario.G twoFiles true
                  (map_to_list twoFiles) ".tas.yml" EmptyString
                  ["**/*.test.ts"] (Permutation_refl _) Hcfg)).
  intros [Hempty _]. apply (f_equal (λ m, m !! "a.ts")) in Hempty.
  vm_compute in Hempty. discriminate Hempty.
Defined.

Lemma receive_only_after_runner_exit_witness :
  isRecv <$> discoveryRun = [false; false; false; false; true; false; false] ∧
  (∀ i o, discoveryRun !! i = Some o → isRecv o = true →
     ∃ j o', (j < i)%nat ∧ discoveryRun !! j = Some o' ∧ runnerExitedOk o') ∧
  (receives discoveryRun ≤ 1)%nat.
Proof.
  split; [vm_compute; reflexivity|].
  apply (receive_only_after_runner_exit Scenario.G discoveryRun).
  left. exists Scenario.tasConfig, (Scenario.payload EventPush), ∅,
    {[ "src/foo.ts" := 3 ]}, true.
  apply observe_behaves.
Defined.


Lemma steps_default (G : Globals) (W : World) sched P0 :
  is_Some (steps G W sched P0) →
  steps G W sched P0 = Some (default P0 (steps G W sched P0)).
Proof. by intros [P ->]. Qed.


Lemma DiscoverV2_writes_shared_envMap_witness :
  envOf oneEntry (envMapOf (Scenario.payload EventPush))
  = Some {[ "CI" := "true" ]} ∧
  envOf afterWeb PostMergeK = Some {[ "CI" := "true"; "NODE_ENV" := "test" ]} ∧
  envMapsPassed
    (trace (run (Scenario.world (Scenario.happy EventPush 2)) 2
              (DiscoverV2 Scenario.G Scenario.api (Scenario.payload EventPush)
                 ∅ Scenario.tasConfigV2 ∅ true) afterWeb).2)
  = [ Some {[ "CI" := "true"; "NODE_ENV" := "test" ]};
      Some {[ "CI" := "true"; "NODE_ENV" := "test" ]} ] ∧
  envOf afterWeb (envMapOf (Scenario.payload EventPush))
  = Some (sm_EnvMap Scenario.web ∪ {[ "CI" := "true" ]}) ∧
  envOf afterWeb (envMapOf (Scenario.payload EventPush))
  ≠ envOf oneEntry (envMapOf (Scenario.payload EventPush)).
Proof.
  pose proof (DiscoverV2_writes_shared_envMap Scenario.G
                (Scenario.world (Scenario.happy EventPush 2)) 1 oneEntry
                Scenario.web (Scenario.payload EventPush) ∅
                Scenario.tasConfigV2 ∅ true {[ "CI" := "true" ]} eq_refl)
    as (Hafter & Hchanged & _).
  split_and!; [reflexivity|vm_compute; reflexivity..|exact Hafter|].
  apply Hchanged. exists "NODE_ENV", "test".
  split; vm_compute; [reflexivity|discriminate].
Defined.

Lemma pull_request_barrier_witness :
  payloadEventType (Scenario.payload EventPullRequest) ≠ EventPush ∧
  reachable Scenario.G (Scenario.world webFails) pullRequestPool afterWait ∧
  aboutToCacheWorkspace afterWait = true ∧
  length (tasks afterWait) = 2%nat ∧
  wg (mem afterWait) = 0 ∧
  ∀ i, (i < length (tasks afterWait))%nat →
       donesBy (S i) (trace (mem afterWait)) = 1%nat.
Proof.
  assert (reachable Scenario.G (Scenario.world webFails) pullRequestPool
            afterWait) as Hreach.
  { eexists. apply steps_default.
    apply (bool_decide_unpack _). vm_compute. exact I. }
  assert (aboutToCacheWorkspace afterWait = true) as Hat
    by (vm_compute; reflexivity).
  split_and!; [discriminate|exact Hreach|exact Hat|vm_compute; reflexivity|..];
    apply (pull_request_barrier Scenario.G (Scenario.world webFails)
             Scenario.cfg (Scenario.payload EventPullRequest) Scenario.oauth
             "/tmp/coverage" ∅ init afterWait
             (λ H, eq_ind EventPullRequest
                (λ ev, match ev with EventPullRequest => True | _ => False end)
                I _ H)
             eq_refl eq_refl Hreach Hat).
Defined.

Lemma Start_steps_default (G : Globals) (W : World) (cfg : NucleusConfig)
    sched P0 :
  is_Some (Start_steps G W cfg sched P0) →
  Start_steps G W cfg sched P0
  = Some (default P0 (Start_steps G W cfg sched P0)).
Proof. by intros [P ->]. Qed.

Lemma deferred_function_classifies_witness :
  is_Some (taskPayload afterPrologue) ∧
  statusAndRemark <$>
    reported (trace (run (Scenario.world clonePanics) 0
                       (Start_deferred Scenario.G None (Some cancelled))
                       afterPrologue).2)
  = [(Running, EmptyString); (Aborted, "Task aborted")] ∧
  ∃ evs t,
    trace (run (Scenario.world clonePanics) 0
             (Start_deferred Scenario.G None (Some cancelled))
             afterPrologue).2 = trace afterPrologue ++ evs ∧
    reported evs = [t] ∧
    (errs.Is cancelled errs.Canceled = true →
     tp_Status t = Aborted ∧ tp_Remark t = "Task aborted") ∧
    (errs.Is cancelled errs.Canceled = false →
     errs.isStatusFailed cancelled = true →
     tp_Status t = Failed ∧ tp_Remark t = errs.Error Scenario.G cancelled) ∧
    (errs.Is cancelled errs.Canceled = false →
     errs.isStatusFailed cancelled = false →
     tp_Status t = Error ∧ tp_Remark t = errs.Error Scenario.G cancelled).
Proof.
  split_and!; [eexists; vm_compute; reflexivity|vm_compute; reflexivity|].
  eapply (deferred_function_classifies Scenario.G (Scenario.world clonePanics)
            afterPrologue).
  - vm_compute. reflexivity.
  - intros h. exists 0. reflexivity.
  - intros h t H.
    exact (eq_ind (Answers None)
             (λ a, match a with Answers _ => True | _ => False end) I _ H).
Defined.

Lemma Start_returns_nil_witness :
  Start_reaches Scenario.G (Scenario.world webFails) Scenario.cfg
    (Start Scenario.cfg init) pullRequestDone ∧
  mainG pullRequestDone = HasReturned None ∧
  length (goroutines pullRequestDone) = 2%nat ∧
  (None : option error) = None.
Proof.
  assert (Start_reaches Scenario.G (Scenario.world webFails) Scenario.cfg
            (Start Scenario.cfg init) pullRequestDone) as Hreach.
  { eexists. apply Start_steps_default.
    apply (bool_decide_unpack _). vm_compute. exact I. }
  assert (mainG pullRequestDone = HasReturned None) as Hret
    by (vm_compute; reflexivity).
  split_and!; [exact Hreach|exact Hret|vm_compute; reflexivity|].
  exact (Start_returns_nil Scenario.G (Scenario.world webFails) Scenario.cfg
           init pullRequestDone None Hreach Hret).
Defined.

Lemma Start_reports_twice_witness :
  Start_reaches Scenario.G (Scenario.world webFails) Scenario.cfg
    (Start Scenario.cfg init) pullRequestDone ∧
  mainG pullRequestDone = HasReturned None ∧
  statusAndRemark <$> reported (trace (memory pullRequestDone))
  = [(Running, EmptyString); (Running, EmptyString)] ∧
  ∃ first last,
    reported (trace (memory pullRequestDone))
    = reported (trace init) ++ [first; last] ∧
    tp_Status first = Running ∧ tp_Remark first = EmptyString.
Proof.
  assert (Start_reaches Scenario.G (Scenario.world webFails) Scenario.cfg
            (Start Scenario.cfg init) pullRequestDone) as Hreach.
  { eexists. apply Start_steps_default.
    apply (bool_decide_unpack _). vm_compute. exact I. }
  assert (mainG pullRequestDone = HasReturned None) as Hret
    by (vm_compute; reflexivity).
  split_and!; [exact Hreach|exact Hret|vm_compute; reflexivity|].
  exact (Start_reports_twice Scenario.G (Scenario.world webFails)
           Scenario.cfg init pullRequestDone None Hreach Hret).
Defined.

Lemma coverage_mode_only_merges_witness :
  CoverageMode coverageCfg = true ∧
  Start_reaches Scenario.G (Scenario.world (Scenario.happy EventPush 1))
    coverageCfg (Start coverageCfg init) coverageDone ∧
  exitCode coverageDone = Some 0 ∧
  (∀ r, mainG coverageDone ≠ HasReturned r) ∧
  goroutines coverageDone = [] ∧
  taskPayload (memory coverageDone) = taskPayload init ∧
  ∃ evs,
    trace (memory coverageDone) = trace init ++ evs ∧
    reported evs = [] ∧
    ∀ code, exitCode coverageDone = Some code →
      if existsb isMergeAndUploadOk evs then code = 0 else code = 1.
Proof.
  assert (Start_reaches Scenario.G
            (Scenario.world (Scenario.happy EventPush 1)) coverageCfg
            (Start coverageCfg init) coverageDone) as Hreach.
  { eexists. apply Start_steps_default.
    apply (bool_decide_unpack _). vm_compute. exact I. }
  split_and!; [reflexivity|exact Hreach|vm_compute; reflexivity|..];
    apply (coverage_mode_only_merges Scenario.G
             (Scenario.world (Scenario.happy EventPush 1)) coverageCfg init
             coverageDone eq_refl Hreach).
Defined.

(** [CacheWorkspace] panics when the main goroutine is back from
    [wg.Wait()]. *)
Lemma main_panic_is_recovered_witness :
  Start_reaches Scenario.G cachePanics Scenario.cfg (Start Scenario.cfg init)
    backFromTheWait ∧
  exitCode backFromTheWait = None ∧
  panicsUnderDefer cachePanics backFromTheWait
  = Some "runtime error: slice bounds out of range" ∧
  omap (λ c, match c with WgWait => Some true | _ => None end)
       (Scenario.calls (memory backFromTheWait)) = [true] ∧
  ∃ P', Start_step Scenario.G cachePanics Scenario.cfg 0 backFromTheWait
        = Some P' ∧
        mainG P'
        = InDeferred (Start_deferred Scenario.G
                        (Some "runtime error: slice bounds out of range")
                        None) ∧
        ∀ P'', Start_reaches Scenario.G cachePanics Scenario.cfg P' P'' →
          ∃ evs,
            trace (memory P'') = trace (memory P') ++ evs ∧
            (∀ t, t ∈ reported evs →
                  tp_Status t = Error ∧
                  tp_Remark t = GenericErrRemark Scenario.G) ∧
            (∀ r, mainG P'' = HasReturned r →
                  r = None ∧ ∃ t, reported evs = [t]) ∧
            ((∀ h m, cachePanics h TimeNow ≠ PanicsWith m) →
             (∀ h t m, cachePanics h (UpdateStatus t) ≠ PanicsWith m) →
             ∀ m, mainG P'' ≠ HasPanicked m).
Proof.
  assert (Start_reaches Scenario.G cachePanics Scenario.cfg
            (Start Scenario.cfg init) backFromTheWait) as Hreach.
  { eexists. apply Start_steps_default.
    apply (bool_decide_unpack _). vm_compute. exact I. }
  assert (exitCode backFromTheWait = None) as Hexit
    by (vm_compute; reflexivity).
  assert (panicsUnderDefer cachePanics backFromTheWait
          = Some "runtime error: slice bounds out of range") as Hpanic
    by (vm_compute; reflexivity).
  split_and!; [exact Hreach|exact Hexit|exact Hpanic|vm_compute; reflexivity|].
  exact (main_panic_is_recovered Scenario.G cachePanics Scenario.cfg init
           backFromTheWait _ Hreach Hexit Hpanic).
Defined.
Lemma v2_only_discovers_witness :
  reachable Scenario.G (Scenario.world webFails) startedPool startedPoolDone ∧
  returnedNil startedPoolDone = true ∧
  tp_Status <$> taskPayload (mem startedPoolDone) = Some Running ∧
  taskPayload (mem startedPoolDone) = taskPayload afterPrologue ∧
  ∃ evs, trace (mem startedPoolDone) = trace afterPrologue ++ evs ∧
         Forall (λ e, allowed discoversOnly tt (ev_call e)) evs.
Proof.
  assert (reachable Scenario.G (Scenario.world webFails) startedPool
            startedPoolDone) as Hreach.
  { exists oneAfterTheOther. apply steps_default.
    apply (bool_decide_unpack _). vm_compute. exact I. }
  split_and!; [exact Hreach|vm_compute; reflexivity..| |];
    apply (v2_only_discovers Scenario.G (Scenario.world webFails) Scenario.cfg
             (Scenario.payload EventPullRequest) Scenario.oauth
             "/tmp/coverage" ∅ afterPrologue startedPoolDone Hreach).
Defined.

Lemma v1_uploads_once_after_discovery_witness :
  finishes (runOldVersion Scenario.G Scenario.cfg (Scenario.payload EventPush)
              Scenario.oauth "/tmp/coverage" ∅) v1Run None ∧
  accepts uploadsOncePassed (false, 0%nat) v1Run ∧
  (uploadsIn v1Run ≤ 1)%nat ∧
  ((None : option error) = None →
   uploadsIn v1Run = if DiscoverMode Scenario.cfg then 1%nat else 0%nat).
Proof.
  assert (finishes (runOldVersion Scenario.G Scenario.cfg
                      (Scenario.payload EventPush) Scenario.oauth
                      "/tmp/coverage" ∅) v1Run None) as Hfin.
  { apply observe_finishes. vm_compute. reflexivity. }
  split; [exact Hfin|].
  exact (v1_uploads_once_after_discovery Scenario.G Scenario.cfg
           (Scenario.payload EventPush) Scenario.oauth "/tmp/coverage" ∅
           v1Run None Hfin).
Defined.

Lemma cache_restored_and_saved_under_one_key_witness :
  let upload := Obs (Upload "org-1/repo-1/yarn.lock" ["node_modules"])
                    (Some None) in
  upload ∈ pushRunOfMain ∧
  ∀ o, o ∈ pushRunOfMain →
       cachedUnder (Scenario.payload EventPush)
         (v2_Cache Scenario.tasConfigV2) (obs_call o).
Proof.
  split; [unfold pushRunOfMain; do 6 right; left|].
  apply (cache_restored_and_saved_under_one_key Scenario.G Scenario.cfg
           (Scenario.payload EventPush) Scenario.oauth "/tmp/coverage" ∅).
  - right. apply finishes_behaves with (a := None).
    unfold pushRunOfMain. simpl.
    repeat (eexists _, _; split; [reflexivity|simpl]). done.
  - eexists. split; [left|reflexivity].
Defined.

Lemma fan_out_covers_the_section_witness :
  behaves (runNewVersion Scenario.G Scenario.cfg (Scenario.payload EventPush)
             Scenario.oauth "/tmp/coverage" ∅) pushRunOfMain ∧
  accepts (fansOut (Scenario.payload EventPush) ∅) (None, []) pushRunOfMain.
Proof.
  assert (behaves (runNewVersion Scenario.G Scenario.cfg
                     (Scenario.payload EventPush) Scenario.oauth
                     "/tmp/coverage" ∅) pushRunOfMain) as Hb.
  { apply finishes_behaves with (a := None).
    unfold pushRunOfMain. simpl.
    repeat (eexists _, _; split; [reflexivity|simpl]). done. }
  split; [exact Hb|].
  exact (fan_out_covers_the_section Scenario.G Scenario.cfg
           (Scenario.payload EventPush) Scenario.oauth "/tmp/coverage" ∅
           pushRunOfMain Hb).
Defined.

Lemma DiscoverV2_panics_on_nil_envMap_witness :
  envOf init (envMapOf (Scenario.payload EventPush)) = None ∧
  sm_EnvMap Scenario.web ≠ ∅ ∧
  ∃ k v,
    sm_EnvMap Scenario.web !! k = Some v ∧
    run (Scenario.world (Scenario.happy EventPush 2)) 1
      (DiscoverV2 Scenario.G Scenario.web (Scenario.payload EventPush) ∅
         Scenario.tasConfigV2 ∅ true) init
    = (Panicked "assignment to entry in nil map",
       record (Event 1 (EnvMapStore (envMapOf (Scenario.payload EventPush))
                          k v) None) init).
Proof.
  assert (sm_EnvMap Scenario.web ≠ ∅) as Hne.
  { intros Heq. apply (f_equal (λ m, m !! "NODE_ENV")) in Heq.
    vm_compute in Heq. discriminate Heq. }
  split_and!; [reflexivity|exact Hne|].
  exact (DiscoverV2_panics_on_nil_envMap Scenario.G
           (Scenario.world (Scenario.happy EventPush 2)) 1 init Scenario.web
           (Scenario.payload EventPush) ∅ Scenario.tasConfigV2 ∅ true
           eq_refl Hne).
Defined.

Lemma execution_error_with_results_is_dropped_witness :
  finishes (runOldVersion Scenario.G executeCfg (Scenario.payload EventPush)
              Scenario.oauth "/tmp/coverage" ∅) failedExecution None ∧
  executed failedExecution
  = [(Some someTestFailed, Some (errs.New "exit status 1"))] ∧
  accepts sendsResults ([], []) failedExecution ∧
  sentResults failedExecution = [Some someTestFailed] ∧
  (None : option error) ≠ Some executionFailed.
Proof.
  assert (finishes (runOldVersion Scenario.G executeCfg
                      (Scenario.payload EventPush) Scenario.oauth
                      "/tmp/coverage" ∅) failedExecution None) as Hfin.
  { unfold failedExecution. simpl.
    repeat (eexists _, _; split; [reflexivity|simpl]). done. }
  split; [exact Hfin|]. split; [reflexivity|].
  exact (execution_error_with_results_is_dropped Scenario.G executeCfg
           (Scenario.payload EventPush) Scenario.oauth "/tmp/coverage" ∅
           failedExecution None Hfin).
Defined.

Lemma cloneRun_ends :
  sys.ends (sys.Clone Scenario.G lib (Scenario.payload EventPush) EmptyString
              Scenario.oauth) cloneRun (sys.Returns None).
Proof.
  unfold cloneRun. lazy.
  repeat (eexists _, _; split; [reflexivity|lazy]). done.
Qed.

Lemma Clone_closes_what_it_opens_witness :
  sys.ends (sys.Clone Scenario.G lib (Scenario.payload EventPush) EmptyString
              Scenario.oauth) cloneRun (sys.Returns None) ∧
  countOf isResponse cloneRun = 1%nat ∧ countOf isCreated cloneRun = 1%nat ∧
  countOf isBodyClose cloneRun = countOf isResponse cloneRun ∧
  countOf isFileClose cloneRun = countOf isCreated cloneRun ∧
  (countOf isResponse cloneRun ≤ 1)%nat ∧ (countOf isCreated cloneRun ≤ 1)%nat.
Proof.
  split_and!; [exact cloneRun_ends|vm_compute; reflexivity..| | | |];
    apply (Clone_closes_what_it_opens Scenario.G lib
             (Scenario.payload EventPush) EmptyString Scenario.oauth cloneRun
             (sys.Returns None) cloneRun_ends).
Defined.

Lemma Clone_returns_nil_after_every_step_witness :
  sys.ends (sys.Clone Scenario.G lib (Scenario.payload EventPush) EmptyString
              Scenario.oauth) cloneRun (sys.Returns None) ∧
  ∃ repoName orgName archiveURL header resp filename commands,
    sys.getUnzippedFileName lib "github" orgName repoName EmptyString "c0ffee"
    = sys.Ret filename ∧
    sys.StatusCode resp = 200 ∧ length commands = 6%nat ∧
    cloneRun
    = [ sys.Obs (sys.GetCloneURL "github" "https://github.com/org/repo"
                   repoName "c0ffee" EmptyString "org/repo")
                (archiveURL, None);
        sys.Obs (sys.NewRequest "GET" archiveURL EmptyString) None;
        sys.Obs (sys.HttpDo {| sys.req_Method := "GET";
                               sys.req_URL := archiveURL;
                               sys.req_Body := EmptyString;
                               sys.req_Header := header |}) (resp, None);
        sys.Obs (sys.OsCreate "c0ffee.zip") None;
        sys.Obs (sys.IoCopy "c0ffee.zip") None;
        sys.Obs (sys.FileClose "c0ffee.zip") tt;
        sys.Obs (sys.Unarchive "c0ffee.zip"
                   (sys.filepath_Dir lib "c0ffee.zip")) None;
        sys.Obs sys.BodyClose tt;
        sys.Obs (sys.OsRename filename "/tmp/repo") None;
        sys.Obs (sys.InitGitCommands commands "/tmp/repo") None ].
Proof.
  split; [exact cloneRun_ends|].
  exact (Clone_returns_nil_after_every_step Scenario.G lib
           (Scenario.payload EventPush) EmptyString Scenario.oauth cloneRun
           cloneRun_ends).
Defined.

Lemma initGit_basic_credentials_witness :
  OauthType basicOauth = sys.Basic lib ∧
  sys.base64_Decode lib (AccessToken basicOauth) = ("user:pa:ss", None) ∧
  sys.Split "user:pa:ss" ":" = ["user"; "pa"; "ss"] ∧
  ∃ commands k,
    sys.initGit Scenario.G lib (Scenario.payload EventPush) EmptyString
      basicOauth
    = sys.Do (sys.InitGitCommands commands (RepoDir Scenario.G)) k ∧
    commands !! 2%nat
    = Some ("git config --global url."
            +:+ sys.url_String lib "https://github.com/org/repo" "user" "pa"
            +:+ ".InsteadOf " +:+ "https://github.com/org/repo").
Proof.
  split_and!; [reflexivity..|].
  exact (proj2 (initGit_basic_credentials Scenario.G lib
                  (Scenario.payload EventPush) EmptyString basicOauth
                  "https://github.com/org/repo" "user:pa:ss"
                  eq_refl eq_refl eq_refl) "user" "pa" ["ss"] eq_refl).
Defined.

Lemma sendStats_nil_iff_status_200_witness :
  sys.ends (sys.sendStats Scenario.G {| er_Results := [["passed"]] |})
    statsRun (sys.Returns None) ∧
  (∃ err, sys.Returns (None : option error) = sys.Returns err ∧
          (err = None ↔ existsb isStatusOK statsRun = true)) ∧
  countOf isBodyClose statsRun = countOf isResponse statsRun.
Proof.
  assert (sys.ends (sys.sendStats Scenario.G {| er_Results := [["passed"]] |})
            statsRun (sys.Returns None)) as Hends.
  { unfold statsRun. lazy.
    repeat (eexists _, _; split; [reflexivity|lazy]). done. }
  split; [exact Hends|].
  exact (sendStats_nil_iff_status_200 Scenario.G _ statsRun _ Hends).
Defined.

Lemma commands_run_in_the_module_directory_witness :
  behaves (goFunc Scenario.G webGoroutine) webRun ∧
  directories webRun
  = ["/tmp/repo/packages/web"; "/tmp/repo/packages/web"] ∧
  accepts (runsIn (path_Join Scenario.G (RepoDir Scenario.G)
                     (sm_Path (g_subModule webGoroutine)))) tt webRun.
Proof.
  assert (behaves (goFunc Scenario.G webGoroutine) webRun) as Hb.
  { apply observe_behaves. }
  split_and!; [exact Hb|vm_compute; reflexivity|].
  exact (proj1 (commands_run_in_the_module_directory Scenario.G webRun)
           webGoroutine Hb).
Defined.

Lemma findTaskPayloadStatus_failed_iff_witness :
  (∃ result, result ∈ er_Results someTestFailed ∧ "failed" ∈ result) ∧
  findTaskPayloadStatus someTestFailed = Failed.
Proof.
  assert (∃ result, result ∈ er_Results someTestFailed ∧ "failed" ∈ result)
    as Hex.
  { exists ["passed"; "failed"]. split; [left|right; left]. }
  split; [exact Hex|].
  exact (proj2 (proj1 (findTaskPayloadStatus_failed_iff someTestFailed)) Hex).
Defined.

Lemma discovery_result_is_posted_once_witness :
  behaves (Discover Scenario.G Scenario.tasConfig (Scenario.payload EventPush)
             ∅ {[ "src/foo.ts" := 3 ]} true) discoveryRun ∧
  omap (λ o, match obs_call o with
             | MakeAPIRequest method url body => Some (method, url, body)
             | _ => None
             end) discoveryRun
  = [("POST", "http://neuron/test-list", "{}")] ∧
  accepts (postsResult
             (λ received,
                {| dr_Body := dr_Body received;
                   dr_Parallelism := Parallelism Scenario.tasConfig;
                   dr_SplitMode := SplitMode Scenario.tasConfig;
                   dr_ContainerImage := ContainerImage Scenario.tasConfig;
                   dr_Tier := Tier Scenario.tasConfig;
                   dr_SubModule := dr_SubModule received |})
             (NeuronHost Scenario.G +:+ "/test-list"))
    (None, None, 0%nat) discoveryRun.
Proof.
  assert (behaves (Discover Scenario.G Scenario.tasConfig
                     (Scenario.payload EventPush) ∅ {[ "src/foo.ts" := 3 ]}
                     true) discoveryRun) as Hb.
  { apply observe_behaves. }
  split_and!; [exact Hb|vm_compute; reflexivity|].
  exact (proj1 (discovery_result_is_posted_once Scenario.G
                  (Scenario.payload EventPush) ∅ {[ "src/foo.ts" := 3 ]} true
                  discoveryRun) Scenario.tasConfig Hb).
Defined.

Lemma runner_started_with_the_environment_witness :
  behaves (Discover Scenario.G Scenario.tasConfig (Scenario.payload EventPush)
             ∅ {[ "src/foo.ts" := 3 ]} true) discoveryRun ∧
  omap (λ o, match obs_call o with
             | CmdRun binary _ _ env => Some (binary, env)
             | _ => None
             end) discoveryRun
  = [("./node_modules/.bin/jest-runner", [])] ∧
  accepts (startsRunner
             (default EmptyString
                (FrameworkRunnerMap Scenario.G
                   !! Framework Scenario.tasConfig))) None discoveryRun.
Proof.
  assert (behaves (Discover Scenario.G Scenario.tasConfig
                     (Scenario.payload EventPush) ∅ {[ "src/foo.ts" := 3 ]}
                     true) discoveryRun) as Hb.
  { apply observe_behaves. }
  split_and!; [exact Hb|vm_compute; reflexivity|].
  exact (proj1 (proj1 (runner_started_with_the_environment Scenario.G
                         (Scenario.payload EventPush) ∅
                         {[ "src/foo.ts" := 3 ]} true discoveryRun)
                  Scenario.tasConfig Hb)).
Defined.

Lemma getUnzippedFileName_panics_iff_witness :
  sys.getUnzippedFileName lib "github" "org" "repo" EmptyString "c0ffee"
  = sys.Ret "repo-c0ffee" ∧
  sys.getUnzippedFileName lib "bitbucket" "org" "repo" EmptyString
    "c0ffee00c0ffee00"
  = sys.Ret "org-repo-c0ffee00c0ff" ∧
  ∃ q, sys.getUnzippedFileName lib "bitbucket" "org" "repo" EmptyString
         "c0ffee" = sys.Panic q.
Proof.
  split_and!; [vm_compute; reflexivity..|].
  apply (proj2 (proj1 (getUnzippedFileName_panics_iff lib "bitbucket" "org"
                         "repo" EmptyString "c0ffee"))).
  left. vm_compute. lia.
Defined.

Lemma Clone_panics_iff_no_slash_witness :
  ("/"%char ∉ chars (RepoLink bareLink)) ∧
  sys.Clone Scenario.G lib bareLink EmptyString Scenario.oauth
  = sys.Panic (sys.IndexOutOfRange (-1) 1).
Proof.
  assert ("/"%char ∉ chars (RepoLink bareLink)) as Hn.
  { intros Hin. vm_compute in Hin.
    repeat (apply elem_of_cons in Hin as [Hin|Hin]; [discriminate Hin|]).
    by apply elem_of_nil in Hin. }
  split; [exact Hn|].
  exact (proj1 (Clone_panics_iff_no_slash Scenario.G lib bareLink EmptyString
                  Scenario.oauth) Hn).
Defined.
